(** * crx-util: a shallow embedding of the CRX extraction pipeline

    The development follows the TypeScript sources module by module:

    - [PathUtils]          src/utils/path.ts
    - [PathValidator]      src/validators/path.ts
    - [ManifestValidator]  src/validators/manifest.ts
    - [Config]             src/config/{constants,defaults,types}.ts
    - [Logger]             src/logger/index.ts
    - [CRXExtractor]       src/core/crx-extractor.ts

    JavaScript strings are sequences of UTF-16 code units, numbers are IEEE 754
    binary64 values, a [Uint8Array] is a list of bytes.  Code that may throw
    returns a [result]; code that touches the extractor's fields, the console
    or the file system runs in a state-and-exception monad over an explicit
    world, with the external programs ([unzip], the shell, [fetch]) as
    oracles of an environment. *)

From Stdlib Require Import ZArith NArith List Bool Lia Ascii String Floats Uint63 DecimalString.
From stdpp Require Import base option list gmap.

(** ** JavaScript strings *)

(** One UTF-16 code unit. *)
Abbreviation char := N (only parsing).
Abbreviation jsstring := (list N) (only parsing).

(** A literal, written as a Rocq string of Latin-1 characters. *)
Definition js (s : String.string) : jsstring :=
  map N_of_ascii (list_ascii_of_string s).

Definition SLASH : char := 47%N.
Definition DOT : char := 46%N.
Definition UNDERSCORE : char := 95%N.

Definition is_slash (c : char) : bool := N.eqb c SLASH.
Definition is_dot (c : char) : bool := N.eqb c DOT.

(** [a === b] on strings. *)
Fixpoint str_eqb (a b : jsstring) : bool :=
  match a, b with
  | [], [] => true
  | x :: a', y :: b' => N.eqb x y && str_eqb a' b'
  | _, _ => false
  end.

(** [s.startsWith(p)] *)
Fixpoint starts_with (p s : jsstring) : bool :=
  match p, s with
  | [], _ => true
  | x :: p', y :: s' => N.eqb x y && starts_with p' s'
  | _ :: _, [] => false
  end.

(** [parts.join(sep)] *)
Fixpoint join_with (sep : jsstring) (parts : list jsstring) : jsstring :=
  match parts with
  | [] => []
  | [p] => p
  | p :: rest => p ++ sep ++ join_with sep rest
  end.

(** [s.split('/')]: one more part than there are separators. *)
Fixpoint split_slash_aux (cur : jsstring) (s : jsstring) : list jsstring :=
  match s with
  | [] => [reverse cur]
  | c :: rest =>
      if is_slash c then reverse cur :: split_slash_aux [] rest
      else split_slash_aux (c :: cur) rest
  end.

Definition split_slash (s : jsstring) : list jsstring := split_slash_aux [] s.

Fixpoint drop_while {A} (f : A -> bool) (l : list A) : list A :=
  match l with
  | [] => []
  | x :: l' => if f x then drop_while f l' else l
  end.

(** White space and line terminators removed by [String.prototype.trim]. *)
Definition is_js_whitespace (c : char) : bool :=
  (N.leb 9 c && N.leb c 13) || N.eqb c 32 || N.eqb c 160 || N.eqb c 5760
  || (N.leb 8192 c && N.leb c 8202) || N.eqb c 8232 || N.eqb c 8233
  || N.eqb c 8239 || N.eqb c 8287 || N.eqb c 12288 || N.eqb c 65279.

Definition trim_start (s : jsstring) : jsstring := drop_while is_js_whitespace s.

(** [s.trimEnd()]: a character stays when something stays after it or it is
    not white space. *)
Fixpoint trim_end (s : jsstring) : jsstring :=
  match s with
  | [] => []
  | c :: rest =>
      match trim_end rest with
      | [] => if is_js_whitespace c then [] else [c]
      | kept => c :: kept
      end
  end.

Definition trim (s : jsstring) : jsstring := trim_end (trim_start s).

(** ** src/utils/path.ts *)

Module PathUtils.

(** [.replace(/\/+/g, '/')]: a slash followed by a slash is dropped, so each
    maximal run of slashes leaves its last one. *)
Fixpoint collapse_slashes (s : jsstring) : jsstring :=
  match s with
  | [] => []
  | c :: rest =>
      match rest with
      | d :: _ =>
          if is_slash c && is_slash d then collapse_slashes rest
          else c :: collapse_slashes rest
      | [] => [c]
      end
  end.

(** [.replace(/\/\.\//g, '/')]: matches are found left to right and do not
    overlap; the search resumes after the slash that closes a match. *)
Fixpoint remove_dot_slash (s : jsstring) : jsstring :=
  match s with
  | [] => []
  | c1 :: rest1 =>
      match rest1 with
      | c2 :: c3 :: rest3 =>
          if is_slash c1 && is_dot c2 && is_slash c3
          then SLASH :: remove_dot_slash rest3
          else c1 :: remove_dot_slash rest1
      | _ => c1 :: remove_dot_slash rest1
      end
  end.

(** The text after the maximal run of non-slash characters at the head. *)
Fixpoint skip_non_slash (s : jsstring) : jsstring :=
  match s with
  | [] => []
  | c :: rest => if is_slash c then s else skip_non_slash rest
  end.

(** A match of [([^/]+)\/\.\.\/] at the head of [s]: the rest after it.  The
    greedy [[^/]+] takes the whole run of non-slash characters; giving some
    back cannot help, since the next character must be a slash. *)
Definition match_segment_dotdot (s : jsstring) : option jsstring :=
  match s with
  | c :: _ =>
      if is_slash c then None
      else
        match skip_non_slash s with
        | c1 :: c2 :: c3 :: c4 :: rest =>
            if is_slash c1 && is_dot c2 && is_dot c3 && is_slash c4
            then Some rest else None
        | _ => None
        end
  | [] => None
  end.

(** [.replace(/([^/]+)\/\.\.\//g, '')], with the scan bounded by [fuel]. *)
Fixpoint remove_segment_dotdot_aux (fuel : nat) (s : jsstring) : jsstring :=
  match fuel with
  | O => s
  | S fuel' =>
      match s with
      | [] => []
      | c :: rest =>
          match match_segment_dotdot s with
          | Some after => remove_segment_dotdot_aux fuel' after
          | None => c :: remove_segment_dotdot_aux fuel' rest
          end
      end
  end.

Definition remove_segment_dotdot (s : jsstring) : jsstring :=
  remove_segment_dotdot_aux (length s) s.

(** [.replace(/\/$/, '')] *)
Definition remove_trailing_slash (s : jsstring) : jsstring :=
  match reverse s with
  | c :: rest => if is_slash c then reverse rest else s
  | [] => s
  end.

(** [static join(...segments)] *)
Definition join (segments : list jsstring) : jsstring :=
  remove_trailing_slash
    (remove_segment_dotdot
       (remove_dot_slash
          (collapse_slashes
             (join_with [SLASH]
                (filter (fun s => negb (Nat.eqb (length s) 0)) segments))))).

(** [path.lastIndexOf('/')], [None] for -1. *)
Fixpoint last_slash_aux (i : nat) (found : option nat) (s : jsstring) : option nat :=
  match s with
  | [] => found
  | c :: rest => last_slash_aux (S i) (if is_slash c then Some i else found) rest
  end.

Definition lastIndexOf_slash (s : jsstring) : option nat := last_slash_aux 0 None s.

(** [static dirname(path)] *)
Definition dirname (path : jsstring) : jsstring :=
  match lastIndexOf_slash path with
  | None => [DOT]
  | Some O => [SLASH]
  | Some lastSlash => take lastSlash path
  end.

(** [static resolve(...segments)]; [import_meta_dir] is the directory of the
    module file, fixed when the program is installed. *)
Definition resolve (import_meta_dir : jsstring) (segments : list jsstring) : jsstring :=
  let joined := join segments in
  if starts_with [SLASH] joined then joined
  else join [import_meta_dir; joined].

(** The loop of [normalize]: [result] is kept with its last element first. *)
Fixpoint normalize_loop (result : list jsstring) (parts : list jsstring) : list jsstring :=
  match parts with
  | [] => reverse result
  | part :: parts' =>
      if str_eqb part [DOT] || str_eqb part [] then normalize_loop result parts'
      else if str_eqb part [DOT; DOT] then normalize_loop (tail result) parts'
      else normalize_loop (part :: result) parts'
  end.

(** [static normalize(path)] *)
Definition normalize (path : jsstring) : jsstring :=
  let result := normalize_loop [] (split_slash path) in
  let normalized :=
    (if starts_with [SLASH] path then [SLASH] else []) ++ join_with [SLASH] result in
  match normalized with
  | [] => [DOT]
  | _ => normalized
  end.

End PathUtils.

(** ** src/errors/index.ts *)

(** The message templates of the program; numbers formatted into a message are
    left out, paths are kept. *)
Inductive message :=
  | Input_must_be_a_non_empty_string
  | Invalid_extension_ID_format (id : jsstring)
  | Download_failed
  | Received_HTML_instead_of_a_CRX_file
  | Downloaded_file_is_not_a_valid_CRX_file
  | Download_timed_out
  | File_not_found_or_inaccessible (input : jsstring)
  | File_too_large
  | Failed_to_load_file (input : jsstring)
  | Buffer_underrun_while_reading_UInt32LE
  | Buffer_not_initialized
  | Failed_to_load_input
  | Invalid_CRX_magic_number (magic : Z)
  | Unsupported_CRX_version (version : Z)
  | ZIP_offset_exceeds_file_size
  | Could_not_parse_ZIP_information
  | Failed_to_analyze_ZIP_file
  | Suspicious_compression_ratio
  | Too_many_files_in_archive
  | Extracted_size_too_large
  | Path_resolves_outside_allowed_directories (path : jsstring)
  | Failed_to_create_directory (path : jsstring)
  | Unzip_failed_with_exit_code (exitCode : Z)
  | Extraction_failed_ZIP_saved_to (fallbackPath : jsstring)
  | Manifest_must_be_an_object
  | Manifest_missing_required_field (field : jsstring)
  | Manifest_field_has_wrong_type (field : jsstring)
  | Runtime_failure.

(** A thrown value: one of the four subclasses of [CRXError], or something
    else (a plain [Error], a [ShellError], a rejected promise of the runtime). *)
Inductive exn :=
  | ValidationError (m : message)
  | DownloadError (m : message)
  | ExtractionError (m : message)
  | SecurityError (m : message)
  | OtherError (abort : bool) (m : message).

Inductive error_code := VALIDATION_ERROR | DOWNLOAD_ERROR | EXTRACTION_ERROR | SECURITY_ERROR.

Definition code (e : exn) : option error_code :=
  match e with
  | ValidationError _ => Some VALIDATION_ERROR
  | DownloadError _ => Some DOWNLOAD_ERROR
  | ExtractionError _ => Some EXTRACTION_ERROR
  | SecurityError _ => Some SECURITY_ERROR
  | OtherError _ _ => None
  end.

(** [error instanceof CRXError] *)
Definition instanceof_CRXError (e : exn) : bool :=
  match e with OtherError _ _ => false | _ => true end.

(** [error instanceof SecurityError] *)
Definition instanceof_SecurityError (e : exn) : bool :=
  match e with SecurityError _ => true | _ => false end.

(** [error instanceof Error && error.name === 'AbortError'] *)
Definition is_AbortError (e : exn) : bool :=
  match e with OtherError abort _ => abort | _ => false end.

(** The outcome of a call that may throw. *)
Inductive result (A : Type) :=
  | Returns (a : A)
  | Throws (e : exn).
Arguments Returns {A} a.
Arguments Throws {A} e.

(** ** src/validators/path.ts *)

(** The state of the process that path handling could consult. *)
Record Process := { process_cwd : jsstring }.

Module PathValidator.

Record t := {
  resolvedAllowedPaths : list jsstring;
  workingDirectory : jsstring
}.

(** The callback of [allowedPaths.map] in the constructor. *)
Definition resolve_allowed (workingDirectory path : jsstring) : jsstring :=
  if str_eqb path [DOT] then workingDirectory
  else if negb (starts_with [SLASH] path) then PathUtils.join [workingDirectory; path]
  else path.

(** [constructor(allowedPaths)], run in process state [proc]. *)
Definition new (allowedPaths : list jsstring) (proc : Process) : t :=
  let wd := process_cwd proc in
  {| workingDirectory := wd;
     resolvedAllowedPaths := map (resolve_allowed wd) allowedPaths |}.

(** The callback of [resolvedAllowedPaths.some]. *)
Definition within (normalized allowed : jsstring) : bool :=
  let allowedNormalized := PathUtils.normalize allowed in
  starts_with (allowedNormalized ++ [SLASH]) normalized
  || str_eqb normalized allowedNormalized.

Section WithModuleDir.
(** [import.meta.dir] of src/utils/path.ts. *)
Variable import_meta_dir : jsstring.

(** The path that [validatePath] normalizes.  An absent or empty [baseDir]
    is falsy. *)
Definition resolved (v : t) (path : jsstring) (baseDir : option jsstring) : jsstring :=
  match baseDir with
  | Some (c :: b) => PathUtils.resolve import_meta_dir [c :: b; path]
  | _ =>
      if negb (starts_with [SLASH] path)
      then PathUtils.join [workingDirectory v; path]
      else path
  end.

(** [validatePath(path, baseDir?)], called in process state [proc]. *)
Definition validatePath (v : t) (path : jsstring) (baseDir : option jsstring)
    (proc : Process) : result jsstring :=
  let normalized := PathUtils.normalize (resolved v path baseDir) in
  let isAllowed := existsb (within normalized) (resolvedAllowedPaths v) in
  if negb isAllowed
  then Throws (SecurityError (Path_resolves_outside_allowed_directories path))
  else Returns normalized.
End WithModuleDir.

(** The character class of the first [replace]: less-than, greater-than,
    colon, double quote, slash, backslash, bar, question mark, star, and the
    code units 0x00 to 0x1f. *)
Definition is_illegal (c : char) : bool :=
  N.eqb c 60 || N.eqb c 62 || N.eqb c 58 || N.eqb c 34 || N.eqb c 47
  || N.eqb c 92 || N.eqb c 124 || N.eqb c 63 || N.eqb c 42 || N.leb c 31.

(** The first [replace]: every character of the class becomes [_]. *)
Definition replace_illegal (s : jsstring) : jsstring :=
  map (fun c => if is_illegal c then UNDERSCORE else c) s.

(** [.replace(/\.{2,}/g, '_')]: [in_run] holds while the dots of a run that
    was already replaced are being skipped. *)
Fixpoint replace_dot_runs_aux (in_run : bool) (s : jsstring) : jsstring :=
  match s with
  | [] => []
  | c :: rest =>
      if is_dot c then
        if in_run then replace_dot_runs_aux true rest
        else
          match rest with
          | d :: _ =>
              if is_dot d then UNDERSCORE :: replace_dot_runs_aux true rest
              else c :: replace_dot_runs_aux false rest
          | [] => [c]
          end
      else c :: replace_dot_runs_aux false rest
  end.

Definition replace_dot_runs (s : jsstring) : jsstring := replace_dot_runs_aux false s.

(** [sanitizeFilename(name)] *)
Definition sanitizeFilename (name : jsstring) : jsstring :=
  let sanitized := trim (replace_dot_runs (replace_illegal name)) in
  let sanitized :=
    if Nat.ltb 200 (length sanitized) then take 200 sanitized else sanitized in
  match sanitized with
  | [] => js "unnamed"
  | _ => sanitized
  end.

End PathValidator.

(** ** src/config *)

(** A JavaScript number. *)
Abbreviation number := float (only parsing).

(** A [Uint8Array]. *)
Abbreviation bytes := (list Byte.byte) (only parsing).

Module Config.

Definition CRX_MAGIC : Z := 0x34327243.
Definition CRX_VERSION_2 : Z := 2.
Definition CRX_VERSION_3 : Z := 3.
Definition DEFAULT_EXTENSIONS_DIR : jsstring := js "_extensions".
Definition CRX_DOWNLOAD_URL_BASE : jsstring :=
  js "https://clients2.google.com/service/update2/crx".

Inductive LogLevel := DEBUG | INFO | WARN | ERROR.

Definition level_value (l : LogLevel) : nat :=
  match l with DEBUG => 0 | INFO => 1 | WARN => 2 | ERROR => 3 end.

Record ExtractorConfig := {
  maxFileSize : number;
  downloadTimeout : number;
  maxExtractionRatio : number;
  maxExtractedFiles : number;
  maxExtractedSize : number;
  allowedOutputPaths : list jsstring;
  logLevel : LogLevel;
  extensionsDir : jsstring
}.

Definition DEFAULT_CONFIG : ExtractorConfig := {|
  maxFileSize := (500 * 1024 * 1024)%float;
  downloadTimeout := 30000%float;
  maxExtractionRatio := 100%float;
  maxExtractedFiles := 10000%float;
  maxExtractedSize := (1024 * 1024 * 1024)%float;
  allowedOutputPaths := [[DOT]];
  logLevel := INFO;
  extensionsDir := DEFAULT_EXTENSIONS_DIR
|}.

End Config.
Export Config.

(** ** src/types/index.ts *)

Record CRXHeader := { version : Z; zipOffset : Z }.

(** [Partial<ExtensionInfo>] *)
Record ExtensionInfo := { id : option jsstring; name : option jsstring }.

Record ZipInfo := {
  fileCount : number;
  uncompressedSize : number;
  compressedSize : number
}.

(** A value produced by [JSON.parse]. *)
#[warnings="-register-all"]
Inductive json :=
  | JNull
  | JBool (b : bool)
  | JNumber (x : number)
  | JString (s : jsstring)
  | JArray (items : list json)
  | JObject (fields : list (jsstring * json)).

(** [object[key]], [None] for [undefined]. *)
Fixpoint get_field (key : jsstring) (fields : list (jsstring * json)) : option json :=
  match fields with
  | [] => None
  | (k, v) :: rest => if str_eqb k key then Some v else get_field key rest
  end.

(** ** src/validators/manifest.ts *)

Module ManifestValidator.

Definition is_string (v : option json) : bool :=
  match v with Some (JString _) => true | _ => false end.

(** [validateManifest(data)]: the fields of the accepted object. *)
Definition validateManifest (data : json) : result (list (jsstring * json)) :=
  match data with
  | JObject manifest =>
      match get_field (js "name") manifest with
      | Some (JString n) =>
          match trim n with
          | [] => Throws (ValidationError (Manifest_missing_required_field (js "name")))
          | _ =>
              match get_field (js "version") manifest with
              | Some (JString (_ :: _)) =>
                  match get_field (js "manifest_version") manifest with
                  | Some (JNumber _) =>
                      match get_field (js "description") manifest with
                      | None | Some (JString _) =>
                          match get_field (js "permissions") manifest with
                          | None => Returns manifest
                          | Some (JArray items) =>
                              if forallb (fun p => is_string (Some p)) items
                              then Returns manifest
                              else Throws (ValidationError
                                             (Manifest_field_has_wrong_type (js "permissions")))
                          | Some _ =>
                              Throws (ValidationError
                                        (Manifest_field_has_wrong_type (js "permissions")))
                          end
                      | Some _ =>
                          Throws (ValidationError
                                    (Manifest_field_has_wrong_type (js "description")))
                      end
                  | _ => Throws (ValidationError
                                   (Manifest_missing_required_field (js "manifest_version")))
                  end
              | _ => Throws (ValidationError (Manifest_missing_required_field (js "version")))
              end
          end
      | _ => Throws (ValidationError (Manifest_missing_required_field (js "name")))
      end
  | JArray _ =>
      (* an array is an object without the named fields *)
      Throws (ValidationError (Manifest_missing_required_field (js "name")))
  | _ => Throws (ValidationError Manifest_must_be_an_object)
  end.

End ManifestValidator.

(** ** The world around the extractor *)

(** What the program does to its surroundings, in the order it does it. *)
Inductive effect :=
  | Console (level : LogLevel) (text : String.string)
  | Console_log (text : String.string)
  | Fetch (url : jsstring)
  | Shell_mkdir_p (path : jsstring)
  | Shell_rm_rf_and_mkdir_p (path : jsstring)
  | Shell_unzip_l (zipPath : jsstring)
  | Shell_unzip (zipPath dir : jsstring)
  | Shell_mv (tempDir outputDir : jsstring)
  | Shell_rm_rf (path : jsstring)
  | Bun_write (path : jsstring) (data : bytes).

Inductive body_outcome :=
  | Body_bytes (b : bytes)
  | Body_rejects (abort : bool).

Inductive fetch_outcome :=
  | Fetch_rejects (abort : bool)
  | Fetch_response (ok : bool) (contentType : option jsstring) (body : body_outcome).

(** A finished shell command: it returned with an exit code, or the runtime
    threw. *)
Inductive shell_outcome :=
  | Sh_exit (exitCode : Z)
  | Sh_throws.

(** The collaborators the program calls but does not implement. *)
Record Env := {
  import_meta_dir : jsstring;
  Date_now : N;
  fetch : jsstring -> fetch_outcome;
  (* [Bun.file(path)]: [exists()], [stat().size], [arrayBuffer()] *)
  file_exists : jsstring -> bool;
  file_stat_size : jsstring -> option number;
  file_arrayBuffer : jsstring -> option bytes;
  (* whether the command or the write succeeds *)
  mkdir_p_ok : jsstring -> bool;
  rm_rf_and_mkdir_p_ok : jsstring -> bool;
  rm_rf_ok : jsstring -> bool;
  write_ok : jsstring -> bool;
  (* the summary line of [unzip -l] read as (uncompressed size, file count);
     [None] when the command fails or the line does not parse *)
  unzip_l : bytes -> option (number * number);
  (* [unzip -q -o]: how it ended and the entries it wrote *)
  unzip : bytes -> shell_outcome * list (jsstring * bytes);
  (* [JSON.parse] of a file *)
  json_parse : bytes -> option json
}.

(** The mutable fields of a [CRXExtractor], the process, the files on disk and
    the effects so far (oldest first). *)
Record State := {
  buffer : option bytes;
  offset : Z;
  extensionInfo : ExtensionInfo;
  process : Process;
  files : gmap (list N) (list Byte.byte);
  effects : list effect
}.

Definition set_buffer (b : option bytes) (s : State) : State :=
  {| buffer := b; offset := offset s; extensionInfo := extensionInfo s;
     process := process s; files := files s; effects := effects s |}.

Definition set_offset (o : Z) (s : State) : State :=
  {| buffer := buffer s; offset := o; extensionInfo := extensionInfo s;
     process := process s; files := files s; effects := effects s |}.

Definition set_extensionInfo (i : ExtensionInfo) (s : State) : State :=
  {| buffer := buffer s; offset := offset s; extensionInfo := i;
     process := process s; files := files s; effects := effects s |}.

Definition set_files (f : gmap (list N) (list Byte.byte)) (s : State) : State :=
  {| buffer := buffer s; offset := offset s; extensionInfo := extensionInfo s;
     process := process s; files := f; effects := effects s |}.

Definition add_effect (e : effect) (s : State) : State :=
  {| buffer := buffer s; offset := offset s; extensionInfo := extensionInfo s;
     process := process s; files := files s; effects := effects s ++ [e] |}.

(** *** Files *)

(** [key] is [dir] or lies below it. *)
Definition under (dir key : jsstring) : bool :=
  starts_with (dir ++ [SLASH]) key || str_eqb key dir.

(** [rm -rf dir] *)
Definition fs_rm_rf (dir : jsstring) (f : gmap (list N) (list Byte.byte))
    : gmap (list N) (list Byte.byte) :=
  filter (fun kv : list N * list Byte.byte => under dir kv.1 = false) f.

(** The entries an [unzip -d dir] wrote. *)
Definition fs_write_entries (dir : jsstring) (entries : list (jsstring * bytes))
    (f : gmap (list N) (list Byte.byte)) : gmap (list N) (list Byte.byte) :=
  foldl (fun m e => <[PathUtils.join [dir; e.1] := e.2]> m) f entries.

(** The part of [key] below [dir], when its first character is not a dot: what
    the glob [dir/*] selects. *)
Definition globbed (dir key : jsstring) : option jsstring :=
  if starts_with (dir ++ [SLASH]) key then
    match drop (length dir + 1) key with
    | c :: rest => if is_dot c then None else Some (c :: rest)
    | [] => None
    end
  else None.

(** [mv tempDir/* outputDir/] *)
Definition fs_mv (tempDir outputDir : jsstring) (f : gmap (list N) (list Byte.byte))
    : gmap (list N) (list Byte.byte) :=
  foldr (fun kv m =>
           match globbed tempDir kv.1 with
           | Some rest => <[outputDir ++ [SLASH] ++ rest := kv.2]> (delete kv.1 m)
           | None => m
           end) f (map_to_list f).

(** ** The monad of the extractor's methods: state and exceptions *)

Definition M (A : Type) : Type := State -> result A * State.

Definition ret {A} (a : A) : M A := fun s => (Returns a, s).

Definition throw {A} (e : exn) : M A := fun s => (Throws e, s).

Definition bind {A B} (m : M A) (k : A -> M B) : M B :=
  fun s =>
    match m s with
    | (Returns a, s') => k a s'
    | (Throws e, s') => (Throws e, s')
    end.

Notation "'let*' x ':=' c 'in' k" := (bind c (fun x => k))
  (at level 10, x name, c at level 100, k at level 200).
Notation "c ;; k" := (bind c (fun _ => k))
  (at level 100, k at level 200, right associativity).

(** [try { body } catch (error) { handler }] *)
Definition try_catch {A} (body : M A) (handler : exn -> M A) : M A :=
  fun s =>
    match body s with
    | (Returns a, s') => (Returns a, s')
    | (Throws e, s') => handler e s'
    end.

(** [try { body } finally { cleanup }]: the cleanup runs whatever the body
    did; its own exception, if any, replaces the body's outcome. *)
Definition try_finally {A} (body : M A) (cleanup : M unit) : M A :=
  fun s =>
    match body s with
    | (r, s') =>
        match cleanup s' with
        | (Returns _, s'') => (r, s'')
        | (Throws e, s'') => (Throws e, s'')
        end
    end.

Definition lift {A} (r : result A) : M A := fun s => (r, s).

Definition get {A} (f : State -> A) : M A := fun s => (Returns (f s), s).

Definition modify (f : State -> State) : M unit := fun s => (Returns tt, f s).

Definition perform (e : effect) : M unit := modify (add_effect e).

(** ** src/logger/index.ts *)

Module Logger.
Section WithLevel.
(** [this.level] *)
Variable level : LogLevel.

Definition shouldLog (l : LogLevel) : bool :=
  Nat.leb (level_value level) (level_value l).

(** [debug(message, data?)]; [data] tells whether the second argument is
    given. *)
Definition debug (message : String.string) (data : bool) : M unit :=
  if shouldLog DEBUG then
    perform (Console DEBUG message) ;;
    if data then perform (Console DEBUG "  Data:") else ret tt
  else ret tt.

Definition info (message : String.string) : M unit :=
  if shouldLog INFO then perform (Console INFO message) else ret tt.

Definition warn (message : String.string) : M unit :=
  if shouldLog WARN then perform (Console WARN message) else ret tt.

(** [error(message, error)], always called with an [Error]. *)
Definition error (message : String.string) : M unit :=
  if shouldLog ERROR then
    perform (Console ERROR message) ;;
    match level with
    | DEBUG => perform (Console ERROR "  Stack:")
    | _ => ret tt
    end
  else ret tt.
End WithLevel.
End Logger.

(** ** src/core/crx-extractor.ts *)

(** [x | y], [x << n] and [x >>> 0] work on 32-bit integers. *)
Definition ToInt32 (z : Z) : Z := ((z + 2 ^ 31) mod 2 ^ 32 - 2 ^ 31)%Z.
Definition ToUint32 (z : Z) : Z := (z mod 2 ^ 32)%Z.
Definition js_or (x y : Z) : Z := ToInt32 (Z.lor (ToInt32 x) (ToInt32 y)).
Definition js_shl (x n : Z) : Z := ToInt32 (Z.shiftl (ToInt32 x) (n mod 32)).
Definition js_ushr0 (x : Z) : Z := ToUint32 x.

(** [buffer[i] ?? 0] *)
Definition byte_at (buffer : bytes) (i : Z) : Z :=
  if (i <? 0)%Z then 0%Z
  else match nth_error buffer (Z.to_nat i) with
       | Some b => Z.of_N (Byte.to_N b)
       | None => 0%Z
       end.

(** The number that is the length of an array or the size of a file (exact
    below 2^53). *)
Definition number_of_nat (n : nat) : number :=
  PrimFloat.of_uint63 (Uint63.of_Z (Z.of_nat n)).

(** [`${n}`] for a non-negative integer. *)
Definition decimal (n : N) : jsstring := js (NilEmpty.string_of_uint (N.to_uint n)).

(** [s.includes(needle)] *)
Fixpoint includes (needle s : jsstring) : bool :=
  starts_with needle s
  || match s with
     | [] => false
     | _ :: rest => includes needle rest
     end.

(** [s.replace(pattern, replacement)] with a string pattern: the first
    occurrence only. *)
Fixpoint replace_first (pattern replacement s : jsstring) : jsstring :=
  if starts_with pattern s then replacement ++ drop (length pattern) s
  else match s with
       | [] => []
       | c :: rest => c :: replace_first pattern replacement rest
       end.

Definition is_lower (c : char) : bool := N.leb 97 c && N.leb c 122.

(** The leftmost match of [/([a-z]{32})/]. *)
Fixpoint match_extension_id (s : jsstring) : option jsstring :=
  match s with
  | [] => None
  | _ :: rest =>
      let candidate := take 32 s in
      if Nat.eqb (length candidate) 32 && forallb is_lower candidate
      then Some candidate
      else match_extension_id rest
  end.

Module CRXExtractor.
Section Methods.
Variable env : Env.
(** The read-only fields of [this]. *)
Variable input : jsstring.
Variable config : ExtractorConfig.
Variable pathValidator : PathValidator.t.

Definition logger_debug := Logger.debug (logLevel config).
Definition logger_info := Logger.info (logLevel config).
Definition logger_warn := Logger.warn (logLevel config).
Definition logger_error := Logger.error (logLevel config).

(** [this.pathValidator.validatePath(path)] *)
Definition validatePath (path : jsstring) : M jsstring :=
  let* proc := get process in
  lift (PathValidator.validatePath (import_meta_dir env) pathValidator path None proc).

(** *** Shell commands and file writes *)

Definition sh_mkdir_p (path : jsstring) : M unit :=
  perform (Shell_mkdir_p path) ;;
  if mkdir_p_ok env path then ret tt else throw (OtherError false Runtime_failure).

Definition sh_rm_rf_and_mkdir_p (path : jsstring) : M unit :=
  perform (Shell_rm_rf_and_mkdir_p path) ;;
  if rm_rf_and_mkdir_p_ok env path
  then modify (fun s => set_files (fs_rm_rf path (files s)) s)
  else throw (OtherError false Runtime_failure).

Definition sh_rm_rf (path : jsstring) : M unit :=
  perform (Shell_rm_rf path) ;;
  if rm_rf_ok env path
  then modify (fun s => set_files (fs_rm_rf path (files s)) s)
  else throw (OtherError false Runtime_failure).

Definition sh_mv (tempDir outputDir : jsstring) : M unit :=
  perform (Shell_mv tempDir outputDir) ;;
  modify (fun s => set_files (fs_mv tempDir outputDir (files s)) s).

Definition Bun_write_file (path : jsstring) (data : bytes) : M unit :=
  perform (Bun_write path data) ;;
  if write_ok env path
  then modify (fun s => set_files (<[path := data]> (files s)) s)
  else throw (OtherError false Runtime_failure).

(** [unzip -q -o zipPath -d dir]: the exit code when the call returns. *)
Definition sh_unzip (zipPath dir : jsstring) : M Z :=
  perform (Shell_unzip zipPath dir) ;;
  let* staged := get (fun s => files s !! zipPath) in
  match staged with
  | None => throw (OtherError false Runtime_failure)
  | Some data =>
      let '(outcome, entries) := unzip env data in
      modify (fun s => set_files (fs_write_entries dir entries (files s)) s) ;;
      match outcome with
      | Sh_exit exitCode => ret exitCode
      | Sh_throws => throw (OtherError false Runtime_failure)
      end
  end.

(** *** Acquisition *)

(** [findExtensionId()] *)
Definition findExtensionId : M (option jsstring) :=
  let id := match_extension_id input in
  logger_debug "Extension ID search" true ;;
  ret id.

(** [readUInt32LEAt(buffer, offset)] *)
Definition readUInt32LEAt (buffer : bytes) (offset : Z) : result Z :=
  if (Z.of_nat (length buffer) <? offset + 4)%Z
  then Throws (ValidationError Buffer_underrun_while_reading_UInt32LE)
  else Returns
         (js_ushr0
            (js_or
               (js_or
                  (js_or (byte_at buffer offset)
                         (js_shl (byte_at buffer (offset + 1)) 8))
                  (js_shl (byte_at buffer (offset + 2)) 16))
               (js_shl (byte_at buffer (offset + 3)) 24))).

(** The URL of the download, its query string written by
    [URLSearchParams]. *)
Definition downloadUrl (extensionId : jsstring) : jsstring :=
  CRX_DOWNLOAD_URL_BASE
    ++ js "?response=redirect&prodversion=120.0&acceptformat=crx3&x=id%3D"
    ++ extensionId ++ js "%26installsource%3Dondemand%26uc".

(** [downloadFromWebStore(extensionId)]; the timer is part of [fetch env],
    which says whether the request was aborted. *)
Definition downloadFromWebStore (extensionId : jsstring) : M bytes :=
  if negb (Nat.eqb (length extensionId) 32 && forallb is_lower extensionId)
  then throw (ValidationError (Invalid_extension_ID_format extensionId))
  else
    modify (set_extensionInfo {| id := Some extensionId; name := Some extensionId |}) ;;
    logger_info "Fetching extension with ID" ;;
    logger_debug "Download URL constructed" true ;;
    try_catch
      (perform (Fetch (downloadUrl extensionId)) ;;
       match fetch env (downloadUrl extensionId) with
       | Fetch_rejects abort => throw (OtherError abort Runtime_failure)
       | Fetch_response ok contentType body =>
           if negb ok then throw (DownloadError Download_failed)
           else if match contentType with
                   | Some ct => includes (js "text/html") ct
                   | None => false
                   end
           then throw (DownloadError Received_HTML_instead_of_a_CRX_file)
           else
             match body with
             | Body_rejects abort => throw (OtherError abort Runtime_failure)
             | Body_bytes buffer =>
                 logger_info "Downloaded MB" ;;
                 if Nat.ltb (length buffer) 8
                 then throw (ValidationError Downloaded_file_is_not_a_valid_CRX_file)
                 else
                   let* magic := lift (readUInt32LEAt buffer 0) in
                   if negb (Z.eqb magic CRX_MAGIC)
                   then throw (ValidationError Downloaded_file_is_not_a_valid_CRX_file)
                   else ret buffer
             end
       end)
      (fun error =>
         if is_AbortError error then throw (DownloadError Download_timed_out)
         else throw error).

(** [this.input.split('/').pop()?.replace('.crx', '') || 'local_extension'] *)
Definition local_filename : jsstring :=
  match replace_first (js ".crx") [] (List.last (split_slash input) []) with
  | [] => js "local_extension"
  | filename => filename
  end.

(** [loadLocalFile()] *)
Definition loadLocalFile : M unit :=
  try_catch
    (let exists_ := file_exists env input in
     let stats := file_stat_size env input in
     let buffer := file_arrayBuffer env input in
     match exists_, stats, buffer with
     | true, Some size, Some buffer =>
         logger_info "Loading local file" ;;
         if (maxFileSize config <? size)%float
         then throw (ValidationError File_too_large)
         else
           modify (set_buffer (Some buffer)) ;;
           modify (set_extensionInfo
                     {| id := Some (js "local");
                        name := Some (PathValidator.sanitizeFilename local_filename) |}) ;;
           logger_debug "Local file loaded" true
     | _, _, _ => throw (ValidationError (File_not_found_or_inaccessible input))
     end)
    (fun error =>
       if instanceof_CRXError error then throw error
       else throw (ValidationError (Failed_to_load_file input))).

(** [loadInput()] *)
Definition loadInput : M unit :=
  let* extensionId := findExtensionId in
  match extensionId with
  | Some extensionId =>
      let* downloaded := downloadFromWebStore extensionId in
      modify (set_buffer (Some downloaded))
  | None => loadLocalFile
  end.

(** *** The container header *)

(** [readUInt32LE()] *)
Definition readUInt32LE : M Z :=
  let* buffer := get buffer in
  match buffer with
  | None => throw (OtherError false Buffer_not_initialized)
  | Some buffer =>
      let* offset := get offset in
      let* value := lift (readUInt32LEAt buffer offset) in
      modify (set_offset (offset + 4)%Z) ;;
      ret value
  end.

(** [parseHeader()] *)
Definition parseHeader : M CRXHeader :=
  let* buffer := get buffer in
  match buffer with
  | None => throw (OtherError false Buffer_not_initialized)
  | Some buffer =>
      modify (set_offset 0%Z) ;;
      let* magic := readUInt32LE in
      if negb (Z.eqb magic CRX_MAGIC)
      then throw (ValidationError (Invalid_CRX_magic_number magic))
      else
        let* version := readUInt32LE in
        let* zipOffset :=
          if Z.eqb version CRX_VERSION_2 then
            let* publicKeyLength := readUInt32LE in
            let* signatureLength := readUInt32LE in
            let* offset := get offset in
            ret (offset + publicKeyLength + signatureLength)%Z
          else if Z.eqb version CRX_VERSION_3 then
            let* headerSize := readUInt32LE in
            let* offset := get offset in
            ret (offset + headerSize)%Z
          else throw (ValidationError (Unsupported_CRX_version version)) in
        if (Z.of_nat (length buffer) <=? zipOffset)%Z
        then throw (ValidationError ZIP_offset_exceeds_file_size)
        else
          logger_debug "CRX header parsed" true ;;
          ret {| version := version; zipOffset := zipOffset |}
  end.

(** *** Security inspection *)

(** [getZipInfo(zipPath)]: the listing comes from [unzip_l env], the
    compressed size is the size of the staged file. *)
Definition getZipInfo (zipPath : jsstring) : M ZipInfo :=
  try_catch
    (perform (Shell_unzip_l zipPath) ;;
     let* staged := get (fun s => files s !! zipPath) in
     match staged with
     | None => throw (OtherError false Runtime_failure)
     | Some data =>
         match unzip_l env data with
         | None => throw (ValidationError Could_not_parse_ZIP_information)
         | Some (uncompressedSize, fileCount) =>
             ret {| fileCount := fileCount;
                    uncompressedSize := uncompressedSize;
                    compressedSize := number_of_nat (length data) |}
         end
     end)
    (fun error =>
       logger_error "Failed to get ZIP info" ;;
       throw (ExtractionError Failed_to_analyze_ZIP_file)).

(** The three checks of [validateZipSecurity], on the summary it got. *)
Definition checkZipInfo (info : ZipInfo) : result unit :=
  let ratio := (uncompressedSize info / compressedSize info)%float in
  if (maxExtractionRatio config <? ratio)%float
  then Throws (SecurityError Suspicious_compression_ratio)
  else if (maxExtractedFiles config <? fileCount info)%float
  then Throws (SecurityError Too_many_files_in_archive)
  else if (maxExtractedSize config <? uncompressedSize info)%float
  then Throws (SecurityError Extracted_size_too_large)
  else Returns tt.

(** [validateZipSecurity(zipPath)] *)
Definition validateZipSecurity (zipPath : jsstring) : M unit :=
  let* info := getZipInfo zipPath in
  logger_debug "ZIP info retrieved" true ;;
  lift (checkZipInfo info) ;;
  logger_info "ZIP security validation passed".

(** *** Extraction *)

(** [ensureDirectory(path)] *)
Definition ensureDirectory (path : jsstring) : M unit :=
  try_catch
    (let* validPath := validatePath path in
     sh_mkdir_p validPath ;;
     logger_debug "Directory created" true)
    (fun error =>
       if instanceof_SecurityError error then throw error
       else throw (ExtractionError (Failed_to_create_directory path))).

Definition tempDir_of (outputDir : jsstring) : jsstring :=
  PathUtils.join [outputDir; js ".tmp_" ++ decimal (Date_now env)].

Definition fallbackPath_of (outputDir : jsstring) : jsstring :=
  PathUtils.join [outputDir; js "failed_extraction.zip"].

(** [extractZip(zipData, outputDir)] *)
Definition extractZip (zipData : bytes) (outputDir : jsstring) : M unit :=
  let tempDir := tempDir_of outputDir in
  let zipPath := PathUtils.join [tempDir; js "archive.zip"] in
  try_finally
    (try_catch
       (ensureDirectory tempDir ;;
        Bun_write_file zipPath zipData ;;
        logger_debug "Temporary ZIP created" true ;;
        validateZipSecurity zipPath ;;
        let* exitCode := sh_unzip zipPath tempDir in
        if negb (Z.eqb exitCode 0)
        then throw (ExtractionError (Unzip_failed_with_exit_code exitCode))
        else
          sh_mv tempDir outputDir ;;
          logger_info "Extraction completed successfully")
       (fun error =>
          logger_error "Extraction failed" ;;
          let fallbackPath := fallbackPath_of outputDir in
          Bun_write_file fallbackPath zipData ;;
          throw (ExtractionError (Extraction_failed_ZIP_saved_to fallbackPath))))
    (try_catch
       (sh_rm_rf tempDir)
       (fun _ => logger_warn "Failed to clean up temp directory")).

(** [readManifest(outputDir)]: the fields of the manifest, or [null]. *)
Definition readManifest (outputDir : jsstring) : M (option (list (jsstring * json))) :=
  let manifestPath := PathUtils.join [outputDir; js "manifest.json"] in
  let* manifestFile := get (fun s => files s !! manifestPath) in
  match manifestFile with
  | None => logger_warn "manifest.json not found" ;; ret None
  | Some content =>
      try_catch
        (let* rawData :=
           match json_parse env content with
           | Some data => ret data
           | None => throw (OtherError false Runtime_failure)
           end in
         let* manifest := lift (ManifestValidator.validateManifest rawData) in
         match get_field (js "name") manifest with
         | Some (JString (c :: n)) =>
             modify (fun s =>
                       set_extensionInfo
                         {| id := id (extensionInfo s);
                            name := Some (PathValidator.sanitizeFilename (c :: n)) |} s)
         | _ => ret tt
         end ;;
         logger_debug "Manifest validated" true ;;
         ret (Some manifest))
        (fun error => logger_error "Failed to parse manifest" ;; ret None)
  end.

(** [this.extensionInfo.name || 'unknown_extension'] *)
Definition extensionName_of (info : ExtensionInfo) : jsstring :=
  match name info with
  | Some (c :: n) => c :: n
  | _ => js "unknown_extension"
  end.

(** [extract(outputDir?)] *)
Definition extract (outputDir : option jsstring) : M unit :=
  logger_info "Starting CRX extraction" ;;
  try_catch
    (loadInput ;;
     let* loaded := get buffer in
     match loaded with
     | None => throw (OtherError false Failed_to_load_input)
     | Some buffer =>
         let* header := parseHeader in
         logger_info "CRX version" ;;
         let zipData := drop (Z.to_nat (zipOffset header)) buffer in
         logger_info "ZIP data size" ;;
         let* info := get extensionInfo in
         let extensionName := extensionName_of info in
         let* outDir :=
           match outputDir with
           | Some (c :: o) => validatePath (c :: o)
           | _ => validatePath (PathUtils.join [extensionsDir config; extensionName])
           end in
         logger_info "Output directory" ;;
         ensureDirectory (PathUtils.dirname outDir) ;;
         sh_rm_rf_and_mkdir_p outDir ;;
         let crxPath :=
           PathUtils.join [extensionsDir config; extensionName ++ js ".crx"] in
         let* validCrxPath := validatePath crxPath in
         ensureDirectory (PathUtils.dirname validCrxPath) ;;
         Bun_write_file validCrxPath buffer ;;
         logger_info "Saved CRX file to" ;;
         logger_info "Extracting files..." ;;
         extractZip zipData outDir ;;
         let* manifest := readManifest outDir in
         match manifest with
         | Some fields =>
             perform (Console_log "Extension Information:") ;;
             perform (Console_log "   Name:") ;;
             perform (Console_log "   Version:") ;;
             perform (Console_log "   Manifest:") ;;
             match get_field (js "description") fields with
             | Some (JString (_ :: _)) => perform (Console_log "   Description:")
             | _ => ret tt
             end
         | None => ret tt
         end ;;
         logger_info "Successfully extracted to"
     end)
    (fun error => logger_error "Extraction failed" ;; throw error).
End Methods.

(** [constructor(input, config)]: the path validator it stores. *)
Definition new (input : jsstring) (config : ExtractorConfig) : M PathValidator.t :=
  match input with
  | [] => throw (ValidationError Input_must_be_a_non_empty_string)
  | _ =>
      let* proc := get process in
      let pathValidator := PathValidator.new (allowedOutputPaths config) proc in
      Logger.debug (logLevel config) "CRXExtractor initialized" true ;;
      ret pathValidator
  end.

(** [new CRXExtractor(input, config).extract(outputDir)], as [runCLI] does. *)
Definition run (env : Env) (input : jsstring) (config : ExtractorConfig)
    (outputDir : option jsstring) : M unit :=
  let* pathValidator := new input config in
  extract env input config pathValidator outputDir.

(** A fresh extractor in a world with the given process and files. *)
Definition initial (proc : Process) (disk : gmap (list N) (list Byte.byte)) : State :=
  {| buffer := None; offset := 0%Z;
     extensionInfo := {| id := None; name := None |};
     process := proc; files := disk; effects := [] |}.

End CRXExtractor.

(** ** src/cli.ts *)

Module CLI.

(** What [runCLI] decides from its arguments: print the help text and exit
    with 0, complain about a missing input and exit with 1, or build an
    extractor and call [extract]. *)
Inductive request :=
  | Help
  | No_input
  | Extract (input : jsstring) (outputDir : option jsstring) (logLevel : LogLevel).

(** One round of the loop over [args[1..]]; [outputDir] is [undefined] until
    an argument is taken for it. *)
Definition parse_step (acc : option jsstring * LogLevel) (arg : jsstring)
    : option jsstring * LogLevel :=
  let '(outputDir, logLevel) := acc in
  match arg with
  | [] => acc
  | _ =>
      if str_eqb arg (js "--debug") then (outputDir, DEBUG)
      else if str_eqb arg (js "--quiet") then (outputDir, ERROR)
      else
        match outputDir with
        | None => if negb (starts_with (js "--") arg) then (Some arg, logLevel) else acc
        | Some _ => acc
        end
  end.

(** The argument handling of [runCLI(args)]. *)
Definition parse_args (args : list jsstring) : request :=
  if Nat.eqb (length args) 0 || existsb (fun a => str_eqb a (js "--help")) args then Help
  else
    match args with
    | [] => No_input
    | [] :: _ => No_input
    | input :: rest =>
        let '(outputDir, logLevel) := fold_left parse_step rest (None, INFO) in
        Extract input outputDir logLevel
    end.

(** [{ ...DEFAULT_CONFIG, logLevel }] *)
Definition config_for (logLevel : LogLevel) : ExtractorConfig :=
  {| maxFileSize := maxFileSize DEFAULT_CONFIG;
     downloadTimeout := downloadTimeout DEFAULT_CONFIG;
     maxExtractionRatio := maxExtractionRatio DEFAULT_CONFIG;
     maxExtractedFiles := maxExtractedFiles DEFAULT_CONFIG;
     maxExtractedSize := maxExtractedSize DEFAULT_CONFIG;
     allowedOutputPaths := allowedOutputPaths DEFAULT_CONFIG;
     logLevel := logLevel;
     extensionsDir := extensionsDir DEFAULT_CONFIG |}.

End CLI.

(** ** The path rule in the words of the specification

    Section 4.5 of the specification: join the candidate onto the captured
    working directory unless it is absolute, resolve [.] and [..] segments
    lexically, accept when the result is an allowed root or strictly below
    one.  [PathUtils.normalize] is that lexical resolution; the join is plain
    concatenation with the separator. *)

Module Spec.

Definition absolute_form (cwd p : jsstring) : jsstring :=
  if starts_with [SLASH] p then p else cwd ++ [SLASH] ++ p.

Definition lexical_form (cwd p : jsstring) : jsstring :=
  PathUtils.normalize (absolute_form cwd p).

(** The roots, resolved against the working directory. *)
Definition roots (cwd : jsstring) (allowedPaths : list jsstring) : list jsstring :=
  map (lexical_form cwd) allowedPaths.

(** [n] is root [r] or starts with [r] followed by the separator. *)
Definition inside_root (n r : jsstring) : bool :=
  str_eqb n r || starts_with (r ++ [SLASH]) n.

Definition accepts (cwd : jsstring) (allowedPaths : list jsstring) (p : jsstring) : bool :=
  existsb (inside_root (lexical_form cwd p)) (roots cwd allowedPaths).

End Spec.

(** ** Predicates used in the statements *)

Definition BACKSLASH : char := 92%N.
Definition DEL : char := 127%N.

(** No two dots in a row. *)
Fixpoint no_dot_run (s : jsstring) : bool :=
  match s with
  | c :: (d :: _) as rest => negb (is_dot c && is_dot d) && no_dot_run rest
  | _ => true
  end.

(** The last character is white space. *)
Fixpoint ends_with_whitespace (s : jsstring) : bool :=
  match s with
  | [] => false
  | [c] => is_js_whitespace c
  | _ :: rest => ends_with_whitespace rest
  end.

(** Not in the character class that [sanitizeFilename] replaces. *)
Definition legal (c : char) : Prop := PathValidator.is_illegal c = false.

Definition is_console (e : effect) : bool :=
  match e with Console _ _ | Console_log _ => true | _ => false end.

(** Every run of [m] relates the state it starts in to the state it ends in. *)
Definition respects (R : State -> State -> Prop) {A} (m : M A) : Prop :=
  forall s, R s (m s).2.

(** The later state has the effects of the earlier one and maybe more. *)
Definition extends_effects (s s' : State) : Prop :=
  exists added, effects s' = effects s ++ added.

(** The effects that write, move or remove files ([mkdir -p] only makes
    directories, [unzip -l] only reads). *)
Definition changes_files (e : effect) : bool :=
  match e with
  | Shell_rm_rf_and_mkdir_p _ | Shell_unzip _ _ | Shell_mv _ _ | Shell_rm_rf _
  | Bun_write _ _ => true
  | _ => false
  end.

(** The files on disk are the same, and none of the added effects changes
    files. *)
Definition same_files (s s' : State) : Prop :=
  files s' = files s
  /\ exists added,
       effects s' = effects s ++ added
       /\ Forall (fun e => changes_files e = false) added.

(** Among the added effects, the first that changes files (if there is one)
    is the command that clears the output directory; without one the files on
    disk are the same. *)
Definition cleared_first (s s' : State) : Prop :=
  exists before rest,
    effects s' = effects s ++ before ++ rest
    /\ Forall (fun e => changes_files e = false) before
    /\ ((rest = [] /\ files s' = files s)
        \/ exists dir rest', rest = Shell_rm_rf_and_mkdir_p dir :: rest').

(** A path segment that [PathUtils.normalize] keeps: not empty, not [.], not
    [..], without a slash. *)
Definition plain_segment (seg : jsstring) : bool :=
  negb (str_eqb seg []) && negb (str_eqb seg [DOT]) && negb (str_eqb seg [DOT; DOT])
  && forallb (fun c => negb (is_slash c)) seg.

Definition slash_free (s : jsstring) : bool := forallb (fun c => negb (is_slash c)) s.

(** The later state has the effects of the earlier one and maybe more, each
    added one allowed by [P]. *)
Definition adds_only (P : effect -> bool) (s s' : State) : Prop :=
  exists added, effects s' = effects s ++ added /\ Forall (fun e => P e = true) added.

(** Not a command that unpacks the payload or moves unpacked files. *)
Definition unpacks_nothing (e : effect) : bool :=
  match e with Shell_unzip _ _ | Shell_mv _ _ => false | _ => true end.

(** Not a request to the network. *)
Definition offline (e : effect) : bool :=
  match e with Fetch _ => false | _ => true end.

(** Not a line of the logger below [level]. *)
Definition at_least (level : LogLevel) (e : effect) : bool :=
  match e with
  | Console l _ => Nat.leb (level_value level) (level_value l)
  | _ => true
  end.

(** The extractor holds the same buffer. *)
Definition same_buffer (s s' : State) : Prop := buffer s' = buffer s.

(** Every error that a run of [m] ends with is one of [E]. *)
Definition throws_only {A} (E : exn -> Prop) (m : M A) : Prop :=
  forall s e s', m s = (Throws e, s') -> E e.

(** The errors [extract] can end with: no abort signal, and no security error
    other than a rejected path. *)
Definition reported (e : exn) : bool :=
  match e with
  | SecurityError (Path_resolves_outside_allowed_directories _) => true
  | SecurityError _ => false
  | OtherError abort _ => negb abort
  | _ => true
  end.

(** An argument that [runCLI] can take for the output directory. *)
Definition positional (arg : jsstring) : bool :=
  negb (str_eqb arg []) && negb (starts_with (js "--") arg).

Definition level_flag (arg : jsstring) : bool :=
  str_eqb arg (js "--debug") || str_eqb arg (js "--quiet").

(** ** Sample inputs *)

Module Samples.

Definition bytes_of (l : list N) : bytes :=
  map (fun n => match Byte.of_N n with Some b => b | None => Byte.x00 end) l.

(** Magic, version 3, header size 1, one header byte, three payload bytes. *)
Definition crx_v3 : bytes :=
  bytes_of [0x43; 0x72; 0x32; 0x34; 3; 0; 0; 0; 1; 0; 0; 0; 9; 0x50; 0x4b; 7]%N.

(** Magic, version 2, key length 2, signature length 1, then two payload
    bytes. *)
Definition crx_v2 : bytes :=
  bytes_of [0x43; 0x72; 0x32; 0x34; 2; 0; 0; 0; 2; 0; 0; 0; 1; 0; 0; 0;
            7; 7; 7; 0x50; 0x4b]%N.

(** A machine on which every command and write succeeds; the local file has
    the given stat size and contents, the staged archive the given
    listing. *)
Definition env_of (size : number) (content : bytes) (listing : option (number * number))
    (unzipped : shell_outcome) : Env := {|
  import_meta_dir := js "/opt/crx-util/src/utils";
  Date_now := 1700000000000%N;
  fetch := fun _ => Fetch_rejects false;
  file_exists := fun _ => true;
  file_stat_size := fun _ => Some size;
  file_arrayBuffer := fun _ => Some content;
  mkdir_p_ok := fun _ => true;
  rm_rf_and_mkdir_p_ok := fun _ => true;
  rm_rf_ok := fun _ => true;
  write_ok := fun _ => true;
  unzip_l := fun _ => listing;
  unzip := fun _ => (unzipped, [(js "manifest.json", bytes_of [123; 125]%N)]);
  json_parse := fun _ =>
    Some (JObject [(js "name", JString (js "Test"));
                   (js "version", JString (js "1.0.0"));
                   (js "manifest_version", JNumber 3%float)])
|}.

Definition old_file : jsstring := js "/w/_extensions/ext/old.txt".
Definition fallback_file : jsstring := js "/w/_extensions/ext/failed_extraction.zip".

Definition disk : gmap (list N) (list Byte.byte) :=
  {[ old_file := bytes_of [1; 2; 3]%N ]}.

Definition world : State := CRXExtractor.initial {| process_cwd := js "/w" |} disk.

(** A listing of one file of 1000 bytes for a three-byte archive: ratio
    above 100. *)
Definition bomb_env : Env :=
  env_of 16%float crx_v3 (Some (1000%float, 1%float)) (Sh_exit 0).

Definition broken_env : Env :=
  env_of 16%float (bytes_of [0; 0; 0; 0; 3; 0; 0; 0; 1; 0; 0; 0; 9; 9]%N)
         (Some (10%float, 1%float)) (Sh_exit 0).

Definition oversized_env : Env :=
  env_of (600 * 1024 * 1024)%float crx_v3 (Some (10%float, 1%float)) (Sh_exit 0).

(** 199 letters, a space, one more letter. *)
Definition long_name : jsstring := repeat 97%N 199 ++ js " b".

(** A machine without local files, on which the store answers every request
    with the version 3 container. *)
Definition online_env : Env := {|
  import_meta_dir := js "/opt/crx-util/src/utils";
  Date_now := 1700000000000%N;
  fetch := fun _ =>
    Fetch_response true (Some (js "application/x-chrome-extension")) (Body_bytes crx_v3);
  file_exists := fun _ => false;
  file_stat_size := fun _ => None;
  file_arrayBuffer := fun _ => None;
  mkdir_p_ok := fun _ => true;
  rm_rf_and_mkdir_p_ok := fun _ => true;
  rm_rf_ok := fun _ => true;
  write_ok := fun _ => true;
  unzip_l := fun _ => Some (10%float, 1%float);
  unzip := fun _ => (Sh_exit 0, [(js "manifest.json", bytes_of [123; 125]%N)]);
  json_parse := fun _ => None
|}.

(** An extension id. *)
Definition some_id : jsstring := js "nkbihfbeogaeaoehlefnkodbefgpgknn".

End Samples.

(** * Verification *)

(** ** Numbers *)

Lemma ltb_irrefl (x : number) : (x <? x)%float = false.
Proof.
  rewrite FloatAxioms.ltb_spec. unfold SFltb, SFcompare.
  destruct (Prim2SF x) as [s|s| |s m e]; try reflexivity.
  - destruct s; reflexivity.
  - destruct s; rewrite ?Z.compare_refl, ?Pos.compare_cont_refl; try reflexivity.
    all: rewrite Pos.compare_refl; reflexivity.
Qed.

Lemma ltb_nan_r (x : number) : (x <? nan)%float = false.
Proof.
  rewrite FloatAxioms.ltb_spec. unfold SFltb.
  replace (Prim2SF nan) with S754_nan by reflexivity.
  destruct (Prim2SF x) as [s|s| |s m e]; reflexivity.
Qed.

Lemma zero_div_zero : (0 / 0)%float = nan.
Proof. reflexivity. Qed.

(** ** Security inspection *)

Section CheckZipInfo.
Variable config : ExtractorConfig.
Variable info : ZipInfo.

Let ratio_exceeded : bool :=
  (maxExtractionRatio config <? uncompressedSize info / compressedSize info)%float.
Let count_exceeded : bool := (maxExtractedFiles config <? fileCount info)%float.
Let size_exceeded : bool := (maxExtractedSize config <? uncompressedSize info)%float.

Lemma checkZipInfo_ratio :
  CRXExtractor.checkZipInfo config info = Throws (SecurityError Suspicious_compression_ratio)
  <-> ratio_exceeded = true.
Proof.
  unfold CRXExtractor.checkZipInfo; fold ratio_exceeded count_exceeded size_exceeded.
  destruct ratio_exceeded, count_exceeded, size_exceeded; split; congruence.
Qed.

Lemma checkZipInfo_count :
  CRXExtractor.checkZipInfo config info = Throws (SecurityError Too_many_files_in_archive)
  <-> ratio_exceeded = false /\ count_exceeded = true.
Proof.
  unfold CRXExtractor.checkZipInfo; fold ratio_exceeded count_exceeded size_exceeded.
  destruct ratio_exceeded, count_exceeded, size_exceeded; split; intuition congruence.
Qed.

Lemma checkZipInfo_size :
  CRXExtractor.checkZipInfo config info = Throws (SecurityError Extracted_size_too_large)
  <-> ratio_exceeded = false /\ count_exceeded = false /\ size_exceeded = true.
Proof.
  unfold CRXExtractor.checkZipInfo; fold ratio_exceeded count_exceeded size_exceeded.
  destruct ratio_exceeded, count_exceeded, size_exceeded; split; intuition congruence.
Qed.

Lemma checkZipInfo_passes :
  CRXExtractor.checkZipInfo config info = Returns tt
  <-> ratio_exceeded = false /\ count_exceeded = false /\ size_exceeded = false.
Proof.
  unfold CRXExtractor.checkZipInfo; fold ratio_exceeded count_exceeded size_exceeded.
  destruct ratio_exceeded, count_exceeded, size_exceeded; split; intuition congruence.
Qed.
End CheckZipInfo.

(** C4: the gate checks the ratio, then the file count, then the uncompressed
    size, and the first ceiling that is exceeded names the error; a value equal
    to its ceiling does not exceed it.  With the default ceilings a summary of
    10000 files passes and one of 10001 files fails with the file-count
    error. *)
Theorem checkZipInfo_first_violation_wins :
  forall (config : ExtractorConfig) (info : ZipInfo),
    let ratio_exceeded :=
      (maxExtractionRatio config <? uncompressedSize info / compressedSize info)%float in
    let count_exceeded := (maxExtractedFiles config <? fileCount info)%float in
    let size_exceeded := (maxExtractedSize config <? uncompressedSize info)%float in
    (CRXExtractor.checkZipInfo config info = Throws (SecurityError Suspicious_compression_ratio)
     <-> ratio_exceeded = true)
    /\ (CRXExtractor.checkZipInfo config info = Throws (SecurityError Too_many_files_in_archive)
        <-> ratio_exceeded = false /\ count_exceeded = true)
    /\ (CRXExtractor.checkZipInfo config info = Throws (SecurityError Extracted_size_too_large)
        <-> ratio_exceeded = false /\ count_exceeded = false /\ size_exceeded = true)
    /\ (CRXExtractor.checkZipInfo config info = Returns tt
        <-> ratio_exceeded = false /\ count_exceeded = false /\ size_exceeded = false)
    /\ ((uncompressedSize info / compressedSize info)%float = maxExtractionRatio config ->
        ratio_exceeded = false)
    /\ (fileCount info = maxExtractedFiles config -> count_exceeded = false)
    /\ (uncompressedSize info = maxExtractedSize config -> size_exceeded = false)
    /\ (forall u c : number,
          (100 <? u / c)%float = false ->
          (1024 * 1024 * 1024 <? u)%float = false ->
          CRXExtractor.checkZipInfo DEFAULT_CONFIG
            {| fileCount := 10000; uncompressedSize := u; compressedSize := c |}
          = Returns tt)
    /\ (forall u c : number,
          (100 <? u / c)%float = false ->
          CRXExtractor.checkZipInfo DEFAULT_CONFIG
            {| fileCount := 10001; uncompressedSize := u; compressedSize := c |}
          = Throws (SecurityError Too_many_files_in_archive))
    /\ CRXExtractor.checkZipInfo DEFAULT_CONFIG
         {| fileCount := 10000; uncompressedSize := 1000; compressedSize := 100 |}
       = Returns tt
    /\ CRXExtractor.checkZipInfo DEFAULT_CONFIG
         {| fileCount := 10001; uncompressedSize := 1000; compressedSize := 100 |}
       = Throws (SecurityError Too_many_files_in_archive).
Proof.
  intros config info ratio_exceeded count_exceeded size_exceeded.
  split; [apply checkZipInfo_ratio|].
  split; [apply checkZipInfo_count|].
  split; [apply checkZipInfo_size|].
  split; [apply checkZipInfo_passes|].
  split; [intros E; unfold ratio_exceeded; rewrite E; apply ltb_irrefl|].
  split; [intros E; unfold count_exceeded; rewrite E; apply ltb_irrefl|].
  split; [intros E; unfold size_exceeded; rewrite E; apply ltb_irrefl|].
  split.
  { intros u c Hr Hs. apply checkZipInfo_passes; cbn [uncompressedSize compressedSize fileCount].
    split; [exact Hr | split; [reflexivity | exact Hs]]. }
  split.
  { intros u c Hr. apply checkZipInfo_count; cbn [uncompressedSize compressedSize fileCount].
    split; [exact Hr | reflexivity]. }
  split; reflexivity.
Qed.

Lemma checkZipInfo_first_violation_wins_witness :
  CRXExtractor.checkZipInfo DEFAULT_CONFIG
    {| fileCount := 10000; uncompressedSize := 5000; compressedSize := 100 |}
  = Returns tt
  /\ CRXExtractor.checkZipInfo DEFAULT_CONFIG
       {| fileCount := 10001; uncompressedSize := 5000; compressedSize := 100 |}
     = Throws (SecurityError Too_many_files_in_archive)
  /\ CRXExtractor.checkZipInfo DEFAULT_CONFIG
       {| fileCount := 10001; uncompressedSize := 50000; compressedSize := 100 |}
     = Throws (SecurityError Suspicious_compression_ratio).
Proof.
  destruct (checkZipInfo_first_violation_wins DEFAULT_CONFIG
              {| fileCount := 10001; uncompressedSize := 50000; compressedSize := 100 |})
    as (Hratio & _ & _ & _ & _ & _ & _ & Hpass & Hcount & _).
  split; [apply Hpass; reflexivity|].
  split; [apply Hcount; reflexivity|].
  apply Hratio. reflexivity.
Defined.

(** C10: the ratio error is raised exactly when the quotient of the two sizes,
    divided as the program divides them, exceeds the ceiling.  Nothing guards a
    zero compressed size: zero over zero is not a number and exceeds no
    ceiling, so such a summary is never rejected for its ratio, while a
    positive size over zero is infinite and is rejected. *)
Theorem ratio_check_divides_unguarded :
  forall (config : ExtractorConfig) (info : ZipInfo),
    (CRXExtractor.checkZipInfo config info = Throws (SecurityError Suspicious_compression_ratio)
     <-> (maxExtractionRatio config <? uncompressedSize info / compressedSize info)%float = true)
    /\ (forall n : number,
          CRXExtractor.checkZipInfo config
            {| fileCount := n; uncompressedSize := 0; compressedSize := 0 |}
          <> Throws (SecurityError Suspicious_compression_ratio))
    /\ CRXExtractor.checkZipInfo DEFAULT_CONFIG
         {| fileCount := 1; uncompressedSize := 0; compressedSize := 0 |}
       = Returns tt
    /\ CRXExtractor.checkZipInfo DEFAULT_CONFIG
         {| fileCount := 1; uncompressedSize := 5; compressedSize := 0 |}
       = Throws (SecurityError Suspicious_compression_ratio).
Proof.
  intros config info.
  split; [apply checkZipInfo_ratio|].
  split.
  { intros n H. apply checkZipInfo_ratio in H.
    cbn [uncompressedSize compressedSize] in H.
    rewrite zero_div_zero, ltb_nan_r in H. discriminate. }
  split; reflexivity.
Qed.

(** ** The bounded scan of [PathUtils.join] *)

Lemma skip_non_slash_length (s : jsstring) :
  length (PathUtils.skip_non_slash s) <= length s.
Proof.
  induction s as [|c s IH]; [reflexivity|].
  cbn [PathUtils.skip_non_slash]. destruct (is_slash c); cbn [length]; lia.
Qed.

Lemma match_segment_dotdot_shorter (s after : jsstring) :
  PathUtils.match_segment_dotdot s = Some after -> length after < length s.
Proof.
  unfold PathUtils.match_segment_dotdot. destruct s as [|c s]; [discriminate|].
  destruct (is_slash c); [discriminate|].
  pose proof (skip_non_slash_length (c :: s)) as Hlen.
  destruct (PathUtils.skip_non_slash (c :: s)) as [|c1 [|c2 [|c3 [|c4 rest]]]];
    try discriminate.
  destruct (_ && _); [|discriminate].
  intros [= <-]. cbn [length] in Hlen |- *. lia.
Qed.

(** The length of the string is fuel enough: more fuel changes nothing. *)
Lemma remove_segment_dotdot_fuel (fuel fuel' : nat) (s : jsstring) :
  length s <= fuel -> length s <= fuel' ->
  PathUtils.remove_segment_dotdot_aux fuel s = PathUtils.remove_segment_dotdot_aux fuel' s.
Proof.
  revert fuel' s. induction fuel as [|fuel IH]; intros fuel' s H H'.
  - destruct s; [|cbn in H; lia]. destruct fuel'; reflexivity.
  - destruct fuel' as [|fuel'].
    + destruct s; [reflexivity | cbn in H'; lia].
    + cbn [PathUtils.remove_segment_dotdot_aux]. destruct s as [|c rest]; [reflexivity|].
      destruct (PathUtils.match_segment_dotdot (c :: rest)) as [after|] eqn:E.
      * apply match_segment_dotdot_shorter in E. cbn [length] in *. apply IH; lia.
      * f_equal. cbn [length] in *. apply IH; lia.
Qed.

(** ** Path validation *)

(** The validator's decision on the path it resolved. *)
Lemma validatePath_decision import_meta_dir v path baseDir proc n :
  PathValidator.validatePath import_meta_dir v path baseDir proc = Returns n
  <-> n = PathUtils.normalize (PathValidator.resolved import_meta_dir v path baseDir)
      /\ exists r, In r (PathValidator.resolvedAllowedPaths v)
                   /\ PathValidator.within n r = true.
Proof.
  unfold PathValidator.validatePath.
  destruct (existsb _ _) eqn:E; cbn [negb]; split.
  - intros [= <-]. split; [reflexivity|].
    apply existsb_exists in E. exact E.
  - intros [-> _]. reflexivity.
  - discriminate.
  - intros [-> H]. apply existsb_exists in H. congruence.
Qed.

Lemma validatePath_failure import_meta_dir v path baseDir proc e :
  PathValidator.validatePath import_meta_dir v path baseDir proc = Throws e ->
  e = SecurityError (Path_resolves_outside_allowed_directories path).
Proof.
  unfold PathValidator.validatePath.
  destruct (negb _); congruence.
Qed.

(** C9: the outcome of a validation is fixed by the validator (its root list
    and the working directory it stored when it was built) and the arguments;
    the state of the process at the time of the call plays no part, so two
    calls agree whatever the working directory is at each.  The same holds for
    the extractor's calls, which pass the process of the current world. *)
Theorem validatePath_ignores_current_process :
  forall (import_meta_dir : jsstring) (allowedPaths : list jsstring)
         (at_construction first_call second_call : Process)
         (path : jsstring) (baseDir : option jsstring),
    let v := PathValidator.new allowedPaths at_construction in
    PathValidator.workingDirectory v = process_cwd at_construction
    /\ PathValidator.validatePath import_meta_dir v path baseDir first_call
       = PathValidator.validatePath import_meta_dir v path baseDir second_call
    /\ (forall (env : Env) (s1 s2 : State),
          fst (CRXExtractor.validatePath env v path s1)
          = fst (CRXExtractor.validatePath env v path s2)).
Proof.
  intros. repeat split.
Qed.

(** The stored working directory does matter: validators built in different
    directories disagree on the same candidate. *)
Lemma validatePath_depends_on_snapshot :
  let there := {| process_cwd := js "/elsewhere" |} in
  PathValidator.validatePath [] (PathValidator.new [[DOT]] {| process_cwd := js "/w" |})
    (js "/w/out") None there
  = Returns (js "/w/out")
  /\ PathValidator.validatePath [] (PathValidator.new [[DOT]] there) (js "/w/out") None there
     = Throws (SecurityError (Path_resolves_outside_allowed_directories (js "/w/out"))).
Proof. split; reflexivity. Qed.

(** ** Running the monad *)

Lemma bind_returns_inv {A B} (m : M A) (k : A -> M B) (s s' : State) (b : B) :
  bind m k s = (Returns b, s') ->
  exists a s1, m s = (Returns a, s1) /\ k a s1 = (Returns b, s').
Proof.
  unfold bind. destruct (m s) as [[a|e] s1]; [eauto | discriminate].
Qed.

Lemma bind_run_returns {A B} (m : M A) (k : A -> M B) (s s1 : State) (a : A) :
  m s = (Returns a, s1) -> bind m k s = k a s1.
Proof. unfold bind. intros ->. reflexivity. Qed.

Lemma bind_run_throws {A B} (m : M A) (k : A -> M B) (s s1 : State) (e : exn) :
  m s = (Throws e, s1) -> bind m k s = (Throws e, s1).
Proof. unfold bind. intros ->. reflexivity. Qed.

(** ** The container header *)

Lemma readUInt32LE_run (s : State) (buf : bytes) :
  buffer s = Some buf ->
  CRXExtractor.readUInt32LE s
  = match CRXExtractor.readUInt32LEAt buf (offset s) with
    | Returns value => (Returns value, set_offset (offset s + 4) s)
    | Throws e => (Throws e, s)
    end.
Proof.
  intros Hbuf. unfold CRXExtractor.readUInt32LE, bind, get, lift, modify, ret.
  rewrite Hbuf. destruct (CRXExtractor.readUInt32LEAt buf (offset s)); reflexivity.
Qed.

Lemma logger_debug_returns level message data (s : State) :
  exists s', Logger.debug level message data s = (Returns tt, s')
             /\ buffer s' = buffer s /\ offset s' = offset s
             /\ extensionInfo s' = extensionInfo s /\ files s' = files s.
Proof.
  unfold Logger.debug. destruct (Logger.shouldLog level DEBUG); [|by eexists].
  destruct data; eexists; (split; [reflexivity|]); repeat split.
Qed.

(** C5: on every buffer the parser accepts, a version 3 header gives the
    payload offset 12 plus the 32-bit header size read at byte 8, a version 2
    header gives 16 plus the two 32-bit lengths read at bytes 8 and 12, and
    the offset lies strictly inside the buffer. *)
Theorem parseHeader_payload_offset :
  forall (config : ExtractorConfig) (s s' : State) (buf : bytes) (header : CRXHeader),
    buffer s = Some buf ->
    CRXExtractor.parseHeader config s = (Returns header, s') ->
    CRXExtractor.readUInt32LEAt buf 0 = Returns CRX_MAGIC
    /\ CRXExtractor.readUInt32LEAt buf 4 = Returns (version header)
    /\ ((version header = 3%Z
         /\ exists headerSize,
              CRXExtractor.readUInt32LEAt buf 8 = Returns headerSize
              /\ zipOffset header = (12 + headerSize)%Z)
        \/ (version header = 2%Z
            /\ exists publicKeyLength signatureLength,
                 CRXExtractor.readUInt32LEAt buf 8 = Returns publicKeyLength
                 /\ CRXExtractor.readUInt32LEAt buf 12 = Returns signatureLength
                 /\ zipOffset header = (16 + publicKeyLength + signatureLength)%Z))
    /\ (zipOffset header < Z.of_nat (length buf))%Z.
Proof.
  intros config s s' buf header Hbuf H.
  unfold CRXExtractor.parseHeader in H.
  apply bind_returns_inv in H as (b & s0 & Hget & H).
  injection Hget as <- <-. rewrite Hbuf in H.
  apply bind_returns_inv in H as ([] & s1 & Hmod & H). injection Hmod as <-.
  apply bind_returns_inv in H as (magic & s2 & Hmagic & H).
  rewrite (readUInt32LE_run _ buf) in Hmagic by exact Hbuf. cbn [offset set_offset] in Hmagic.
  destruct (CRXExtractor.readUInt32LEAt buf 0) as [magic'|] eqn:Emagic; [|discriminate].
  injection Hmagic as -> <-.
  destruct (Z.eqb magic CRX_MAGIC) eqn:Eeq; cbn [negb] in H; [|discriminate].
  apply Z.eqb_eq in Eeq; subst magic.
  apply bind_returns_inv in H as (ver & s3 & Hver & H).
  rewrite (readUInt32LE_run _ buf) in Hver by exact Hbuf. cbn [offset set_offset] in Hver.
  change (0 + 4)%Z with 4%Z in Hver.
  destruct (CRXExtractor.readUInt32LEAt buf 4) as [ver'|] eqn:Ever; [|discriminate].
  injection Hver as -> <-.
  apply bind_returns_inv in H as (zo & s4 & Hzo & H).
  destruct (Z.leb (Z.of_nat (length buf)) zo) eqn:Hle; [discriminate|].
  apply Z.leb_gt in Hle.
  apply bind_returns_inv in H as ([] & s5 & _ & H). injection H as <- _.
  cbn [version zipOffset].
  split; [reflexivity|]. split; [reflexivity|]. split; [|exact Hle].
  destruct (Z.eqb ver CRX_VERSION_2) eqn:E2; [|destruct (Z.eqb ver CRX_VERSION_3) eqn:E3].
  - apply Z.eqb_eq in E2; subst ver. right. split; [reflexivity|].
    apply bind_returns_inv in Hzo as (pk & s6 & Hpk & Hzo).
    rewrite (readUInt32LE_run _ buf) in Hpk by exact Hbuf. cbn [offset set_offset] in Hpk.
    change (4 + 4)%Z with 8%Z in Hpk.
    destruct (CRXExtractor.readUInt32LEAt buf 8) as [pk'|] eqn:Epk; [|discriminate].
    injection Hpk as -> <-.
    apply bind_returns_inv in Hzo as (sg & s7 & Hsg & Hzo).
    rewrite (readUInt32LE_run _ buf) in Hsg by exact Hbuf. cbn [offset set_offset] in Hsg.
    change (8 + 4)%Z with 12%Z in Hsg.
    destruct (CRXExtractor.readUInt32LEAt buf 12) as [sg'|] eqn:Esg; [|discriminate].
    injection Hsg as -> <-.
    apply bind_returns_inv in Hzo as (off & s8 & Hoff & Hzo).
    injection Hoff as <- <-. injection Hzo as <- _. cbn [offset set_offset].
    exists pk, sg. split; [reflexivity|]. split; reflexivity.
  - apply Z.eqb_eq in E3; subst ver. left. split; [reflexivity|].
    apply bind_returns_inv in Hzo as (hs & s6 & Hhs & Hzo).
    rewrite (readUInt32LE_run _ buf) in Hhs by exact Hbuf. cbn [offset set_offset] in Hhs.
    change (4 + 4)%Z with 8%Z in Hhs.
    destruct (CRXExtractor.readUInt32LEAt buf 8) as [hs'|] eqn:Ehs; [|discriminate].
    injection Hhs as -> <-.
    apply bind_returns_inv in Hzo as (off & s7 & Hoff & Hzo).
    injection Hoff as <- <-. injection Hzo as <- _. cbn [offset set_offset].
    exists hs. split; reflexivity.
  - discriminate.
Qed.

Lemma parseHeader_payload_offset_witness :
  let s3 := set_buffer (Some Samples.crx_v3) Samples.world in
  let s2 := set_buffer (Some Samples.crx_v2) Samples.world in
  (CRXExtractor.readUInt32LEAt Samples.crx_v3 0 = Returns CRX_MAGIC
   /\ CRXExtractor.readUInt32LEAt Samples.crx_v3 4 = Returns 3%Z
   /\ ((3 = 3
        /\ exists headerSize,
             CRXExtractor.readUInt32LEAt Samples.crx_v3 8 = Returns headerSize
             /\ 13 = 12 + headerSize)%Z
       \/ (3 = 2
           /\ exists publicKeyLength signatureLength,
                CRXExtractor.readUInt32LEAt Samples.crx_v3 8 = Returns publicKeyLength
                /\ CRXExtractor.readUInt32LEAt Samples.crx_v3 12 = Returns signatureLength
                /\ 13 = 16 + publicKeyLength + signatureLength)%Z)
   /\ (13 < Z.of_nat (length Samples.crx_v3))%Z)
  /\ CRXExtractor.parseHeader DEFAULT_CONFIG s2
     = (Returns {| version := 2; zipOffset := 19 |}, set_offset 16 s2).
Proof.
  intros s3 s2. split.
  - exact (parseHeader_payload_offset DEFAULT_CONFIG s3 (set_offset 12 s3) Samples.crx_v3
             {| version := 3; zipOffset := 13 |} eq_refl eq_refl).
  - reflexivity.
Defined.

(** ** Name sanitizing *)

Lemma legal_UNDERSCORE : legal UNDERSCORE.
Proof. reflexivity. Qed.

Lemma replace_illegal_legal (s : jsstring) : Forall legal (PathValidator.replace_illegal s).
Proof.
  unfold PathValidator.replace_illegal.
  induction s as [|c s IH]; cbn [map]; constructor; [|exact IH].
  destruct (PathValidator.is_illegal c) eqn:E; [apply legal_UNDERSCORE | exact E].
Qed.

Lemma replace_illegal_fixed (s : jsstring) :
  Forall legal s -> PathValidator.replace_illegal s = s.
Proof.
  unfold PathValidator.replace_illegal.
  induction 1 as [|c s Hc _ IH]; [reflexivity|].
  cbn [map]. rewrite Hc, IH. reflexivity.
Qed.

Lemma replace_dot_runs_aux_Forall (P : N -> Prop) (in_run : bool) (s : jsstring) :
  P UNDERSCORE -> Forall P s -> Forall P (PathValidator.replace_dot_runs_aux in_run s).
Proof.
  intros HU H. revert in_run.
  induction H as [|c s Hc Hs IH]; intros in_run; cbn [PathValidator.replace_dot_runs_aux].
  - constructor.
  - destruct (is_dot c); [destruct in_run|].
    + apply IH.
    + destruct s as [|d s'].
      * constructor; [exact Hc | constructor].
      * destruct (is_dot d); constructor; auto.
    + constructor; auto.
Qed.

Lemma no_dot_run_cons (c : N) (s : jsstring) :
  is_dot c = false -> no_dot_run s = true -> no_dot_run (c :: s) = true.
Proof.
  intros Hc Hs. cbn [no_dot_run]. destruct s as [|d s']; [reflexivity|].
  rewrite Hc. exact Hs.
Qed.

Lemma no_dot_run_tail (c : N) (s : jsstring) :
  no_dot_run (c :: s) = true -> no_dot_run s = true.
Proof.
  cbn [no_dot_run]. destruct s as [|d s']; [reflexivity|].
  intros H. apply andb_true_iff in H as [_ H]. exact H.
Qed.

Lemma replace_dot_runs_aux_no_dot_run (in_run : bool) (s : jsstring) :
  no_dot_run (PathValidator.replace_dot_runs_aux in_run s) = true.
Proof.
  revert in_run. induction s as [|c s IH]; intros in_run; [reflexivity|].
  cbn [PathValidator.replace_dot_runs_aux].
  destruct (is_dot c) eqn:Ec; [destruct in_run|].
  - apply IH.
  - destruct s as [|d s']; [reflexivity|].
    destruct (is_dot d) eqn:Ed.
    + apply no_dot_run_cons; [reflexivity | apply IH].
    + specialize (IH false). cbn [PathValidator.replace_dot_runs_aux] in IH |- *.
      rewrite Ed in IH |- *.
      change (no_dot_run (c :: d :: PathValidator.replace_dot_runs_aux false s') = true).
      apply no_dot_run_tail in IH as Ht.
      cbn [no_dot_run] in IH |- *. rewrite Ed, andb_false_r. cbn [negb andb].
      rewrite Ed in IH. exact IH.
  - apply no_dot_run_cons; [exact Ec | apply IH].
Qed.

Lemma replace_dot_runs_fixed (s : jsstring) :
  no_dot_run s = true -> PathValidator.replace_dot_runs s = s.
Proof.
  unfold PathValidator.replace_dot_runs.
  induction s as [|c s IH]; [reflexivity|]. intros H.
  cbn [PathValidator.replace_dot_runs_aux].
  pose proof (no_dot_run_tail _ _ H) as Ht.
  destruct (is_dot c) eqn:Ec.
  - destruct s as [|d s']; [reflexivity|].
    cbn [no_dot_run] in H. rewrite Ec in H. cbn [andb] in H.
    destruct (is_dot d); [discriminate|].
    rewrite IH by exact Ht. reflexivity.
  - rewrite IH by exact Ht. reflexivity.
Qed.

Lemma no_dot_run_app_l (a b : jsstring) :
  no_dot_run (a ++ b) = true -> no_dot_run a = true.
Proof.
  induction a as [|c a IH]; [reflexivity|].
  intros H. pose proof (no_dot_run_tail _ _ H) as Ht. specialize (IH Ht).
  destruct a as [|d a']; [reflexivity|].
  cbn [no_dot_run app] in H |- *.
  apply andb_true_iff in H as [H _]. rewrite H. exact IH.
Qed.

(** *** Trimming *)

Lemma drop_while_suffix {A} (f : A -> bool) (l : list A) :
  exists dropped, l = dropped ++ drop_while f l.
Proof.
  induction l as [|x l [d IH]]; [by exists []|].
  cbn [drop_while]. destruct (f x).
  - exists (x :: d). cbn [app]. by rewrite <- IH.
  - by exists [].
Qed.

Lemma drop_while_head {A} (f : A -> bool) (l : list A) (x : A) (rest : list A) :
  drop_while f l = x :: rest -> f x = false.
Proof.
  induction l as [|y l IH]; [discriminate|].
  cbn [drop_while]. destruct (f y) eqn:E; [exact IH|].
  intros [= <- _]. exact E.
Qed.

Lemma drop_while_fixed {A} (f : A -> bool) (x : A) (rest : list A) :
  f x = false -> drop_while f (x :: rest) = x :: rest.
Proof. intros E. cbn [drop_while]. rewrite E. reflexivity. Qed.

Lemma trim_end_prefix (s : jsstring) : exists dropped, s = trim_end s ++ dropped.
Proof.
  induction s as [|c s [d IH]]; [by exists []|].
  cbn [trim_end]. destruct (trim_end s) as [|k ks].
  - destruct (is_js_whitespace c).
    + exists (c :: s). reflexivity.
    + exists s. cbn [app] in IH |- *. reflexivity.
  - exists d. cbn [app] in IH |- *. by rewrite <- IH.
Qed.

Lemma trim_end_head (s : jsstring) (c : N) (rest : jsstring) :
  trim_end s = c :: rest -> exists rest', s = c :: rest'.
Proof.
  destruct s as [|x s]; [discriminate|].
  cbn [trim_end]. destruct (trim_end s).
  - destruct (is_js_whitespace x); [discriminate|]. intros [= <- _]. eauto.
  - intros [= <- _]. eauto.
Qed.

Lemma trim_end_ends (s : jsstring) : ends_with_whitespace (trim_end s) = false.
Proof.
  induction s as [|c s IH]; [reflexivity|].
  cbn [trim_end]. destruct (trim_end s) as [|k ks].
  - destruct (is_js_whitespace c) eqn:E; [reflexivity | exact E].
  - exact IH.
Qed.

Lemma trim_end_fixed (s : jsstring) :
  ends_with_whitespace s = false -> trim_end s = s.
Proof.
  induction s as [|c s IH]; [reflexivity|].
  destruct s as [|d s'].
  - cbn. intros ->. reflexivity.
  - intros H. change (ends_with_whitespace (d :: s') = false) in H.
    specialize (IH H). cbn [trim_end] in IH |- *. rewrite IH. reflexivity.
Qed.

Lemma trim_head (s : jsstring) (c : N) (rest : jsstring) :
  trim s = c :: rest -> is_js_whitespace c = false.
Proof.
  unfold trim, trim_start. intros H.
  apply trim_end_head in H as [rest' H].
  exact (drop_while_head _ _ _ _ H).
Qed.

Lemma trim_fixed (s : jsstring) (c : N) (rest : jsstring) :
  s = c :: rest -> is_js_whitespace c = false -> ends_with_whitespace s = false ->
  trim s = s.
Proof.
  intros -> Hc He. unfold trim, trim_start.
  rewrite drop_while_fixed by exact Hc. apply trim_end_fixed, He.
Qed.

Lemma trim_ends (s : jsstring) : ends_with_whitespace (trim s) = false.
Proof. apply trim_end_ends. Qed.

Lemma trim_sublist (s : jsstring) : exists before after, s = before ++ trim s ++ after.
Proof.
  unfold trim, trim_start.
  destruct (drop_while_suffix is_js_whitespace s) as [b Hb].
  destruct (trim_end_prefix (drop_while is_js_whitespace s)) as [a Ha].
  exists b, a. rewrite <- Ha. exact Hb.
Qed.

Lemma no_dot_run_app_r (a b : jsstring) :
  no_dot_run (a ++ b) = true -> no_dot_run b = true.
Proof.
  induction a as [|c a IH]; [trivial|].
  intros H. apply IH. exact (no_dot_run_tail _ _ H).
Qed.

(** What [sanitizeFilename] has before it truncates. *)
Lemma cleaned_clean (x : jsstring) :
  let t := trim (PathValidator.replace_dot_runs (PathValidator.replace_illegal x)) in
  Forall legal t /\ no_dot_run t = true.
Proof.
  intros t. subst t.
  set (w := PathValidator.replace_dot_runs (PathValidator.replace_illegal x)).
  assert (Hw : Forall legal w /\ no_dot_run w = true).
  { split.
    - apply replace_dot_runs_aux_Forall; [apply legal_UNDERSCORE | apply replace_illegal_legal].
    - apply replace_dot_runs_aux_no_dot_run. }
  destruct Hw as [Hl Hd].
  destruct (trim_sublist w) as (b & a & E).
  rewrite E in Hl, Hd.
  apply Forall_app in Hl as [_ Hl]. apply Forall_app in Hl as [Hl _].
  apply no_dot_run_app_r, no_dot_run_app_l in Hd.
  split; assumption.
Qed.

(** A name that is already clean, trimmed and short comes back unchanged. *)
Lemma sanitizeFilename_fixed (t : jsstring) (c : N) (rest : jsstring) :
  t = c :: rest ->
  Forall legal t -> no_dot_run t = true ->
  is_js_whitespace c = false -> ends_with_whitespace t = false ->
  length t <= 200 ->
  PathValidator.sanitizeFilename t = t.
Proof.
  intros E Hl Hd Hc He Hn. unfold PathValidator.sanitizeFilename.
  rewrite (replace_illegal_fixed t Hl), (replace_dot_runs_fixed t Hd).
  rewrite (trim_fixed t c rest E Hc He).
  destruct (Nat.ltb_spec 200 (length t)) as [Hgt|_]; [lia|].
  rewrite E. reflexivity.
Qed.

Lemma sanitizeFilename_unnamed :
  PathValidator.sanitizeFilename (js "unnamed") = js "unnamed".
Proof. reflexivity. Qed.

Lemma legal_spec (c : N) :
  legal c -> c <> SLASH /\ c <> BACKSLASH /\ (31 < c)%N.
Proof.
  unfold legal, PathValidator.is_illegal. intros H.
  repeat (apply orb_false_iff in H as [H ?]).
  repeat split.
  - intros ->. discriminate.
  - intros ->. discriminate.
  - apply N.leb_gt. assumption.
Qed.

(** C6, as the program has it: the result is never empty, never longer than
    200 characters, and free of slash, backslash and the code units 0x00 to
    0x1f; sanitizing it again changes nothing unless truncation left white
    space at its end. *)
Theorem sanitizeFilename_properties :
  forall x : jsstring,
    let y := PathValidator.sanitizeFilename x in
    y <> []
    /\ length y <= 200
    /\ Forall (fun c => c <> SLASH /\ c <> BACKSLASH /\ (31 < c)%N) y
    /\ (ends_with_whitespace y = false -> PathValidator.sanitizeFilename y = y)
    /\ (length (trim (PathValidator.replace_dot_runs (PathValidator.replace_illegal x))) <= 200 ->
        PathValidator.sanitizeFilename y = y).
Proof.
  intros x y.
  destruct (cleaned_clean x) as [Hl Hd].
  pose proof (trim_ends (PathValidator.replace_dot_runs (PathValidator.replace_illegal x)))
    as He.
  pose proof (trim_head (PathValidator.replace_dot_runs (PathValidator.replace_illegal x)))
    as Hhead.
  assert (Ey : y = match (if Nat.ltb 200
                               (length (trim (PathValidator.replace_dot_runs
                                                (PathValidator.replace_illegal x))))
                          then take 200 (trim (PathValidator.replace_dot_runs
                                                 (PathValidator.replace_illegal x)))
                          else trim (PathValidator.replace_dot_runs
                                       (PathValidator.replace_illegal x)))
                   with
                   | [] => js "unnamed"
                   | c :: r => c :: r
                   end).
  { subst y. unfold PathValidator.sanitizeFilename.
    destruct (if Nat.ltb 200 _ then _ else _); reflexivity. }
  clearbody y.
  set (t := trim (PathValidator.replace_dot_runs (PathValidator.replace_illegal x))) in *.
  destruct (Nat.ltb_spec 200 (length t)) as [Hgt|Hle].
  - (* truncated *)
    destruct t as [|c rest]; [cbn in Hgt; lia|].
    assert (Etake : take 200 (c :: rest) = c :: take 199 rest) by reflexivity.
    assert (Hlen : length (take 200 (c :: rest)) = 200).
    { rewrite length_take. cbn [length] in Hgt |- *. lia. }
    assert (Hl' : Forall legal (take 200 (c :: rest))) by (apply Forall_take; exact Hl).
    assert (Hd' : no_dot_run (take 200 (c :: rest)) = true).
    { apply (no_dot_run_app_l _ (drop 200 (c :: rest))). rewrite take_drop. exact Hd. }
    rewrite Etake in *. subst y.
    split; [discriminate|]. split; [lia|].
    split; [eapply Forall_impl; [exact Hl' | exact legal_spec]|].
    split.
    + intros Hends.
      apply (sanitizeFilename_fixed _ c (take 199 rest)); auto; [eapply Hhead; reflexivity | lia].
    + intros Hshort. lia.
  - destruct t as [|c rest]; subst y.
    + split; [discriminate|]. split; [cbn; lia|].
      split; [|split; intros _; reflexivity].
      repeat constructor; discriminate.
    + split; [discriminate|]. split; [exact Hle|].
      split; [eapply Forall_impl; [exact Hl | exact legal_spec]|].
      split; intros _;
        apply (sanitizeFilename_fixed _ c rest); auto; eapply Hhead; reflexivity.
Qed.

Lemma sanitizeFilename_properties_witness :
  PathValidator.sanitizeFilename (js "  my: file...txt ") = js "my_ file_txt"
  /\ PathValidator.sanitizeFilename (PathValidator.sanitizeFilename (js "  my: file...txt "))
     = PathValidator.sanitizeFilename (js "  my: file...txt ").
Proof.
  split; [reflexivity|].
  destruct (sanitizeFilename_properties (js "  my: file...txt ")) as (_ & _ & _ & Hidem & _).
  apply Hidem. reflexivity.
Defined.

(** C6 as stated fails: a name of 199 letters, a space and one more letter is
    cut after the space, and sanitizing the result again trims that space. *)
Lemma sanitizeFilename_not_idempotent :
  PathValidator.sanitizeFilename Samples.long_name = repeat 97%N 199 ++ js " "
  /\ PathValidator.sanitizeFilename (PathValidator.sanitizeFilename Samples.long_name)
     = repeat 97%N 199
  /\ PathValidator.sanitizeFilename (PathValidator.sanitizeFilename Samples.long_name)
     <> PathValidator.sanitizeFilename Samples.long_name.
Proof.
  assert (E1 : PathValidator.sanitizeFilename Samples.long_name = repeat 97%N 199 ++ js " ")
    by (vm_compute; reflexivity).
  assert (E2 : PathValidator.sanitizeFilename (repeat 97%N 199 ++ js " ") = repeat 97%N 199)
    by (vm_compute; reflexivity).
  rewrite E1, E2. split; [reflexivity|]. split; [reflexivity|].
  intros E. apply (f_equal length) in E. vm_compute in E. discriminate.
Qed.

(** The class replaced by [sanitizeFilename] stops at 0x1f: the control
    character DEL (0x7f) is kept, although tests/validators/path.test.ts
    expects it to become an underscore. *)
Lemma sanitizeFilename_keeps_DEL :
  PathValidator.sanitizeFilename (js "file" ++ [0%N; 31%N; DEL] ++ js ".txt")
  = js "file__" ++ [DEL] ++ js ".txt".
Proof. reflexivity. Qed.

(** ** Frame rules for the monad *)

#[local] Instance extends_effects_preorder : PreOrder extends_effects.
Proof.
  split.
  - intros s. exists []. by rewrite app_nil_r.
  - intros a b c [k1 E1] [k2 E2]. exists (k1 ++ k2). by rewrite E2, E1, app_assoc.
Qed.

#[local] Instance same_files_preorder : PreOrder same_files.
Proof.
  split.
  - intros s. split; [reflexivity|]. exists []. split; [by rewrite app_nil_r | constructor].
  - intros a b c (F1 & k1 & E1 & Q1) (F2 & k2 & E2 & Q2). split; [congruence|].
    exists (k1 ++ k2). split; [by rewrite E2, E1, app_assoc | by apply Forall_app].
Qed.

#[local] Instance cleared_first_preorder : PreOrder cleared_first.
Proof.
  split.
  - intros s. exists [], []. split; [by rewrite !app_nil_r|]. split; [constructor|by left].
  - intros a b c (p1 & r1 & E1 & Q1 & H1) (p2 & r2 & E2 & Q2 & H2).
    destruct H1 as [[-> F1]|(d & r1' & ->)].
    + exists (p1 ++ p2), r2. rewrite app_nil_r in E1.
      split; [by rewrite E2, E1, !app_assoc|]. split; [by apply Forall_app|].
      destruct H2 as [[-> F2]|H2]; [left; split; [reflexivity | congruence] | by right].
    + exists p1, (Shell_rm_rf_and_mkdir_p d :: r1' ++ p2 ++ r2).
      split; [|split; [exact Q1 | right; eauto]].
      rewrite E2, E1. rewrite <- !app_assoc. reflexivity.
Qed.

Lemma same_files_weaken (s s' : State) : same_files s s' -> cleared_first s s'.
Proof.
  intros (F & k & E & Q). exists k, []. split; [by rewrite app_nil_r|].
  split; [exact Q | by left].
Qed.

Section Respects.
Context (R : relation State) `{!PreOrder R}.

Lemma respects_ret {A} (a : A) : respects R (ret a).
Proof. intros s. reflexivity. Qed.

Lemma respects_throw {A} (e : exn) : respects R (@throw A e).
Proof. intros s. reflexivity. Qed.

Lemma respects_lift {A} (r : result A) : respects R (lift r).
Proof. intros s. reflexivity. Qed.

Lemma respects_get {A} (f : State -> A) : respects R (get f).
Proof. intros s. reflexivity. Qed.

Lemma respects_modify (f : State -> State) :
  (forall s, R s (f s)) -> respects R (modify f).
Proof. intros H s. apply H. Qed.

Lemma respects_bind {A B} (m : M A) (k : A -> M B) :
  respects R m -> (forall a, respects R (k a)) -> respects R (bind m k).
Proof.
  intros Hm Hk s. unfold bind. specialize (Hm s).
  destruct (m s) as [[a|e] s1]; cbn [snd] in *; [|exact Hm].
  transitivity s1; [exact Hm | apply Hk].
Qed.

Lemma respects_try_catch {A} (body : M A) (handler : exn -> M A) :
  respects R body -> (forall e, respects R (handler e)) -> respects R (try_catch body handler).
Proof.
  intros Hb Hh s. unfold try_catch. specialize (Hb s).
  destruct (body s) as [[a|e] s1]; cbn [snd] in *; [exact Hb|].
  transitivity s1; [exact Hb | apply Hh].
Qed.

Lemma respects_try_finally {A} (body : M A) (cleanup : M unit) :
  respects R body -> respects R cleanup -> respects R (try_finally body cleanup).
Proof.
  intros Hb Hc s. unfold try_finally. specialize (Hb s).
  destruct (body s) as [r s1]; cbn [snd] in *. specialize (Hc s1).
  destruct (cleanup s1) as [[[]|e] s2]; cbn [snd] in *; by transitivity s1.
Qed.
End Respects.

Create HintDb respects.

(** Breaks a method body down to its primitive steps, by its syntax. *)
Ltac respects_step :=
  lazymatch goal with
  | |- respects _ (ret _) => refine (respects_ret _ _)
  | |- respects _ (throw _) => refine (respects_throw _ _)
  | |- respects _ (lift _) => refine (respects_lift _ _)
  | |- respects _ (get _) => refine (respects_get _ _)
  | |- respects _ (bind _ _) => refine (respects_bind _ _ _ _ _); [|intros ?; cbv beta]
  | |- respects _ (try_catch _ _) =>
      refine (respects_try_catch _ _ _ _ _); [|intros ?; cbv beta]
  | |- respects _ (try_finally _ _) => refine (respects_try_finally _ _ _ _ _)
  | |- respects _ (if ?b then _ else _) => destruct b
  | |- respects _ (match ?x with _ => _ end) => destruct x
  | |- respects _ _ => solve [auto with respects]
  end.

Ltac respects_steps := repeat respects_step.

(** *** Primitive steps *)

Lemma perform_extends (e : effect) : respects extends_effects (perform e).
Proof. intros s. by exists [e]. Qed.

Lemma perform_same_files (e : effect) :
  changes_files e = false -> respects same_files (perform e).
Proof.
  intros He s. split; [reflexivity|]. exists [e]. split; [reflexivity | by constructor].
Qed.

Lemma same_files_pure (f : State -> State) :
  (forall s, files (f s) = files s) -> (forall s, effects (f s) = effects s) ->
  respects same_files (modify f).
Proof.
  intros Hf He s. split; [apply Hf|]. exists [].
  split; [cbn; by rewrite He, app_nil_r | constructor].
Qed.

Lemma set_buffer_same_files b : respects same_files (modify (set_buffer b)).
Proof. by apply same_files_pure. Qed.

Lemma set_offset_same_files o : respects same_files (modify (set_offset o)).
Proof. by apply same_files_pure. Qed.

Lemma set_extensionInfo_same_files i : respects same_files (modify (set_extensionInfo i)).
Proof. by apply same_files_pure. Qed.

Lemma set_extensionInfo_fun_same_files (f : State -> ExtensionInfo) :
  respects same_files (modify (fun s => set_extensionInfo (f s) s)).
Proof. by apply same_files_pure. Qed.

Lemma set_files_extends (f : State -> gmap (list N) (list Byte.byte)) :
  respects extends_effects (modify (fun s => set_files (f s) s)).
Proof. intros s. exists []. cbn. by rewrite app_nil_r. Qed.

Lemma same_files_extends {A} (m : M A) : respects same_files m -> respects extends_effects m.
Proof. intros H s. destruct (H s) as (_ & k & E & _). by exists k. Qed.

Lemma same_files_cleared_first {A} (m : M A) :
  respects same_files m -> respects cleared_first m.
Proof. intros H s. apply same_files_weaken, H. Qed.

#[local] Hint Extern 1 (changes_files _ = false) => reflexivity : respects.

#[local] Hint Resolve perform_extends perform_same_files set_buffer_same_files
  set_offset_same_files set_extensionInfo_same_files set_extensionInfo_fun_same_files
  set_files_extends : respects.

(** *** The methods that leave the disk alone *)

Lemma Logger_debug_same_files level message data :
  respects same_files (Logger.debug level message data).
Proof. unfold Logger.debug. respects_steps. Qed.

Lemma Logger_info_same_files level message : respects same_files (Logger.info level message).
Proof. unfold Logger.info. respects_steps. Qed.

Lemma Logger_warn_same_files level message : respects same_files (Logger.warn level message).
Proof. unfold Logger.warn. respects_steps. Qed.

Lemma Logger_error_same_files level message : respects same_files (Logger.error level message).
Proof. unfold Logger.error. respects_steps. Qed.

Lemma logger_debug_same_files config message data :
  respects same_files (CRXExtractor.logger_debug config message data).
Proof. apply Logger_debug_same_files. Qed.

Lemma logger_info_same_files config message :
  respects same_files (CRXExtractor.logger_info config message).
Proof. apply Logger_info_same_files. Qed.

Lemma logger_warn_same_files config message :
  respects same_files (CRXExtractor.logger_warn config message).
Proof. apply Logger_warn_same_files. Qed.

Lemma logger_error_same_files config message :
  respects same_files (CRXExtractor.logger_error config message).
Proof. apply Logger_error_same_files. Qed.

#[local] Hint Resolve Logger_debug_same_files Logger_info_same_files Logger_warn_same_files
  Logger_error_same_files logger_debug_same_files logger_info_same_files
  logger_warn_same_files logger_error_same_files : respects.

Lemma findExtensionId_same_files input config :
  respects same_files (CRXExtractor.findExtensionId input config).
Proof. unfold CRXExtractor.findExtensionId. respects_steps. Qed.

Lemma downloadFromWebStore_same_files env config extensionId :
  respects same_files (CRXExtractor.downloadFromWebStore env config extensionId).
Proof. unfold CRXExtractor.downloadFromWebStore. respects_steps. Qed.

Lemma loadLocalFile_same_files env input config :
  respects same_files (CRXExtractor.loadLocalFile env input config).
Proof. unfold CRXExtractor.loadLocalFile. respects_steps. Qed.

#[local] Hint Resolve findExtensionId_same_files downloadFromWebStore_same_files
  loadLocalFile_same_files : respects.

Lemma loadInput_same_files env input config :
  respects same_files (CRXExtractor.loadInput env input config).
Proof. unfold CRXExtractor.loadInput. respects_steps. Qed.

Lemma readUInt32LE_same_files : respects same_files CRXExtractor.readUInt32LE.
Proof. unfold CRXExtractor.readUInt32LE. respects_steps. Qed.

#[local] Hint Resolve loadInput_same_files readUInt32LE_same_files : respects.

Lemma parseHeader_same_files config : respects same_files (CRXExtractor.parseHeader config).
Proof. unfold CRXExtractor.parseHeader. respects_steps. Qed.

Lemma validatePath_same_files env pathValidator path :
  respects same_files (CRXExtractor.validatePath env pathValidator path).
Proof. unfold CRXExtractor.validatePath. respects_steps. Qed.

Lemma sh_mkdir_p_same_files env path : respects same_files (CRXExtractor.sh_mkdir_p env path).
Proof. unfold CRXExtractor.sh_mkdir_p. respects_steps. Qed.

#[local] Hint Resolve parseHeader_same_files validatePath_same_files sh_mkdir_p_same_files
  : respects.

Lemma ensureDirectory_same_files env config pathValidator path :
  respects same_files (CRXExtractor.ensureDirectory env config pathValidator path).
Proof. unfold CRXExtractor.ensureDirectory. respects_steps. Qed.

#[local] Hint Resolve ensureDirectory_same_files : respects.

(** *** Every method only adds effects *)

#[local] Hint Resolve same_files_extends same_files_cleared_first : respects.

Lemma sh_rm_rf_and_mkdir_p_extends env path :
  respects extends_effects (CRXExtractor.sh_rm_rf_and_mkdir_p env path).
Proof. unfold CRXExtractor.sh_rm_rf_and_mkdir_p. respects_steps. Qed.

Lemma sh_rm_rf_extends env path : respects extends_effects (CRXExtractor.sh_rm_rf env path).
Proof. unfold CRXExtractor.sh_rm_rf. respects_steps. Qed.

Lemma sh_mv_extends tempDir outputDir :
  respects extends_effects (CRXExtractor.sh_mv tempDir outputDir).
Proof. unfold CRXExtractor.sh_mv. respects_steps. Qed.

Lemma Bun_write_file_extends env path data :
  respects extends_effects (CRXExtractor.Bun_write_file env path data).
Proof. unfold CRXExtractor.Bun_write_file. respects_steps. Qed.

Lemma sh_unzip_extends env zipPath dir :
  respects extends_effects (CRXExtractor.sh_unzip env zipPath dir).
Proof. unfold CRXExtractor.sh_unzip. respects_steps. Qed.

Lemma getZipInfo_extends env config zipPath :
  respects extends_effects (CRXExtractor.getZipInfo env config zipPath).
Proof. unfold CRXExtractor.getZipInfo. respects_steps. Qed.

#[local] Hint Resolve sh_rm_rf_and_mkdir_p_extends sh_rm_rf_extends sh_mv_extends
  Bun_write_file_extends sh_unzip_extends getZipInfo_extends : respects.

Lemma validateZipSecurity_extends env config zipPath :
  respects extends_effects (CRXExtractor.validateZipSecurity env config zipPath).
Proof. unfold CRXExtractor.validateZipSecurity. respects_steps. Qed.

#[local] Hint Resolve validateZipSecurity_extends : respects.

Lemma extractZip_extends env config pathValidator zipData outputDir :
  respects extends_effects
    (CRXExtractor.extractZip env config pathValidator zipData outputDir).
Proof. unfold CRXExtractor.extractZip. respects_steps. Qed.

Lemma readManifest_extends env config outputDir :
  respects extends_effects (CRXExtractor.readManifest env config outputDir).
Proof. unfold CRXExtractor.readManifest. respects_steps. Qed.

#[local] Hint Resolve extractZip_extends readManifest_extends : respects.

Lemma extract_extends env input config pathValidator outputDir :
  respects extends_effects (CRXExtractor.extract env input config pathValidator outputDir).
Proof. unfold CRXExtractor.extract. respects_steps. Qed.

(** ** Cleanup of the staging directory *)

Lemma try_finally_state {A} (body : M A) (cleanup : M unit) (s : State) :
  (try_finally body cleanup s).2 = (cleanup (body s).2).2.
Proof.
  unfold try_finally. destruct (body s) as [r s1]. cbn [snd].
  destruct (cleanup s1) as [[[]|e] s2]; reflexivity.
Qed.

(** The [finally] block of [extractZip], from any state. *)
Lemma cleanup_effects env config dir (s : State) :
  exists after,
    effects (try_catch (CRXExtractor.sh_rm_rf env dir)
               (fun _ => CRXExtractor.logger_warn config "Failed to clean up temp directory")
               s).2
    = effects s ++ Shell_rm_rf dir :: after
    /\ Forall (fun e => is_console e = true) after.
Proof.
  unfold try_catch, CRXExtractor.sh_rm_rf, bind, perform, modify, throw.
  cbn [fst snd]. destruct (rm_rf_ok env dir).
  - exists []. split; [reflexivity | constructor].
  - unfold CRXExtractor.logger_warn, Logger.warn.
    destruct (Logger.shouldLog (logLevel config) WARN).
    + exists [Console WARN "Failed to clean up temp directory"].
      split; [cbn; by rewrite <- app_assoc | by repeat constructor].
    + exists []. split; [reflexivity | constructor].
Qed.

(** C8: however [extractZip] ends (normally, or with an error from staging, the
    security gate, decompression or the fallback write), the command that
    deletes the temporary directory is among the effects it added, and nothing
    but a console warning follows it. *)
Theorem extractZip_always_attempts_cleanup :
  forall (env : Env) (config : ExtractorConfig) (pathValidator : PathValidator.t)
         (zipData : bytes) (outputDir : jsstring) (s : State),
    exists before after,
      effects (CRXExtractor.extractZip env config pathValidator zipData outputDir s).2
      = effects s ++ before ++ Shell_rm_rf (CRXExtractor.tempDir_of env outputDir) :: after
      /\ Forall (fun e => is_console e = true) after.
Proof.
  intros env config pathValidator zipData outputDir s.
  unfold CRXExtractor.extractZip. rewrite try_finally_state.
  lazymatch goal with
  | |- context [(try_catch ?cleanup ?warn (?body s).2)] =>
      assert (Hbody : respects extends_effects body) by respects_steps;
      destruct (Hbody s) as [before Hbefore];
      destruct (cleanup_effects env config (CRXExtractor.tempDir_of env outputDir) (body s).2)
        as (after & Hafter & Hconsole)
  end.
  exists before, after. split; [|exact Hconsole].
  rewrite Hafter, Hbefore. by rewrite <- app_assoc.
Qed.

(** ** Acquisition of a local file *)

(** C7: when the input names no extension and the file's stat size exceeds
    [maxFileSize], [extract] fails with a validation error: the one for an
    oversized file when the file exists and can be read, the one for a missing
    file otherwise.  The run consists of the start message, [loadInput] and
    the error message alone: the buffer, the read offset, the extension info
    and the disk are as before, and every effect is a console line. *)
Theorem oversized_local_file_is_rejected :
  forall (env : Env) (input : jsstring) (config : ExtractorConfig)
         (pathValidator : PathValidator.t) (outputDir : option jsstring) (s : State)
         (size : number),
    match_extension_id input = None ->
    file_stat_size env input = Some size ->
    (maxFileSize config <? size)%float = true ->
    let reason :=
      match file_exists env input, file_arrayBuffer env input with
      | true, Some _ => File_too_large
      | _, _ => File_not_found_or_inaccessible input
      end in
    exists s',
      CRXExtractor.extract env input config pathValidator outputDir s
      = (Throws (ValidationError reason), s')
      /\ CRXExtractor.extract env input config pathValidator outputDir s
         = (CRXExtractor.logger_info config "Starting CRX extraction" ;;
            try_catch (CRXExtractor.loadInput env input config)
              (fun error =>
                 CRXExtractor.logger_error config "Extraction failed" ;; throw error)) s
      /\ buffer s' = buffer s
      /\ offset s' = offset s
      /\ extensionInfo s' = extensionInfo s
      /\ files s' = files s
      /\ exists lines,
           effects s' = effects s ++ lines /\ Forall (fun e => is_console e = true) lines.
Proof.
  intros env input config pathValidator outputDir s size Hid Hst Hbig reason.
  subst reason.
  unfold CRXExtractor.extract, CRXExtractor.loadInput, CRXExtractor.findExtensionId,
    CRXExtractor.loadLocalFile, CRXExtractor.logger_info, CRXExtractor.logger_debug,
    CRXExtractor.logger_error, Logger.info, Logger.debug, Logger.error, Logger.shouldLog.
  rewrite Hid, Hst.
  destruct (file_exists env input), (file_arrayBuffer env input) as [data|];
    rewrite ?Hbig;
    destruct (logLevel config);
    cbn [level_value Nat.leb try_catch bind perform modify ret throw fst snd
         instanceof_CRXError];
    (eexists; split; [reflexivity|]; split; [reflexivity|]);
    cbn [buffer offset extensionInfo files effects add_effect];
    (split; [reflexivity|]); (split; [reflexivity|]); (split; [reflexivity|]);
    (split; [reflexivity|]);
    rewrite <- ?app_assoc; cbn [app];
    (eexists; split; [reflexivity | repeat constructor]).
Qed.

Lemma oversized_local_file_is_rejected_witness :
  exists s',
    CRXExtractor.extract Samples.oversized_env (js "big.crx") DEFAULT_CONFIG
      (PathValidator.new [[DOT]] {| process_cwd := js "/w" |}) None Samples.world
    = (Throws (ValidationError File_too_large), s')
    /\ buffer s' = None
    /\ files s' = Samples.disk.
Proof.
  destruct (oversized_local_file_is_rejected Samples.oversized_env (js "big.crx")
              DEFAULT_CONFIG (PathValidator.new [[DOT]] {| process_cwd := js "/w" |})
              None Samples.world (600 * 1024 * 1024)%float
              eq_refl eq_refl eq_refl)
    as (s' & Hrun & _ & Hbuffer & _ & _ & Hfiles & _).
  exists s'. split; [exact Hrun|]. split; [exact Hbuffer | exact Hfiles].
Defined.

(** ** When the output directory is cleared *)

Lemma logger_info_returns config message (s : State) :
  CRXExtractor.logger_info config message s
  = (Returns tt, (CRXExtractor.logger_info config message s).2).
Proof.
  unfold CRXExtractor.logger_info, Logger.info.
  destruct (Logger.shouldLog _ _); reflexivity.
Qed.

Lemma logger_error_returns config message (s : State) :
  CRXExtractor.logger_error config message s
  = (Returns tt, (CRXExtractor.logger_error config message s).2).
Proof.
  unfold CRXExtractor.logger_error, Logger.error.
  destruct (Logger.shouldLog _ _); [|reflexivity].
  destruct (logLevel config); reflexivity.
Qed.

Lemma try_catch_returns_inv {A} (body : M A) (handler : exn -> M A) (s s' : State) (a : A) :
  try_catch body handler s = (Returns a, s') ->
  body s = (Returns a, s')
  \/ exists e s1, body s = (Throws e, s1) /\ handler e s1 = (Returns a, s').
Proof.
  unfold try_catch. destruct (body s) as [[a0|e] s1]; [by left | right; eauto].
Qed.

(** A successful [loadInput] has stored a buffer. *)
Lemma loadInput_sets_buffer env input config (s s1 : State) :
  CRXExtractor.loadInput env input config s = (Returns tt, s1) ->
  exists loaded, buffer s1 = Some loaded.
Proof.
  unfold CRXExtractor.loadInput. intros H.
  apply bind_returns_inv in H as (extensionId & s0 & _ & H).
  destruct extensionId as [extensionId|].
  - apply bind_returns_inv in H as (downloaded & s2 & _ & H).
    injection H as <-. by exists downloaded.
  - unfold CRXExtractor.loadLocalFile in H.
    apply try_catch_returns_inv in H as [H|(e & s2 & _ & H)].
    + destruct (file_exists env input); [|discriminate].
      destruct (file_stat_size env input) as [size|]; [|discriminate].
      destruct (file_arrayBuffer env input) as [loaded|]; [|discriminate].
      apply bind_returns_inv in H as ([] & s2 & _ & H).
      destruct (maxFileSize config <? size)%float; [discriminate|].
      apply bind_returns_inv in H as ([] & s3 & H3 & H). injection H3 as <-.
      apply bind_returns_inv in H as ([] & s4 & H4 & H). injection H4 as <-.
      match type of H with
      | CRXExtractor.logger_debug ?c ?m ?d ?st = _ =>
          destruct (logger_debug_returns (logLevel c) m d st) as (s5 & H5 & Hb & _)
      end.
      unfold CRXExtractor.logger_debug in H. rewrite H5 in H. injection H as <-.
      exists loaded. rewrite Hb. reflexivity.
    + destruct (instanceof_CRXError e); discriminate.
Qed.

(** Clearing the output directory and then doing anything else. *)
Lemma clear_then {A} env dir (rest : M A) :
  respects extends_effects rest ->
  respects cleared_first
    (bind (CRXExtractor.sh_rm_rf_and_mkdir_p env dir) (fun _ => rest)).
Proof.
  intros Hrest s.
  unfold CRXExtractor.sh_rm_rf_and_mkdir_p, bind, perform, modify, throw.
  cbn [fst snd]. destruct (rm_rf_and_mkdir_p_ok env dir).
  - match goal with |- cleared_first _ (rest ?s1).2 => destruct (Hrest s1) as [k Hk] end.
    exists [], (Shell_rm_rf_and_mkdir_p dir :: k).
    split; [rewrite Hk; cbn; by rewrite <- app_assoc|].
    split; [constructor | right; eauto].
  - exists [], [Shell_rm_rf_and_mkdir_p dir].
    split; [reflexivity|]. split; [constructor | right; eauto].
Qed.

(** In every run of [extract] the command that clears the output directory
    is the first effect that changes files. *)
Lemma extract_cleared_first env input config pathValidator outputDir :
  respects cleared_first
    (CRXExtractor.extract env input config pathValidator outputDir).
Proof.
  unfold CRXExtractor.extract.
  repeat lazymatch goal with
    | |- respects _ (bind (CRXExtractor.sh_rm_rf_and_mkdir_p _ _) _) =>
        apply clear_then; respects_steps
    | |- _ => respects_step
    end.
Qed.

Lemma extract_fails_in_loadInput env input config pathValidator outputDir (s s1 : State) e :
  CRXExtractor.loadInput env input config
    (CRXExtractor.logger_info config "Starting CRX extraction" s).2 = (Throws e, s1) ->
  CRXExtractor.extract env input config pathValidator outputDir s
  = (Throws e, (CRXExtractor.logger_error config "Extraction failed" s1).2).
Proof.
  intros Hload. unfold CRXExtractor.extract.
  rewrite (bind_run_returns _ _ s _ tt (logger_info_returns config _ s)).
  unfold try_catch.
  rewrite (bind_run_throws _ _ _ _ _ Hload).
  rewrite (bind_run_returns _ _ s1 _ tt (logger_error_returns config _ s1)).
  reflexivity.
Qed.

Lemma extract_fails_in_parseHeader env input config pathValidator outputDir
    (s s1 s2 : State) loaded e :
  CRXExtractor.loadInput env input config
    (CRXExtractor.logger_info config "Starting CRX extraction" s).2 = (Returns tt, s1) ->
  buffer s1 = Some loaded ->
  CRXExtractor.parseHeader config s1 = (Throws e, s2) ->
  CRXExtractor.extract env input config pathValidator outputDir s
  = (Throws e, (CRXExtractor.logger_error config "Extraction failed" s2).2).
Proof.
  intros Hload Hbuffer Hparse. unfold CRXExtractor.extract.
  rewrite (bind_run_returns _ _ s _ tt (logger_info_returns config _ s)).
  unfold try_catch.
  rewrite (bind_run_returns _ _ _ _ _ Hload).
  assert (Hget : get buffer s1 = (Returns (Some loaded), s1))
    by (unfold get; rewrite Hbuffer; reflexivity).
  rewrite (bind_run_returns _ _ _ _ _ Hget).
  rewrite (bind_run_throws _ _ _ _ _ Hparse).
  rewrite (bind_run_returns _ _ s2 _ tt (logger_error_returns config _ s2)).
  reflexivity.
Qed.

(** C2, as the program has it: in every run of [extract] the first effect
    that changes files is the command that clears the output directory (it
    comes before the payload is staged, inspected or unpacked), and a run that
    never issues it leaves the files as they were; a run that fails while the
    input is acquired or while the header is parsed ends with that error and
    with every file as it was. *)
Theorem output_directory_cleared_before_staging :
  forall (env : Env) (input : jsstring) (config : ExtractorConfig)
         (pathValidator : PathValidator.t) (outputDir : option jsstring) (s : State),
    let s0 := (CRXExtractor.logger_info config "Starting CRX extraction" s).2 in
    let run := CRXExtractor.extract env input config pathValidator outputDir s in
    cleared_first s run.2
    /\ (forall e s1,
          CRXExtractor.loadInput env input config s0 = (Throws e, s1) ->
          run.1 = Throws e /\ files run.2 = files s)
    /\ (forall s1 e s2,
          CRXExtractor.loadInput env input config s0 = (Returns tt, s1) ->
          CRXExtractor.parseHeader config s1 = (Throws e, s2) ->
          run.1 = Throws e /\ files run.2 = files s).
Proof.
  intros env input config pathValidator outputDir s s0 run.
  assert (F0 : files s0 = files s)
    by apply (logger_info_same_files config "Starting CRX extraction" s).
  split; [apply extract_cleared_first|]. split.
  - intros e s1 Hload. subst run.
    rewrite (extract_fails_in_loadInput _ _ _ _ _ _ _ _ Hload).
    split; [reflexivity|]. cbn [snd].
    rewrite (proj1 (logger_error_same_files config "Extraction failed" s1)).
    pose proof (proj1 (loadInput_same_files env input config s0)) as F1.
    rewrite Hload in F1. cbn [snd] in F1. congruence.
  - intros s1 e s2 Hload Hparse. subst run.
    destruct (loadInput_sets_buffer _ _ _ _ _ Hload) as [loaded Hbuffer].
    rewrite (extract_fails_in_parseHeader _ _ _ _ _ _ _ _ _ _ Hload Hbuffer Hparse).
    split; [reflexivity|]. cbn [snd].
    rewrite (proj1 (logger_error_same_files config "Extraction failed" s2)).
    pose proof (proj1 (loadInput_same_files env input config s0)) as F1.
    rewrite Hload in F1. cbn [snd] in F1.
    pose proof (proj1 (parseHeader_same_files config s1)) as F2.
    rewrite Hparse in F2. cbn [snd] in F2. congruence.
Qed.

(** A container with a wrong magic number: the run fails in header parsing and
    the old file in the output directory is still there. *)
Lemma output_directory_cleared_before_staging_witness :
  let run :=
    CRXExtractor.extract Samples.broken_env (js "ext.crx") DEFAULT_CONFIG
      (PathValidator.new [[DOT]] {| process_cwd := js "/w" |}) None Samples.world in
  run.1 = Throws (ValidationError (Invalid_CRX_magic_number 0))
  /\ files run.2 = Samples.disk.
Proof.
  intros run.
  destruct (output_directory_cleared_before_staging Samples.broken_env (js "ext.crx")
              DEFAULT_CONFIG (PathValidator.new [[DOT]] {| process_cwd := js "/w" |})
              None Samples.world) as (_ & _ & Hheader).
  eapply Hheader; [vm_compute; reflexivity | vm_compute; reflexivity].
Defined.

(** C2 as stated fails: the gate rejects the staged archive (ratio 1000 to 3),
    the run fails, and the file that was in the output directory is gone,
    since the directory was cleared before the archive was staged. *)
Lemma output_directory_cleared_despite_gate_failure :
  let run :=
    CRXExtractor.run Samples.bomb_env (js "ext.crx") DEFAULT_CONFIG None Samples.world in
  CRXExtractor.checkZipInfo DEFAULT_CONFIG
    {| fileCount := 1; uncompressedSize := 1000; compressedSize := number_of_nat 3 |}
  = Throws (SecurityError Suspicious_compression_ratio)
  /\ Samples.world.(files) !! Samples.old_file = Some (Samples.bytes_of [1; 2; 3]%N)
  /\ run.1 = Throws (ExtractionError (Extraction_failed_ZIP_saved_to Samples.fallback_file))
  /\ run.2.(files) !! Samples.old_file = None
  /\ In (Shell_rm_rf_and_mkdir_p (js "/w/_extensions/ext")) run.2.(effects)
  /\ ~ In (Shell_unzip (js "/w/_extensions/ext/.tmp_1700000000000/archive.zip")
                       (js "/w/_extensions/ext/.tmp_1700000000000")) run.2.(effects).
Proof.
  vm_compute.
  split; [reflexivity|]. split; [reflexivity|]. split; [reflexivity|].
  split; [reflexivity|]. split; [tauto|].
  intros H. repeat (destruct H as [H|H]; [discriminate|]). exact H.
Qed.

(** ** Failure at the security gate *)

(** C1: a staged archive that the gate rejects.  The listing reports 1000
    bytes for an archive of 3 bytes, so the ratio check raises its security
    error; [extractZip] catches it like any other failure, writes the payload
    to failed_extraction.zip in the output directory and throws an extraction
    error, so the run ends with that error and with the rejected payload on
    disk. *)
Theorem gate_rejection_saves_fallback_archive :
  let run :=
    CRXExtractor.run Samples.bomb_env (js "ext.crx") DEFAULT_CONFIG None Samples.world in
  let payload := drop 13 Samples.crx_v3 in
  CRXExtractor.checkZipInfo DEFAULT_CONFIG
    {| fileCount := 1; uncompressedSize := 1000;
       compressedSize := number_of_nat (length payload) |}
  = Throws (SecurityError Suspicious_compression_ratio)
  /\ run.1 = Throws (ExtractionError (Extraction_failed_ZIP_saved_to Samples.fallback_file))
  /\ run.2.(files) !! Samples.fallback_file = Some payload
  /\ In (Bun_write Samples.fallback_file payload) run.2.(effects).
Proof.
  vm_compute.
  split; [reflexivity|]. split; [reflexivity|]. split; [reflexivity|]. tauto.
Qed.

(** ** The path rule against the specification *)

(** C3: with the working directory /srv/app as the only allowed root, the
    candidate x/../../../etc/passwd is accepted (as /srv/app/etc/passwd),
    although its lexically normalized absolute form is /etc/passwd, outside the
    root: [PathUtils.join] removes [../../] as if [..] were a directory name
    followed by [..].  The candidate ../../etc/passwd is rejected. *)
Theorem validatePath_accepts_lexical_escape :
  let cwd := js "/srv/app" in
  let now := {| process_cwd := cwd |} in
  let v := PathValidator.new [[DOT]] now in
  let p := js "x/../../../etc/passwd" in
  PathValidator.resolvedAllowedPaths v = [cwd]
  /\ PathUtils.join [cwd; p] = js "/srv/app/etc/passwd"
  /\ PathValidator.validatePath [] v p None now = Returns (js "/srv/app/etc/passwd")
  /\ Spec.lexical_form cwd p = js "/etc/passwd"
  /\ Spec.roots cwd [[DOT]] = [cwd]
  /\ Spec.accepts cwd [[DOT]] p = false
  /\ PathValidator.validatePath [] v (js "../../etc/passwd") None now
     = Throws (SecurityError
                 (Path_resolves_outside_allowed_directories (js "../../etc/passwd")))
  /\ Spec.accepts cwd [[DOT]] (js "../../etc/passwd") = false.
Proof.
  vm_compute. repeat split.
Qed.

(** ** The catch-all of [extractZip], for every rejected archive *)

Lemma Bun_write_file_ok env path data (s : State) :
  write_ok env path = true ->
  CRXExtractor.Bun_write_file env path data s
  = (Returns tt, set_files (<[path := data]> (files s)) (add_effect (Bun_write path data) s)).
Proof.
  intros Hok. unfold CRXExtractor.Bun_write_file, bind, perform, modify.
  rewrite Hok. reflexivity.
Qed.

Lemma logger_debug_run config message data (s : State) :
  CRXExtractor.logger_debug config message data s
  = (Returns tt, (CRXExtractor.logger_debug config message data s).2).
Proof.
  unfold CRXExtractor.logger_debug, Logger.debug.
  destruct (Logger.shouldLog _ _); [|reflexivity]. destruct data; reflexivity.
Qed.

Lemma getZipInfo_ok env config zipPath data u n (s : State) :
  files s !! zipPath = Some data ->
  unzip_l env data = Some (u, n) ->
  CRXExtractor.getZipInfo env config zipPath s
  = (Returns {| fileCount := n; uncompressedSize := u;
                compressedSize := number_of_nat (length data) |},
     add_effect (Shell_unzip_l zipPath) s).
Proof.
  intros Hfile Hlist.
  unfold CRXExtractor.getZipInfo, try_catch, bind, perform, modify, get.
  cbn [files add_effect]. rewrite Hfile, Hlist. reflexivity.
Qed.

Lemma validateZipSecurity_rejects env config zipPath data u n e (s : State) :
  files s !! zipPath = Some data ->
  unzip_l env data = Some (u, n) ->
  CRXExtractor.checkZipInfo config
    {| fileCount := n; uncompressedSize := u; compressedSize := number_of_nat (length data) |}
  = Throws e ->
  exists s',
    CRXExtractor.validateZipSecurity env config zipPath s = (Throws e, s')
    /\ files s' = files s.
Proof.
  intros Hfile Hlist Hcheck. unfold CRXExtractor.validateZipSecurity.
  rewrite (bind_run_returns _ _ _ _ _ (getZipInfo_ok env config zipPath data u n s Hfile Hlist)).
  rewrite (bind_run_returns _ _ _ _ tt (logger_debug_run config _ _ _)).
  rewrite Hcheck. eexists. split; [reflexivity|].
  apply (proj1 (logger_debug_same_files config "ZIP info retrieved" true
                  (add_effect (Shell_unzip_l zipPath) s))).
Qed.

Lemma fs_rm_rf_lookup_outside (dir path : jsstring) (f : gmap (list N) (list Byte.byte)) :
  under dir path = false -> fs_rm_rf dir f !! path = f !! path.
Proof.
  intros Hout. unfold fs_rm_rf.
  destruct (f !! path) as [v|] eqn:E.
  - apply map_lookup_filter_Some. split; [exact E | exact Hout].
  - apply map_lookup_filter_None. left. exact E.
Qed.

(** Whenever the archive is staged and the gate rejects it, and the fallback
    write succeeds, [extractZip] ends with the extraction error that names the
    fallback file, and that file holds the rejected payload. *)
Lemma gate_rejection_always_saves_fallback
    env config pathValidator zipData outputDir u n e (s s1 : State) :
  let tempDir := CRXExtractor.tempDir_of env outputDir in
  let zipPath := PathUtils.join [tempDir; js "archive.zip"] in
  let fallbackPath := CRXExtractor.fallbackPath_of outputDir in
  CRXExtractor.ensureDirectory env config pathValidator tempDir s = (Returns tt, s1) ->
  write_ok env zipPath = true ->
  unzip_l env zipData = Some (u, n) ->
  CRXExtractor.checkZipInfo config
    {| fileCount := n; uncompressedSize := u;
       compressedSize := number_of_nat (length zipData) |}
  = Throws e ->
  write_ok env fallbackPath = true ->
  under tempDir fallbackPath = false ->
  exists s',
    CRXExtractor.extractZip env config pathValidator zipData outputDir s
    = (Throws (ExtractionError (Extraction_failed_ZIP_saved_to fallbackPath)), s')
    /\ files s' !! fallbackPath = Some zipData.
Proof.
  intros tempDir zipPath fallbackPath Hdir Hstage Hlist Hcheck Hsave Hout.
  unfold CRXExtractor.extractZip. fold tempDir zipPath fallbackPath.
  unfold try_finally.
  (* the body *)
  unfold try_catch at 1.
  rewrite (bind_run_returns _ _ _ _ _ Hdir).
  rewrite (bind_run_returns _ _ _ _ _ (Bun_write_file_ok env zipPath zipData s1 Hstage)).
  rewrite (bind_run_returns _ _ _ _ tt (logger_debug_run config _ _ _)).
  match goal with
  | |- context [bind (CRXExtractor.validateZipSecurity env config zipPath) _ ?st] =>
      destruct (validateZipSecurity_rejects env config zipPath zipData u n e st)
        as (s5 & Hgate & Hfiles5);
      [ rewrite (proj1 (logger_debug_same_files config "Temporary ZIP created" true _));
        cbn [files set_files]; apply lookup_insert_eq
      | exact Hlist | exact Hcheck | ]
  end.
  rewrite (bind_run_throws _ _ _ _ _ Hgate).
  (* the handler *)
  rewrite (bind_run_returns _ _ _ _ tt (logger_error_returns config _ s5)).
  rewrite (bind_run_returns _ _ _ _ _ (Bun_write_file_ok env fallbackPath zipData _ Hsave)).
  unfold throw at 1.
  (* the cleanup *)
  unfold try_catch, CRXExtractor.sh_rm_rf, bind, perform, modify, throw.
  cbn [fst snd]. destruct (rm_rf_ok env tempDir).
  - eexists. split; [reflexivity|]. cbn [snd files set_files add_effect].
    rewrite fs_rm_rf_lookup_outside by exact Hout. apply lookup_insert_eq.
  - unfold CRXExtractor.logger_warn, Logger.warn.
    destruct (Logger.shouldLog _ _); (eexists; split; [reflexivity|]);
      cbn [snd files set_files add_effect perform modify]; apply lookup_insert_eq.
Qed.

(** ** The 32-bit read is the little-endian value *)

Lemma byte_at_range (buffer : bytes) (i : Z) : (0 <= byte_at buffer i < 256)%Z.
Proof.
  unfold byte_at. destruct (i <? 0)%Z; [lia|].
  destruct (nth_error buffer (Z.to_nat i)) as [b|]; [|lia].
  pose proof (Byte.to_N_bounded b) as H. lia.
Qed.

Ltac pow2_numerals :=
  change (2 ^ 8)%Z with 256%Z in *;
  change (2 ^ 16)%Z with 65536%Z in *;
  change (2 ^ 24)%Z with 16777216%Z in *;
  change (2 ^ 31)%Z with 2147483648%Z in *;
  change (2 ^ 32)%Z with 4294967296%Z in *.

Lemma ToInt32_small (x : Z) : (- 2 ^ 31 <= x < 2 ^ 31)%Z -> ToInt32 x = x.
Proof. unfold ToInt32. intros H. pow2_numerals. Z.div_mod_to_equations. lia. Qed.

Lemma ToInt32_wrap (x : Z) : (2 ^ 31 <= x < 2 ^ 32)%Z -> ToInt32 x = (x - 2 ^ 32)%Z.
Proof. unfold ToInt32. intros H. pow2_numerals. Z.div_mod_to_equations. lia. Qed.

Lemma lor_disjoint (a b k : Z) :
  (0 <= k)%Z -> (0 <= a < 2 ^ k)%Z -> Z.lor a (b * 2 ^ k) = (a + b * 2 ^ k)%Z.
Proof.
  intros Hk Ha.
  assert (Hland : Z.land a (b * 2 ^ k) = 0%Z).
  { apply Z.bits_inj'. intros i Hi. rewrite Z.land_spec, Z.bits_0.
    destruct (Z.lt_ge_cases i k) as [Hlt|Hge].
    - rewrite Z.mul_pow2_bits_low by lia. apply andb_false_r.
    - rewrite <- (Z.mod_small a (2 ^ k)) by lia.
      rewrite Z.mod_pow2_bits_high by lia. reflexivity. }
  rewrite <- Z.lxor_lor by exact Hland.
  symmetry. apply Z.add_nocarry_lxor. exact Hland.
Qed.

Lemma js_shl_byte (b n : Z) :
  (0 <= b < 256)%Z -> (0 <= n <= 16)%Z -> js_shl b n = (b * 2 ^ n)%Z.
Proof.
  intros Hb Hn. unfold js_shl.
  rewrite (ToInt32_small b) by lia.
  rewrite (Z.mod_small n 32) by lia.
  rewrite Z.shiftl_mul_pow2 by lia.
  apply ToInt32_small.
  assert (2 ^ n <= 2 ^ 16)%Z by (apply Z.pow_le_mono_r; lia).
  assert (0 < 2 ^ n)%Z by (apply Z.pow_pos_nonneg; lia).
  nia.
Qed.

Lemma js_shl_byte_24 (b : Z) :
  (0 <= b < 256)%Z ->
  js_shl b 24 = ((if (b <? 128)%Z then b else b - 256) * 2 ^ 24)%Z.
Proof.
  intros Hb. unfold js_shl.
  rewrite (ToInt32_small b) by lia.
  change (24 mod 32)%Z with 24%Z.
  rewrite Z.shiftl_mul_pow2 by lia.
  destruct (Z.ltb_spec b 128).
  - apply ToInt32_small. lia.
  - rewrite ToInt32_wrap by lia. lia.
Qed.

Lemma js_or_disjoint (a b k : Z) :
  (0 <= k)%Z -> (0 <= a < 2 ^ k)%Z ->
  (- 2 ^ 31 <= b * 2 ^ k < 2 ^ 31)%Z ->
  (- 2 ^ 31 <= a + b * 2 ^ k < 2 ^ 31)%Z ->
  (2 ^ k <= 2 ^ 31)%Z ->
  js_or a (b * 2 ^ k) = (a + b * 2 ^ k)%Z.
Proof.
  intros Hk Ha Hb Hsum Hpow. unfold js_or.
  rewrite (ToInt32_small a) by lia.
  rewrite (ToInt32_small (b * 2 ^ k)) by lia.
  rewrite lor_disjoint by assumption.
  apply ToInt32_small. exact Hsum.
Qed.

(** [readUInt32LEAt] returns the four bytes read as a little-endian number,
    between 0 and 2^32 - 1. *)
Lemma readUInt32LEAt_little_endian (buffer : bytes) (offset : Z) :
  (offset + 4 <= Z.of_nat (length buffer))%Z ->
  CRXExtractor.readUInt32LEAt buffer offset
  = Returns (byte_at buffer offset
             + 2 ^ 8 * byte_at buffer (offset + 1)
             + 2 ^ 16 * byte_at buffer (offset + 2)
             + 2 ^ 24 * byte_at buffer (offset + 3))%Z.
Proof.
  intros Hlen. unfold CRXExtractor.readUInt32LEAt.
  destruct (Z.ltb_spec (Z.of_nat (length buffer)) (offset + 4)) as [Hlt|_]; [lia|].
  f_equal.
  pose proof (byte_at_range buffer offset) as H0.
  pose proof (byte_at_range buffer (offset + 1)) as H1.
  pose proof (byte_at_range buffer (offset + 2)) as H2.
  pose proof (byte_at_range buffer (offset + 3)) as H3.
  set (b0 := byte_at buffer offset) in *.
  set (b1 := byte_at buffer (offset + 1)) in *.
  set (b2 := byte_at buffer (offset + 2)) in *.
  set (b3 := byte_at buffer (offset + 3)) in *.
  rewrite (js_shl_byte b1 8), (js_shl_byte b2 16), (js_shl_byte_24 b3) by lia.
  rewrite (js_or_disjoint b0 b1 8) by lia.
  rewrite (js_or_disjoint (b0 + b1 * 2 ^ 8) b2 16) by lia.
  rewrite (js_or_disjoint (b0 + b1 * 2 ^ 8 + b2 * 2 ^ 16)
             (if (b3 <? 128)%Z then b3 else b3 - 256) 24)
    by (destruct (Z.ltb_spec b3 128); lia).
  unfold js_ushr0, ToUint32.
  destruct (Z.ltb_spec b3 128); Z.div_mod_to_equations; lia.
Qed.

(** ** The repository's own test cases, run on the model *)

(** tests/utils/path.test.ts, cases the code passes. *)
Example join_segments :
  PathUtils.join [js "a"; js "b"; js "c"] = js "a/b/c"
  /\ PathUtils.join [js "a"; []; js "b"] = js "a/b"
  /\ PathUtils.join [js "a//b"; js "c"] = js "a/b/c"
  /\ PathUtils.join [js "a"; js "./b"; js "c"] = js "a/b/c"
  /\ PathUtils.join [js "a/b"; js "../c"] = js "a/c"
  /\ PathUtils.join [js "a/b/"] = js "a/b".
Proof. repeat split. Qed.

(** tests/utils/path.test.ts expects [a/d] and [/] here: the single pass of the
    [../] pattern leaves the second [..] in place, and the trailing slash of
    the root is removed too. *)
Example join_against_its_tests :
  PathUtils.join [js "a/b/c"; js "../../d"] = js "a/b/../d"
  /\ PathUtils.join [js "/"] = [].
Proof. split; reflexivity. Qed.

Example normalize_cases :
  PathUtils.normalize (js "a/./b") = js "a/b"
  /\ PathUtils.normalize (js "a/b/../c") = js "a/c"
  /\ PathUtils.normalize (js "/a/../b") = js "/b"
  /\ PathUtils.normalize (js "a///b") = js "a/b"
  /\ PathUtils.normalize [] = js "."
  /\ PathUtils.normalize (js "..") = js "."
  /\ PathUtils.normalize (js "/../a") = js "/a"
  /\ PathUtils.normalize (js "/a/../../b") = js "/b".
Proof. repeat split. Qed.

Example dirname_cases :
  PathUtils.dirname (js "/a/b/c") = js "/a/b"
  /\ PathUtils.dirname (js "a/b/c") = js "a/b"
  /\ PathUtils.dirname (js "/a") = js "/"
  /\ PathUtils.dirname (js "file.txt") = js "."
  /\ PathUtils.dirname (js "/") = js "/"
  /\ PathUtils.dirname [] = js ".".
Proof. repeat split. Qed.

(** tests/validators/path.test.ts *)
Example validatePath_cases :
  let here := {| process_cwd := js "/home/user/project" |} in
  let v := PathValidator.new [[DOT]] here in
  let safe := PathValidator.new [js "./safe"] here in
  PathValidator.validatePath [] v (js "test.txt") None here
  = Returns (js "/home/user/project/test.txt")
  /\ PathValidator.validatePath [] v (js "./a/./b/../c/file.txt") None here
     = Returns (js "/home/user/project/a/c/file.txt")
  /\ PathValidator.validatePath [] v (js "file.txt") (Some (js "/home/user/project/subdir")) here
     = Returns (js "/home/user/project/subdir/file.txt")
  /\ PathValidator.validatePath [] v (js "../outside.txt") None here
     = Throws (SecurityError (Path_resolves_outside_allowed_directories (js "../outside.txt")))
  /\ PathValidator.validatePath [] v (js "/etc/passwd") None here
     = Throws (SecurityError (Path_resolves_outside_allowed_directories (js "/etc/passwd")))
  /\ PathValidator.validatePath [] safe (js "./safe/../../../etc/passwd") None here
     = Throws (SecurityError
                 (Path_resolves_outside_allowed_directories (js "./safe/../../../etc/passwd"))).
Proof. vm_compute. repeat split. Qed.

Example sanitizeFilename_cases :
  PathValidator.sanitizeFilename (js "  file.txt  ") = js "file.txt"
  /\ PathValidator.sanitizeFilename [] = js "unnamed"
  /\ PathValidator.sanitizeFilename (js "   ") = js "unnamed"
  /\ PathValidator.sanitizeFilename (js "***") = js "___"
  /\ PathValidator.sanitizeFilename (js "my-file_123.test.txt") = js "my-file_123.test.txt"
  /\ PathValidator.sanitizeFilename (repeat 97%N 250 ++ js ".txt") = repeat 97%N 200.
Proof. vm_compute. repeat split. Qed.

(** tests/validators/path.test.ts expects [_/_/etc/passwd] and [file_.txt]
    here; the slashes are replaced first and a run of dots leaves no dot. *)
Example sanitizeFilename_against_its_tests :
  PathValidator.sanitizeFilename (js "../../../etc/passwd") = js "______etc_passwd"
  /\ PathValidator.sanitizeFilename (js "file...txt") = js "file_txt".
Proof. split; reflexivity. Qed.

(** * Further properties of the code *)

(** ** Reading 32-bit integers *)

Lemma little_endian_range (buffer : bytes) (offset : Z) :
  (0 <= byte_at buffer offset
        + 2 ^ 8 * byte_at buffer (offset + 1)
        + 2 ^ 16 * byte_at buffer (offset + 2)
        + 2 ^ 24 * byte_at buffer (offset + 3) < 2 ^ 32)%Z.
Proof.
  pose proof (byte_at_range buffer offset).
  pose proof (byte_at_range buffer (offset + 1)).
  pose proof (byte_at_range buffer (offset + 2)).
  pose proof (byte_at_range buffer (offset + 3)).
  pow2_numerals. lia.
Qed.

Lemma readUInt32LEAt_returns_inv (buffer : bytes) (offset value : Z) :
  CRXExtractor.readUInt32LEAt buffer offset = Returns value ->
  (offset + 4 <= Z.of_nat (length buffer))%Z /\ (0 <= value < 2 ^ 32)%Z.
Proof.
  intros H.
  assert (Hlen : (offset + 4 <= Z.of_nat (length buffer))%Z).
  { unfold CRXExtractor.readUInt32LEAt in H.
    destruct (Z.ltb_spec (Z.of_nat (length buffer)) (offset + 4)); [discriminate | lia]. }
  split; [exact Hlen|].
  rewrite (readUInt32LEAt_little_endian buffer offset Hlen) in H.
  injection H as <-. apply little_endian_range.
Qed.

(** X1: within bounds, [readUInt32LEAt] returns the four bytes at the offset
    read as a little-endian number, which lies between 0 and 2^32 - 1. *)
Theorem readUInt32LEAt_value :
  forall (buffer : bytes) (offset : Z),
    (offset + 4 <= Z.of_nat (length buffer))%Z ->
    exists value,
      CRXExtractor.readUInt32LEAt buffer offset = Returns value
      /\ value = (byte_at buffer offset
                  + 2 ^ 8 * byte_at buffer (offset + 1)
                  + 2 ^ 16 * byte_at buffer (offset + 2)
                  + 2 ^ 24 * byte_at buffer (offset + 3))%Z
      /\ (0 <= value < 2 ^ 32)%Z.
Proof.
  intros buffer offset Hlen. eexists. split; [apply readUInt32LEAt_little_endian, Hlen|].
  split; [reflexivity | apply little_endian_range].
Qed.

Lemma readUInt32LEAt_value_witness :
  exists value,
    CRXExtractor.readUInt32LEAt Samples.crx_v3 0 = Returns value
    /\ value = CRX_MAGIC
    /\ (0 <= value < 2 ^ 32)%Z.
Proof.
  destruct (readUInt32LEAt_value Samples.crx_v3 0 ltac:(vm_compute; discriminate))
    as (value & Hread & Hvalue & Hrange).
  exists value. split; [exact Hread|]. split; [|exact Hrange].
  rewrite Hvalue. reflexivity.
Defined.

(** ** The header parser, case by case *)

Lemma get_run {A} (f : State -> A) (s : State) : get f s = (Returns (f s), s).
Proof. reflexivity. Qed.

Lemma modify_run (f : State -> State) (s : State) : modify f s = (Returns tt, f s).
Proof. reflexivity. Qed.

Lemma readUInt32LE_returns (s : State) (buf : bytes) (value : Z) :
  buffer s = Some buf ->
  CRXExtractor.readUInt32LEAt buf (offset s) = Returns value ->
  CRXExtractor.readUInt32LE s = (Returns value, set_offset (offset s + 4) s).
Proof. intros Hb Hr. rewrite (readUInt32LE_run s buf Hb), Hr. reflexivity. Qed.

Lemma readUInt32LE_throws (s : State) (buf : bytes) (e : exn) :
  buffer s = Some buf ->
  CRXExtractor.readUInt32LEAt buf (offset s) = Throws e ->
  CRXExtractor.readUInt32LE s = (Throws e, s).
Proof. intros Hb Hr. rewrite (readUInt32LE_run s buf Hb), Hr. reflexivity. Qed.

(** The last step of [parseHeader]: the bound check on the offset. *)
Lemma parseHeader_finish config (buf : bytes) (ver zo : Z) (s : State) :
  (if (Z.of_nat (length buf) <=? zo)%Z
   then throw (ValidationError ZIP_offset_exceeds_file_size)
   else CRXExtractor.logger_debug config "CRX header parsed" true ;;
        ret {| version := ver; zipOffset := zo |}) s
  = if (Z.of_nat (length buf) <=? zo)%Z
    then (Throws (ValidationError ZIP_offset_exceeds_file_size), s)
    else (Returns {| version := ver; zipOffset := zo |},
          (CRXExtractor.logger_debug config "CRX header parsed" true s).2).
Proof.
  destruct (Z.of_nat (length buf) <=? zo)%Z; [reflexivity|].
  rewrite (bind_run_returns _ _ _ _ tt (logger_debug_run config _ _ s)). reflexivity.
Qed.

(** [parseHeader] on a loaded buffer, as a decision tree over the four
    reads. *)
Lemma parseHeader_run config (s : State) (buf : bytes) :
  buffer s = Some buf ->
  CRXExtractor.parseHeader config s
  = match CRXExtractor.readUInt32LEAt buf 0 with
    | Throws e => (Throws e, set_offset 0 s)
    | Returns magic =>
        if negb (Z.eqb magic CRX_MAGIC)
        then (Throws (ValidationError (Invalid_CRX_magic_number magic)), set_offset 4 s)
        else
          match CRXExtractor.readUInt32LEAt buf 4 with
          | Throws e => (Throws e, set_offset 4 s)
          | Returns ver =>
              if Z.eqb ver CRX_VERSION_2 then
                match CRXExtractor.readUInt32LEAt buf 8 with
                | Throws e => (Throws e, set_offset 8 s)
                | Returns publicKeyLength =>
                    match CRXExtractor.readUInt32LEAt buf 12 with
                    | Throws e => (Throws e, set_offset 12 s)
                    | Returns signatureLength =>
                        if (Z.of_nat (length buf)
                            <=? 16 + publicKeyLength + signatureLength)%Z
                        then (Throws (ValidationError ZIP_offset_exceeds_file_size),
                              set_offset 16 s)
                        else (Returns {| version := ver;
                                         zipOffset := 16 + publicKeyLength + signatureLength |},
                              (CRXExtractor.logger_debug config "CRX header parsed" true
                                 (set_offset 16 s)).2)
                    end
                end
              else if Z.eqb ver CRX_VERSION_3 then
                match CRXExtractor.readUInt32LEAt buf 8 with
                | Throws e => (Throws e, set_offset 8 s)
                | Returns headerSize =>
                    if (Z.of_nat (length buf) <=? 12 + headerSize)%Z
                    then (Throws (ValidationError ZIP_offset_exceeds_file_size),
                          set_offset 12 s)
                    else (Returns {| version := ver; zipOffset := 12 + headerSize |},
                          (CRXExtractor.logger_debug config "CRX header parsed" true
                             (set_offset 12 s)).2)
                end
              else (Throws (ValidationError (Unsupported_CRX_version ver)), set_offset 8 s)
          end
    end.
Proof.
  intros Hbuf. unfold CRXExtractor.parseHeader.
  rewrite (bind_run_returns _ _ s s (Some buf)) by (rewrite get_run, Hbuf; reflexivity).
  rewrite (bind_run_returns _ _ _ _ tt (modify_run _ s)).
  assert (Hb0 : buffer (set_offset 0 s) = Some buf) by exact Hbuf.
  destruct (CRXExtractor.readUInt32LEAt buf 0) as [magic|e] eqn:E0.
  2:{ rewrite (bind_run_throws _ _ _ _ _ (readUInt32LE_throws _ buf e Hb0 E0)). reflexivity. }
  rewrite (bind_run_returns _ _ _ _ _ (readUInt32LE_returns _ buf magic Hb0 E0)).
  destruct (negb (Z.eqb magic CRX_MAGIC)); [reflexivity|].
  cbn [offset set_offset]. change (0 + 4)%Z with 4%Z.
  assert (Hb4 : buffer (set_offset 4 (set_offset 0 s)) = Some buf) by exact Hbuf.
  destruct (CRXExtractor.readUInt32LEAt buf 4) as [ver|e] eqn:E4.
  2:{ rewrite (bind_run_throws _ _ _ _ _ (readUInt32LE_throws _ buf e Hb4 E4)). reflexivity. }
  rewrite (bind_run_returns _ _ _ _ _ (readUInt32LE_returns _ buf ver Hb4 E4)).
  cbn [offset set_offset]. change (4 + 4)%Z with 8%Z.
  assert (Hb8 : buffer (set_offset 8 (set_offset 4 (set_offset 0 s))) = Some buf) by exact Hbuf.
  set (s8 := set_offset 8 (set_offset 4 (set_offset 0 s))) in *.
  assert (Hb12 : buffer (set_offset 12 s8) = Some buf) by exact Hbuf.
  destruct (Z.eqb ver CRX_VERSION_2); [|destruct (Z.eqb ver CRX_VERSION_3)].
  - unfold bind at 1.
    destruct (CRXExtractor.readUInt32LEAt buf 8) as [pk|e] eqn:E8.
    2:{ rewrite (bind_run_throws _ _ _ _ _ (readUInt32LE_throws s8 buf e Hb8 E8)).
        reflexivity. }
    rewrite (bind_run_returns _ _ _ _ _ (readUInt32LE_returns s8 buf pk Hb8 E8)).
    cbn [offset set_offset s8]. change (8 + 4)%Z with 12%Z.
    destruct (CRXExtractor.readUInt32LEAt buf 12) as [sg|e] eqn:E12.
    2:{ rewrite (bind_run_throws _ _ _ _ _
                   (readUInt32LE_throws (set_offset 12 s8) buf e Hb12 E12)).
        reflexivity. }
    rewrite (bind_run_returns _ _ _ _ _
               (readUInt32LE_returns (set_offset 12 s8) buf sg Hb12 E12)).
    rewrite (bind_run_returns _ _ _ _ _ (get_run offset _)).
    cbn [offset set_offset ret]. change (12 + 4)%Z with 16%Z.
    rewrite parseHeader_finish. reflexivity.
  - unfold bind at 1.
    destruct (CRXExtractor.readUInt32LEAt buf 8) as [hs|e] eqn:E8.
    2:{ rewrite (bind_run_throws _ _ _ _ _ (readUInt32LE_throws s8 buf e Hb8 E8)).
        reflexivity. }
    rewrite (bind_run_returns _ _ _ _ _ (readUInt32LE_returns s8 buf hs Hb8 E8)).
    rewrite (bind_run_returns _ _ _ _ _ (get_run offset _)).
    cbn [offset set_offset ret s8]. change (8 + 4)%Z with 12%Z.
    rewrite parseHeader_finish. reflexivity.
  - reflexivity.
Qed.



(** X3: [parseHeader] accepts every well-formed container.  With the magic
    number in place, a version 3 header whose size keeps 12 + headerSize
    inside the buffer yields that offset, and a version 2 header whose lengths
    keep 16 + publicKeyLength + signatureLength inside the buffer yields that
    offset; the cursor is left after the fixed fields and neither the buffer
    nor the disk changes. *)
Theorem parseHeader_accepts :
  forall (config : ExtractorConfig) (s : State) (buf : bytes),
    buffer s = Some buf ->
    CRXExtractor.readUInt32LEAt buf 0 = Returns CRX_MAGIC ->
    (forall headerSize,
       CRXExtractor.readUInt32LEAt buf 4 = Returns 3%Z ->
       CRXExtractor.readUInt32LEAt buf 8 = Returns headerSize ->
       (12 + headerSize < Z.of_nat (length buf))%Z ->
       exists s',
         CRXExtractor.parseHeader config s
         = (Returns {| version := 3; zipOffset := 12 + headerSize |}, s')
         /\ offset s' = 12%Z /\ buffer s' = Some buf /\ files s' = files s)
    /\ (forall publicKeyLength signatureLength,
          CRXExtractor.readUInt32LEAt buf 4 = Returns 2%Z ->
          CRXExtractor.readUInt32LEAt buf 8 = Returns publicKeyLength ->
          CRXExtractor.readUInt32LEAt buf 12 = Returns signatureLength ->
          (16 + publicKeyLength + signatureLength < Z.of_nat (length buf))%Z ->
          exists s',
            CRXExtractor.parseHeader config s
            = (Returns {| version := 2;
                          zipOffset := 16 + publicKeyLength + signatureLength |}, s')
            /\ offset s' = 16%Z /\ buffer s' = Some buf /\ files s' = files s).
Proof.
  intros config s buf Hbuf Hmagic. rewrite (parseHeader_run config s buf Hbuf), Hmagic.
  cbn [negb Z.eqb CRX_MAGIC Pos.eqb]. split.
  - intros hs -> -> Hlt. cbn [Z.eqb CRX_VERSION_2 CRX_VERSION_3 Pos.eqb].
    destruct (Z.leb_spec (Z.of_nat (length buf)) (12 + hs)) as [Hge|_]; [lia|].
    destruct (logger_debug_returns (logLevel config) "CRX header parsed" true
                (set_offset 12 s)) as (s' & Hlog & Hb & Ho & _ & Hf).
    unfold CRXExtractor.logger_debug. rewrite Hlog. cbn [snd].
    exists s'. split; [reflexivity|]. rewrite Hb, Ho, Hf. repeat split. exact Hbuf.
  - intros pk sg -> -> -> Hlt. cbn [Z.eqb CRX_VERSION_2 CRX_VERSION_3 Pos.eqb].
    destruct (Z.leb_spec (Z.of_nat (length buf)) (16 + pk + sg)) as [Hge|_]; [lia|].
    destruct (logger_debug_returns (logLevel config) "CRX header parsed" true
                (set_offset 16 s)) as (s' & Hlog & Hb & Ho & _ & Hf).
    unfold CRXExtractor.logger_debug. rewrite Hlog. cbn [snd].
    exists s'. split; [reflexivity|]. rewrite Hb, Ho, Hf. repeat split. exact Hbuf.
Qed.

Lemma parseHeader_accepts_witness :
  exists s',
    CRXExtractor.parseHeader DEFAULT_CONFIG (set_buffer (Some Samples.crx_v2) Samples.world)
    = (Returns {| version := 2; zipOffset := 16 + 2 + 1 |}, s')
    /\ offset s' = 16%Z /\ buffer s' = Some Samples.crx_v2 /\ files s' = Samples.disk.
Proof.
  destruct (parseHeader_accepts DEFAULT_CONFIG
              (set_buffer (Some Samples.crx_v2) Samples.world) Samples.crx_v2
              eq_refl eq_refl) as [_ Hv2].
  exact (Hv2 2%Z 1%Z eq_refl eq_refl eq_refl ltac:(vm_compute; reflexivity)).
Defined.

(** X4: the payload behind an accepted header is never empty.  The offset
    lies between 12 and the last byte of the buffer, so the slice that
    [extract] stages has at least one byte, and the compressed size that
    [validateZipSecurity] divides by is not zero. *)
Theorem accepted_payload_not_empty :
  forall (config : ExtractorConfig) (s s' : State) (buf : bytes) (header : CRXHeader),
    buffer s = Some buf ->
    CRXExtractor.parseHeader config s = (Returns header, s') ->
    (version header = 2%Z \/ version header = 3%Z)
    /\ (12 <= zipOffset header < Z.of_nat (length buf))%Z
    /\ 1 <= length (drop (Z.to_nat (zipOffset header)) buf)
    /\ Z.of_nat (length (drop (Z.to_nat (zipOffset header)) buf))
       = (Z.of_nat (length buf) - zipOffset header)%Z.
Proof.
  intros config s s' buf header Hbuf. rewrite (parseHeader_run config s buf Hbuf).
  assert (Hfinal : forall zo,
            (12 <= zo < Z.of_nat (length buf))%Z ->
            (12 <= zo < Z.of_nat (length buf))%Z
            /\ 1 <= length (drop (Z.to_nat zo) buf)
            /\ Z.of_nat (length (drop (Z.to_nat zo) buf)) = (Z.of_nat (length buf) - zo)%Z).
  { intros zo Hzo. rewrite length_drop. lia. }
  destruct (CRXExtractor.readUInt32LEAt buf 0) as [magic|]; [|discriminate].
  destruct (negb _); [discriminate|].
  destruct (CRXExtractor.readUInt32LEAt buf 4) as [ver|]; [|discriminate].
  destruct (Z.eqb_spec ver CRX_VERSION_2) as [->|_];
    [|destruct (Z.eqb_spec ver CRX_VERSION_3) as [->|_]; [|discriminate]].
  - destruct (CRXExtractor.readUInt32LEAt buf 8) as [pk|] eqn:E8; [|discriminate].
    destruct (CRXExtractor.readUInt32LEAt buf 12) as [sg|] eqn:E12; [|discriminate].
    apply readUInt32LEAt_returns_inv in E8 as [_ Hpk], E12 as [_ Hsg].
    destruct (Z.leb_spec (Z.of_nat (length buf)) (16 + pk + sg)); [discriminate|].
    intros [= <- _]. cbn [version zipOffset].
    split; [left; reflexivity | apply Hfinal; lia].
  - destruct (CRXExtractor.readUInt32LEAt buf 8) as [hs|] eqn:E8; [|discriminate].
    apply readUInt32LEAt_returns_inv in E8 as [_ Hhs].
    destruct (Z.leb_spec (Z.of_nat (length buf)) (12 + hs)); [discriminate|].
    intros [= <- _]. cbn [version zipOffset].
    split; [right; reflexivity | apply Hfinal; lia].
Qed.

Lemma accepted_payload_not_empty_witness :
  (12 <= 13 < Z.of_nat (length Samples.crx_v3))%Z
  /\ 1 <= length (drop (Z.to_nat 13) Samples.crx_v3).
Proof.
  destruct (accepted_payload_not_empty DEFAULT_CONFIG
              (set_buffer (Some Samples.crx_v3) Samples.world)
              (set_offset 12 (set_buffer (Some Samples.crx_v3) Samples.world))
              Samples.crx_v3 {| version := 3; zipOffset := 13 |} eq_refl eq_refl)
    as (_ & Hrange & Hlen & _).
  split; [exact Hrange | exact Hlen].
Defined.

(** ** Splitting and joining on the slash *)

Lemma split_slash_aux_slash_free (cur s : jsstring) :
  slash_free s = true -> split_slash_aux cur s = [reverse cur ++ s].
Proof.
  revert cur. induction s as [|c s IH]; intros cur H; cbn [split_slash_aux].
  - by rewrite app_nil_r.
  - cbn [slash_free forallb] in H. apply andb_true_iff in H as [Hc Hs].
    apply negb_true_iff in Hc. rewrite Hc, (IH _ Hs), reverse_cons, <- app_assoc.
    reflexivity.
Qed.

Lemma split_slash_aux_app (cur s t : jsstring) :
  slash_free s = true ->
  split_slash_aux cur (s ++ SLASH :: t) = (reverse cur ++ s) :: split_slash_aux [] t.
Proof.
  revert cur. induction s as [|c s IH]; intros cur H; cbn [split_slash_aux app].
  - change (is_slash SLASH) with true. cbn. by rewrite app_nil_r.
  - cbn [slash_free forallb] in H. apply andb_true_iff in H as [Hc Hs].
    apply negb_true_iff in Hc. rewrite Hc, (IH _ Hs), reverse_cons, <- app_assoc.
    reflexivity.
Qed.

Lemma slash_free_reverse (cur : jsstring) :
  slash_free cur = true -> slash_free (reverse cur) = true.
Proof.
  unfold slash_free. induction cur as [|c cur IH]; [trivial|].
  cbn [forallb]. intros H. apply andb_true_iff in H as [Hc Hcur].
  rewrite reverse_cons, forallb_app, (IH Hcur). cbn [forallb]. by rewrite Hc.
Qed.

Lemma split_slash_aux_parts (cur s : jsstring) :
  slash_free cur = true -> Forall (fun part => slash_free part = true) (split_slash_aux cur s).
Proof.
  revert cur. induction s as [|c s IH]; intros cur Hcur; cbn [split_slash_aux].
  - constructor; [by apply slash_free_reverse | constructor].
  - destruct (is_slash c) eqn:Ec.
    + constructor; [by apply slash_free_reverse | by apply IH].
    + apply IH. cbn [slash_free forallb]. rewrite Ec. exact Hcur.
Qed.

(** Splitting what was joined gives the parts back. *)
Lemma split_join (segs : list jsstring) :
  segs <> [] -> Forall (fun seg => slash_free seg = true) segs ->
  split_slash (join_with [SLASH] segs) = segs.
Proof.
  unfold split_slash. induction segs as [|seg segs IH]; [congruence|].
  intros _ H. apply Forall_cons in H as [Hseg Hsegs].
  destruct segs as [|seg2 segs].
  - cbn [join_with]. by rewrite split_slash_aux_slash_free.
  - change (join_with [SLASH] (seg :: seg2 :: segs))
      with (seg ++ SLASH :: join_with [SLASH] (seg2 :: segs)).
    rewrite split_slash_aux_app by exact Hseg. cbn [reverse app].
    rewrite IH by (congruence || exact Hsegs). reflexivity.
Qed.

(** ** [PathUtils.normalize] *)

Lemma plain_segment_slash_free (seg : jsstring) :
  plain_segment seg = true -> slash_free seg = true.
Proof. unfold plain_segment. intros H. apply andb_true_iff in H as [_ H]. exact H. Qed.

Lemma normalize_loop_plain (acc parts : list jsstring) :
  Forall (fun seg => plain_segment seg = true) acc ->
  Forall (fun part => slash_free part = true) parts ->
  Forall (fun seg => plain_segment seg = true) (PathUtils.normalize_loop acc parts).
Proof.
  intros Hacc Hparts. revert acc Hacc.
  induction Hparts as [|part parts Hpart _ IH]; intros acc Hacc;
    cbn [PathUtils.normalize_loop].
  - apply Forall_reverse. exact Hacc.
  - destruct (str_eqb part [DOT]) eqn:E1; cbn [orb]; [by apply IH|].
    destruct (str_eqb part []) eqn:E2; [by apply IH|].
    destruct (str_eqb part [DOT; DOT]) eqn:E3.
    + apply IH. destruct acc; [constructor|]. by apply Forall_cons in Hacc as [_ ?].
    + apply IH. constructor; [|exact Hacc].
      unfold plain_segment. rewrite E1, E2, E3. exact Hpart.
Qed.

Lemma normalize_loop_fixed (acc parts : list jsstring) :
  Forall (fun seg => plain_segment seg = true) parts ->
  PathUtils.normalize_loop acc parts = reverse acc ++ parts.
Proof.
  intros H. revert acc. induction H as [|part parts Hpart _ IH]; intros acc;
    cbn [PathUtils.normalize_loop].
  - by rewrite app_nil_r.
  - unfold plain_segment in Hpart.
    repeat (apply andb_true_iff in Hpart as [Hpart ?]).
    apply negb_true_iff in Hpart.
    repeat match goal with H : negb _ = true |- _ => apply negb_true_iff in H end.
    replace (str_eqb part [DOT]) with false by congruence.
    replace (str_eqb part []) with false by congruence.
    replace (str_eqb part [DOT; DOT]) with false by congruence.
    cbn [orb]. rewrite IH, reverse_cons, <- app_assoc. reflexivity.
Qed.

Lemma join_with_head (seg : jsstring) (segs : list jsstring) :
  plain_segment seg = true ->
  exists c rest, join_with [SLASH] (seg :: segs) = c :: rest /\ is_slash c = false.
Proof.
  intros H. pose proof (plain_segment_slash_free seg H) as Hfree.
  destruct seg as [|c seg]; [discriminate|].
  cbn [slash_free forallb] in Hfree. apply andb_true_iff in Hfree as [Hc _].
  apply negb_true_iff in Hc.
  destruct segs; cbn [join_with app]; eauto.
Qed.

(** The shape of a normalized path. *)
Lemma normalize_shape (path : jsstring) :
  exists segs,
    Forall (fun seg => plain_segment seg = true) segs
    /\ PathUtils.normalize path
       = (if starts_with [SLASH] path then [SLASH]
          else match segs with [] => [DOT] | _ => [] end)
         ++ join_with [SLASH] segs.
Proof.
  unfold PathUtils.normalize.
  exists (PathUtils.normalize_loop [] (split_slash path)). split.
  - apply normalize_loop_plain; [constructor|]. by apply split_slash_aux_parts.
  - destruct (starts_with [SLASH] path); [reflexivity|].
    destruct (PathUtils.normalize_loop [] (split_slash path)) as [|seg segs] eqn:E;
      [reflexivity|].
    cbn [app]. destruct (join_with [SLASH] (seg :: segs)) eqn:Ej; [|reflexivity].
    exfalso. destruct seg as [|c seg].
    + assert (H : Forall (fun seg => plain_segment seg = true) ([] :: segs)).
      { rewrite <- E. apply normalize_loop_plain; [constructor|].
        by apply split_slash_aux_parts. }
      apply Forall_cons in H as [H _]. discriminate.
    + destruct segs; discriminate.
Qed.

Lemma normalize_of_shape (absolute : bool) (segs : list jsstring) :
  Forall (fun seg => plain_segment seg = true) segs ->
  let n := (if absolute then [SLASH] else match segs with [] => [DOT] | _ => [] end)
           ++ join_with [SLASH] segs in
  PathUtils.normalize n = n /\ starts_with [SLASH] n = absolute /\ n <> [].
Proof.
  intros Hsegs n. subst n.
  destruct segs as [|seg segs].
  - destruct absolute; repeat split; discriminate.
  - assert (Hfree : Forall (fun s => slash_free s = true) (seg :: segs)).
    { eapply Forall_impl; [exact Hsegs | exact plain_segment_slash_free]. }
    apply Forall_cons in Hsegs as Hcons. destruct Hcons as [Hseg _].
    destruct (join_with_head seg segs Hseg) as (c & rest & Ej & Hc).
    destruct absolute.
    + split; [|split; [reflexivity | discriminate]].
      unfold PathUtils.normalize, split_slash. cbn [app starts_with N.eqb Pos.eqb andb SLASH].
      change (SLASH :: join_with [SLASH] (seg :: segs))
        with ([] ++ SLASH :: join_with [SLASH] (seg :: segs)).
      rewrite split_slash_aux_app by reflexivity.
      change (split_slash_aux [] (join_with [SLASH] (seg :: segs)))
        with (split_slash (join_with [SLASH] (seg :: segs))).
      rewrite split_join by (congruence || exact Hfree).
      change (PathUtils.normalize_loop [] ((reverse [] ++ []) :: seg :: segs))
        with (PathUtils.normalize_loop [] (seg :: segs)).
      rewrite normalize_loop_fixed by exact Hsegs. reflexivity.
    + cbn [app]. split; [|split].
      * unfold PathUtils.normalize. rewrite split_join by (congruence || exact Hfree).
        rewrite normalize_loop_fixed by exact Hsegs.
        change (reverse (@nil (list N))) with (@nil (list N)). cbn [app].
        rewrite Ej. cbn [starts_with]. unfold is_slash in Hc. rewrite N.eqb_sym, Hc.
        reflexivity.
      * rewrite Ej. cbn [starts_with]. unfold is_slash in Hc. rewrite N.eqb_sym, Hc.
        reflexivity.
      * rewrite Ej. discriminate.
Qed.

Lemma normalize_idempotent (path : jsstring) :
  PathUtils.normalize (PathUtils.normalize path) = PathUtils.normalize path.
Proof.
  destruct (normalize_shape path) as (segs & Hsegs & ->).
  apply (normalize_of_shape (starts_with [SLASH] path) segs Hsegs).
Qed.

(** X5: [PathUtils.normalize] is idempotent.  Its result is never empty,
    is absolute exactly when the input is, and consists of plain segments
    joined by single slashes: no empty segment, no [.], no [..]. *)
Theorem normalize_normal_form :
  forall path : jsstring,
    PathUtils.normalize (PathUtils.normalize path) = PathUtils.normalize path
    /\ PathUtils.normalize path <> []
    /\ starts_with [SLASH] (PathUtils.normalize path) = starts_with [SLASH] path
    /\ exists segs,
         forallb plain_segment segs = true
         /\ PathUtils.normalize path
            = (if starts_with [SLASH] path then [SLASH]
               else match segs with [] => [DOT] | _ => [] end)
              ++ join_with [SLASH] segs.
Proof.
  intros path. destruct (normalize_shape path) as (segs & Hsegs & E).
  destruct (normalize_of_shape (starts_with [SLASH] path) segs Hsegs) as (H1 & H2 & H3).
  rewrite <- E in H1, H2, H3.
  split; [exact H1|]. split; [exact H3|]. split; [exact H2|].
  exists segs. split; [|exact E].
  apply forallb_forall. intros seg Hin.
  rewrite Forall_forall in Hsegs. apply Hsegs. by apply list_elem_of_In.
Qed.

(** ** Validated paths *)

Lemma str_eqb_eq (a b : jsstring) : str_eqb a b = true <-> a = b.
Proof.
  revert b. induction a as [|x a IH]; intros [|y b]; cbn [str_eqb]; split;
    try discriminate; try reflexivity.
  - intros H. apply andb_true_iff in H as [Hx Hab].
    apply N.eqb_eq in Hx. apply IH in Hab. congruence.
  - intros [= -> ->]. rewrite N.eqb_refl. cbn. by apply IH.
Qed.

(** X6: a path that [validatePath] returns is in normal form and is an allowed
    root or lies below one; when it is absolute, validating it again (as the
    extractor does before each [mkdir]) returns it unchanged. *)
Theorem validatePath_result_revalidates :
  forall (import_meta_dir : jsstring) (v : PathValidator.t) (path : jsstring)
         (baseDir : option jsstring) (proc : Process) (n : jsstring),
    PathValidator.validatePath import_meta_dir v path baseDir proc = Returns n ->
    PathUtils.normalize n = n
    /\ (exists root,
          In root (PathValidator.resolvedAllowedPaths v)
          /\ (n = PathUtils.normalize root
              \/ starts_with (PathUtils.normalize root ++ [SLASH]) n = true))
    /\ (starts_with [SLASH] n = true ->
        forall proc', PathValidator.validatePath import_meta_dir v n None proc' = Returns n).
Proof.
  intros imd v path baseDir proc n H.
  apply validatePath_decision in H as [Hn (root & Hin & Hwithin)].
  assert (Hnorm : PathUtils.normalize n = n) by (rewrite Hn; apply normalize_idempotent).
  split; [exact Hnorm|]. split.
  - exists root. split; [exact Hin|].
    unfold PathValidator.within in Hwithin. apply orb_true_iff in Hwithin as [Hw|Hw].
    + by right.
    + left. by apply str_eqb_eq.
  - intros Habs proc'. apply validatePath_decision.
    unfold PathValidator.resolved. rewrite Habs. cbn [negb].
    split; [by rewrite Hnorm | eauto].
Qed.

Lemma validatePath_result_revalidates_witness :
  let here := {| process_cwd := js "/w" |} in
  let v := PathValidator.new [[DOT]] here in
  PathUtils.normalize (js "/w/out/ext") = js "/w/out/ext"
  /\ PathValidator.validatePath [] v (js "/w/out/ext") None here = Returns (js "/w/out/ext").
Proof.
  intros here v.
  destruct (validatePath_result_revalidates [] v (js "./out/x/../ext") None here
              (js "/w/out/ext") eq_refl) as (Hnorm & _ & Hagain).
  split; [exact Hnorm | exact (Hagain eq_refl here)].
Defined.

(** ** [PathUtils.dirname] *)

Lemma last_slash_aux_slash_free (i : nat) (found : option nat) (s : jsstring) :
  slash_free s = true -> PathUtils.last_slash_aux i found s = found.
Proof.
  revert i found. induction s as [|c s IH]; intros i found H; [reflexivity|].
  cbn [slash_free forallb] in H. apply andb_true_iff in H as [Hc Hs].
  apply negb_true_iff in Hc. cbn [PathUtils.last_slash_aux]. rewrite Hc. by apply IH.
Qed.

Lemma last_slash_aux_app (i : nat) (found : option nat) (dir base : jsstring) :
  slash_free base = true ->
  PathUtils.last_slash_aux i found (dir ++ SLASH :: base) = Some (i + length dir).
Proof.
  intros Hbase. revert i found. induction dir as [|c dir IH]; intros i found.
  - cbn [app PathUtils.last_slash_aux length]. change (is_slash SLASH) with true.
    rewrite last_slash_aux_slash_free by exact Hbase. f_equal. lia.
  - cbn [app PathUtils.last_slash_aux length]. rewrite IH. f_equal. lia.
Qed.

(** X7: [dirname] undoes the appending of a last segment.  For a segment
    without a slash, the directory of [dir/segment] is [dir] when [dir] is not
    empty, the directory of [/segment] is the root, and the directory of the
    bare segment is [.]. *)
Theorem dirname_of_child :
  forall (dir base : jsstring),
    slash_free base = true ->
    (dir <> [] -> PathUtils.dirname (dir ++ SLASH :: base) = dir)
    /\ PathUtils.dirname (SLASH :: base) = [SLASH]
    /\ PathUtils.dirname base = [DOT].
Proof.
  intros dir base Hbase. unfold PathUtils.dirname, PathUtils.lastIndexOf_slash.
  split; [|split].
  - intros Hdir. rewrite last_slash_aux_app by exact Hbase. cbn [Nat.add].
    destruct dir as [|c dir]; [congruence|]. cbn [length].
    change (S (length dir)) with (length (c :: dir)).
    apply take_app_length.
  - pose proof (last_slash_aux_app 0 None [] base Hbase) as E.
    cbn [app length] in E. rewrite E. reflexivity.
  - rewrite last_slash_aux_slash_free by exact Hbase. reflexivity.
Qed.

Lemma dirname_of_child_witness :
  PathUtils.dirname (js "/w/_extensions" ++ SLASH :: js "ext.crx") = js "/w/_extensions".
Proof.
  destruct (dirname_of_child (js "/w/_extensions") (js "ext.crx") eq_refl) as [H _].
  apply H. discriminate.
Defined.

(** ** The arguments of the command line *)

Lemma parse_step_outputDir (o : option jsstring) (l : LogLevel) (arg : jsstring) :
  (CLI.parse_step (o, l) arg).1
  = match o with
    | Some dir => Some dir
    | None => if positional arg then Some arg else None
    end.
Proof.
  unfold CLI.parse_step, positional. destruct arg as [|c arg]; [by destruct o|].
  destruct (str_eqb (c :: arg) (js "--debug")) eqn:Ed.
  { apply str_eqb_eq in Ed. rewrite Ed. by destruct o. }
  destruct (str_eqb (c :: arg) (js "--quiet")) eqn:Eq.
  { apply str_eqb_eq in Eq. rewrite Eq. by destruct o. }
  destruct o; [reflexivity|].
  change (str_eqb (c :: arg) []) with false. cbn [negb andb].
  by destruct (starts_with (js "--") (c :: arg)).
Qed.

Lemma parse_step_logLevel (acc : option jsstring * LogLevel) (arg : jsstring) :
  (CLI.parse_step acc arg).2
  = if level_flag arg
    then if str_eqb arg (js "--debug") then DEBUG else ERROR
    else acc.2.
Proof.
  destruct acc as [o l]. unfold CLI.parse_step, level_flag.
  destruct arg as [|c arg]; [reflexivity|].
  destruct (str_eqb (c :: arg) (js "--debug")); [reflexivity|].
  destruct (str_eqb (c :: arg) (js "--quiet")); [reflexivity|].
  cbn [orb]. destruct o; [reflexivity|]. by destruct (negb _).
Qed.

Lemma parse_fold_outputDir (rest : list jsstring) (o : option jsstring) (l : LogLevel) :
  (fold_left CLI.parse_step rest (o, l)).1
  = match o with Some dir => Some dir | None => find positional rest end.
Proof.
  revert o l. induction rest as [|arg rest IH]; intros o l; [by destruct o|].
  cbn [fold_left find].
  pose proof (parse_step_outputDir o l arg) as E.
  destruct (CLI.parse_step (o, l) arg) as [o' l']. cbn [fst] in E. subst o'.
  rewrite IH. destruct o; [reflexivity|]. by destruct (positional arg).
Qed.

Lemma parse_fold_logLevel (rest : list jsstring) (acc : option jsstring * LogLevel) :
  (fold_left CLI.parse_step rest acc).2
  = match find level_flag (rev rest) with
    | Some flag => if str_eqb flag (js "--debug") then DEBUG else ERROR
    | None => acc.2
    end.
Proof.
  induction rest as [|arg rest IH] using rev_ind; [reflexivity|].
  rewrite fold_left_app, rev_unit. cbn [fold_left find].
  rewrite parse_step_logLevel. destruct (level_flag arg); [reflexivity | exact IH].
Qed.

(** X8: how [runCLI] reads its arguments.  With [--help] anywhere the help
    is printed.  Otherwise the first argument is the input, the output
    directory is the first later argument that is not empty and does not start
    with two dashes (none when there is no such argument), and the log level is
    set by the last of the flags [--debug] and [--quiet], INFO without one. *)
Theorem parse_args_reading :
  forall (input : jsstring) (rest : list jsstring),
    input <> [] ->
    (In (js "--help") (input :: rest) -> CLI.parse_args (input :: rest) = CLI.Help)
    /\ (~ In (js "--help") (input :: rest) ->
        CLI.parse_args (input :: rest)
        = CLI.Extract input (find positional rest)
            match find level_flag (rev rest) with
            | Some flag => if str_eqb flag (js "--debug") then DEBUG else ERROR
            | None => INFO
            end).
Proof.
  intros input rest Hinput. unfold CLI.parse_args.
  change (Nat.eqb (length (input :: rest)) 0) with false. cbn [orb].
  destruct (existsb (fun a => str_eqb a (js "--help")) (input :: rest)) eqn:E.
  - split; [reflexivity|]. intros Hno. exfalso. apply Hno.
    apply existsb_exists in E as (a & Hin & Ha). apply str_eqb_eq in Ha. by subst a.
  - split.
    + intros Hin. exfalso.
      assert (existsb (fun a => str_eqb a (js "--help")) (input :: rest) = true) as E'.
      { apply existsb_exists. exists (js "--help"). split; [exact Hin | by apply str_eqb_eq]. }
      congruence.
    + intros _. destruct input as [|c input]; [congruence|].
      pose proof (parse_fold_outputDir rest None INFO) as Ho.
      pose proof (parse_fold_logLevel rest (None, INFO)) as Hl.
      destruct (fold_left CLI.parse_step rest (None, INFO)) as [o l].
      cbn [fst snd] in Ho, Hl. by subst o l.
Qed.

Lemma parse_args_reading_witness :
  CLI.parse_args [js "./my-extension.crx"; js "--quiet"; []; js "./output"; js "--debug";
                  js "./other"]
  = CLI.Extract (js "./my-extension.crx") (Some (js "./output")) DEBUG.
Proof.
  destruct (parse_args_reading (js "./my-extension.crx")
              [js "--quiet"; []; js "./output"; js "--debug"; js "./other"])
    as [_ H]; [discriminate|].
  apply H. cbn. intros Hin. repeat destruct Hin as [Hin|Hin]; try discriminate Hin. exact Hin.
Defined.

(** ** The manifest *)

Lemma Logger_warn_returns level message (s : State) :
  exists s', Logger.warn level message s = (Returns tt, s')
             /\ buffer s' = buffer s /\ extensionInfo s' = extensionInfo s
             /\ files s' = files s.
Proof.
  unfold Logger.warn. destruct (Logger.shouldLog level WARN); eexists; repeat split.
Qed.

Lemma Logger_error_returns level message (s : State) :
  exists s', Logger.error level message s = (Returns tt, s')
             /\ buffer s' = buffer s /\ extensionInfo s' = extensionInfo s
             /\ files s' = files s.
Proof.
  unfold Logger.error. destruct (Logger.shouldLog level ERROR); [|eexists; repeat split].
  destruct level; eexists; repeat split.
Qed.

(** What an accepted manifest has. *)
Lemma validateManifest_returns_inv (data : json) (fields : list (jsstring * json)) :
  ManifestValidator.validateManifest data = Returns fields ->
  data = JObject fields
  /\ exists c n v x,
       get_field (js "name") fields = Some (JString (c :: n))
       /\ trim (c :: n) <> []
       /\ get_field (js "version") fields = Some (JString v) /\ v <> []
       /\ get_field (js "manifest_version") fields = Some (JNumber x).
Proof.
  unfold ManifestValidator.validateManifest. intros H.
  destruct data as [| | | |items|manifest]; try discriminate.
  destruct (get_field (js "name") manifest) as [[| | |n| |]|] eqn:En; try discriminate.
  destruct (trim n) as [|t ts] eqn:Et; [discriminate|].
  destruct (get_field (js "version") manifest) as [[| | |[|v0 v]| |]|] eqn:Ev; try discriminate.
  destruct (get_field (js "manifest_version") manifest) as [[| |x| | |]|] eqn:Em;
    try discriminate.
  assert (fields = manifest) as ->.
  { destruct (get_field (js "description") manifest) as [[| | | | |]|]; try discriminate;
      (destruct (get_field (js "permissions") manifest) as [[| | | |items|]|];
       try discriminate; [destruct (forallb _ items); [|discriminate]|]; congruence). }
  split; [reflexivity|].
  destruct n as [|c n]; [discriminate|].
  exists c, n, (v0 :: v), x. rewrite Et. repeat split; congruence.
Qed.

(** X9: [readManifest] never throws and never changes a file or the loaded
    buffer.  It returns a manifest only when [manifest.json] exists in the
    output directory, parses to an object and has a non-blank string [name], a
    non-empty string [version] and a numeric [manifest_version]; the extension
    name is then the sanitized manifest name.  When it returns [null] the
    extension info is left as it was. *)
Theorem readManifest_outcome :
  forall (env : Env) (config : ExtractorConfig) (outputDir : jsstring) (s : State),
    exists r s',
      CRXExtractor.readManifest env config outputDir s = (Returns r, s')
      /\ files s' = files s
      /\ buffer s' = buffer s
      /\ (r = None -> extensionInfo s' = extensionInfo s)
      /\ (forall fields, r = Some fields ->
            exists content n v x,
              files s !! PathUtils.join [outputDir; js "manifest.json"] = Some content
              /\ json_parse env content = Some (JObject fields)
              /\ get_field (js "name") fields = Some (JString n) /\ trim n <> []
              /\ get_field (js "version") fields = Some (JString v) /\ v <> []
              /\ get_field (js "manifest_version") fields = Some (JNumber x)
              /\ extensionInfo s'
                 = {| id := id (extensionInfo s);
                      name := Some (PathValidator.sanitizeFilename n) |}).
Proof.
  intros env config outputDir s. unfold CRXExtractor.readManifest.
  unfold bind at 1. unfold get at 1.
  destruct (files s !! PathUtils.join [outputDir; js "manifest.json"]) as [content|] eqn:Efile.
  2: { destruct (Logger_warn_returns (logLevel config) "manifest.json not found" s)
         as (s1 & E1 & Hb & Hi & Hf).
       exists None, s1. unfold bind, CRXExtractor.logger_warn. rewrite E1.
       split; [reflexivity|]. split; [exact Hf|]. split; [exact Hb|].
       split; [intros _; exact Hi | intros fields [=]]. }
  assert (Hfail : forall s0,
             files s0 = files s -> buffer s0 = buffer s -> extensionInfo s0 = extensionInfo s ->
             exists s',
               bind (CRXExtractor.logger_error config "Failed to parse manifest")
                 (fun _ => ret (@None (list (jsstring * json)))) s0 = (Returns None, s')
               /\ files s' = files s /\ buffer s' = buffer s
               /\ extensionInfo s' = extensionInfo s).
  { intros s0 Hf0 Hb0 Hi0.
    destruct (Logger_error_returns (logLevel config) "Failed to parse manifest" s0)
      as (s1 & E1 & Hb & Hi & Hf).
    exists s1. unfold bind, CRXExtractor.logger_error. rewrite E1.
    repeat split; congruence. }
  unfold try_catch.
  destruct (json_parse env content) as [raw|] eqn:Eparse.
  2: { unfold bind at 1. unfold throw at 1.
       destruct (Hfail s) as (s' & E & Hf & Hb & Hi);
         try reflexivity.
       exists None, s'. rewrite E.
       split; [reflexivity|]. split; [exact Hf|]. split; [exact Hb|].
       split; [intros _; exact Hi | intros fields [=]]. }
  unfold bind at 1. unfold ret at 1. unfold bind at 1. unfold lift at 1.
  destruct (ManifestValidator.validateManifest raw) as [fields|e] eqn:Ev.
  2: { destruct (Hfail s) as (s' & E & Hf & Hb & Hi); try reflexivity.
       exists None, s'. rewrite E.
       split; [reflexivity|]. split; [exact Hf|]. split; [exact Hb|].
       split; [intros _; exact Hi | intros fields [=]]. }
  apply validateManifest_returns_inv in Ev as (-> & c & n & v & x & En & Et & Ever & Hv & Em).
  rewrite En. unfold bind at 1. unfold bind at 1. unfold modify at 1.
  match goal with
  | |- context [CRXExtractor.logger_debug config ?m ?d ?st] =>
      destruct (logger_debug_returns (logLevel config) m d st) as (s1 & E1 & Hb & _ & Hi & Hf);
      unfold CRXExtractor.logger_debug; rewrite E1
  end.
  exists (Some fields), s1. unfold bind, ret.
  split; [reflexivity|]. split; [exact Hf|]. split; [exact Hb|].
  split; [discriminate|].
  intros fields' [= <-]. exists content, (c :: n), v, x.
  repeat split; assumption.
Qed.

(** ** Creating directories *)

(** X10: [ensureDirectory] runs [mkdir -p] on the validated path and on
    nothing else.  A path that the validator rejects ends the call with the
    validator's security error before any command runs.  When [mkdir] fails
    the error is an extraction error that names the path as it was requested.
    No file changes, and nothing but console lines follows the command. *)
Theorem ensureDirectory_outcomes :
  forall (env : Env) (config : ExtractorConfig) (pathValidator : PathValidator.t)
         (path : jsstring) (s : State),
    match PathValidator.validatePath (import_meta_dir env) pathValidator path None (process s)
    with
    | Throws e =>
        e = SecurityError (Path_resolves_outside_allowed_directories path)
        /\ CRXExtractor.ensureDirectory env config pathValidator path s = (Throws e, s)
    | Returns valid =>
        exists s',
          CRXExtractor.ensureDirectory env config pathValidator path s
          = (if mkdir_p_ok env valid then Returns tt
             else Throws (ExtractionError (Failed_to_create_directory path)), s')
          /\ files s' = files s
          /\ exists after,
               effects s' = effects s ++ Shell_mkdir_p valid :: after
               /\ Forall (fun e => is_console e = true) after
    end.
Proof.
  intros env config pathValidator path s.
  destruct (PathValidator.validatePath _ _ _ _ _) as [valid|e] eqn:Ev.
  - unfold CRXExtractor.ensureDirectory, try_catch, CRXExtractor.validatePath.
    unfold bind at 1. unfold bind at 1. unfold get at 1. unfold lift at 1. rewrite Ev.
    unfold CRXExtractor.sh_mkdir_p, bind, perform, modify.
    destruct (mkdir_p_ok env valid).
    + unfold ret at 1. unfold CRXExtractor.logger_debug, Logger.debug.
      destruct (Logger.shouldLog (logLevel config) DEBUG).
      * eexists. split; [reflexivity|]. split; [reflexivity|].
        exists [Console DEBUG "Directory created"; Console DEBUG "  Data:"].
        split; [cbn; by rewrite <- !app_assoc | by repeat constructor].
      * eexists. split; [reflexivity|]. split; [reflexivity|].
        exists []. split; [reflexivity | constructor].
    + unfold throw. cbn [instanceof_SecurityError].
      eexists. split; [reflexivity|]. split; [reflexivity|].
      exists []. split; [reflexivity | constructor].
  - pose proof (validatePath_failure _ _ _ _ _ _ Ev) as ->. split; [reflexivity|].
    unfold CRXExtractor.ensureDirectory, try_catch, CRXExtractor.validatePath.
    unfold bind, get, lift. rewrite Ev. reflexivity.
Qed.

(** ** The errors of a run *)

Section Throws.
Variable E : exn -> Prop.

Lemma throws_only_ret {A} (a : A) : throws_only E (ret a).
Proof. intros s e s' [=]. Qed.

Lemma throws_only_throw {A} (e : exn) : E e -> throws_only E (@throw A e).
Proof. intros He s e' s' [= <- _]. exact He. Qed.

Lemma throws_only_lift {A} (r : result A) :
  (forall e, r = Throws e -> E e) -> throws_only E (lift r).
Proof. intros H s e s' [= -> _]. by apply H. Qed.

Lemma throws_only_get {A} (f : State -> A) : throws_only E (get f).
Proof. intros s e s' [=]. Qed.

Lemma throws_only_modify (f : State -> State) : throws_only E (modify f).
Proof. intros s e s' [=]. Qed.

Lemma throws_only_bind {A B} (m : M A) (k : A -> M B) :
  throws_only E m -> (forall a, throws_only E (k a)) -> throws_only E (bind m k).
Proof.
  intros Hm Hk s e s'. unfold bind. destruct (m s) as [[a|e0] s1] eqn:Em.
  - apply Hk.
  - intros [= <- _]. exact (Hm _ _ _ Em).
Qed.

Lemma throws_only_try_catch {A} (E0 : exn -> Prop) (body : M A) (handler : exn -> M A) :
  throws_only E0 body -> (forall e, E0 e -> throws_only E (handler e)) ->
  throws_only E (try_catch body handler).
Proof.
  intros Hb Hh s e s'. unfold try_catch. destruct (body s) as [[a|e0] s1] eqn:Eb.
  - intros [=].
  - apply Hh. exact (Hb _ _ _ Eb).
Qed.

Lemma throws_only_try_finally {A} (body : M A) (cleanup : M unit) :
  throws_only E body -> throws_only E cleanup -> throws_only E (try_finally body cleanup).
Proof.
  intros Hb Hc s e s'. unfold try_finally. destruct (body s) as [r s1] eqn:Eb.
  destruct (cleanup s1) as [[[]|e1] s2] eqn:Ec.
  - intros [= -> _]. exact (Hb _ _ _ Eb).
  - intros [= <- _]. exact (Hc _ _ _ Ec).
Qed.
End Throws.

Lemma throws_only_anything {A} (m : M A) : throws_only (fun _ => True) m.
Proof. intros s e s' _. exact I. Qed.

Create HintDb throws.

(** Breaks a method body down to its primitive steps, by its syntax; a
    [try]/[catch] is left to the proof, which says what the body can throw. *)
Ltac throws_step :=
  lazymatch goal with
  | |- throws_only _ (ret _) => refine (throws_only_ret _ _)
  | |- throws_only _ (throw _) =>
      refine (throws_only_throw _ _ _); cbv beta;
      first [reflexivity | assumption | solve [auto]]
  | |- throws_only _ (get _) => refine (throws_only_get _ _)
  | |- throws_only _ (modify _) => refine (throws_only_modify _ _)
  | |- throws_only _ (perform _) => refine (throws_only_modify _ _)
  | |- throws_only _ (bind _ _) => refine (throws_only_bind _ _ _ _ _); [|intros ?; cbv beta]
  | |- throws_only _ (try_finally _ _) => refine (throws_only_try_finally _ _ _ _ _)
  | |- throws_only _ (try_catch _ _) => fail
  | |- throws_only _ (if ?b then _ else _) => destruct b eqn:?
  | |- throws_only _ (match ?x with _ => _ end) => destruct x eqn:?
  | |- throws_only _ _ => solve [auto with throws]
  end.

Ltac throws_steps := repeat throws_step.

Lemma Logger_debug_never_throws E level message data :
  throws_only E (Logger.debug level message data).
Proof. unfold Logger.debug. throws_steps. Qed.

Lemma Logger_info_never_throws E level message : throws_only E (Logger.info level message).
Proof. unfold Logger.info. throws_steps. Qed.

Lemma Logger_warn_never_throws E level message : throws_only E (Logger.warn level message).
Proof. unfold Logger.warn. throws_steps. Qed.

Lemma Logger_error_never_throws E level message : throws_only E (Logger.error level message).
Proof. unfold Logger.error. throws_steps. Qed.

Lemma logger_debug_never_throws E config message data :
  throws_only E (CRXExtractor.logger_debug config message data).
Proof. apply Logger_debug_never_throws. Qed.

Lemma logger_info_never_throws E config message :
  throws_only E (CRXExtractor.logger_info config message).
Proof. apply Logger_info_never_throws. Qed.

Lemma logger_warn_never_throws E config message :
  throws_only E (CRXExtractor.logger_warn config message).
Proof. apply Logger_warn_never_throws. Qed.

Lemma logger_error_never_throws E config message :
  throws_only E (CRXExtractor.logger_error config message).
Proof. apply Logger_error_never_throws. Qed.

#[local] Hint Resolve Logger_debug_never_throws Logger_info_never_throws
  Logger_warn_never_throws Logger_error_never_throws logger_debug_never_throws
  logger_info_never_throws logger_warn_never_throws logger_error_never_throws : throws.

(** ** The outcomes of [extractZip] *)

Lemma Bun_write_file_returns_inv env path data (s s' : State) :
  CRXExtractor.Bun_write_file env path data s = (Returns tt, s') ->
  write_ok env path = true
  /\ s' = set_files (<[path := data]> (files s)) (add_effect (Bun_write path data) s).
Proof.
  unfold CRXExtractor.Bun_write_file, bind, perform, modify, throw.
  destruct (write_ok env path); [|discriminate]. intros [= <-]. by split.
Qed.

Lemma logger_info_state config message (s : State) :
  exists s', CRXExtractor.logger_info config message s = (Returns tt, s')
             /\ files s' = files s.
Proof.
  exists (CRXExtractor.logger_info config message s).2.
  split; [apply logger_info_returns | apply logger_info_same_files].
Qed.

Lemma logger_debug_state config message data (s : State) :
  exists s', CRXExtractor.logger_debug config message data s = (Returns tt, s')
             /\ files s' = files s.
Proof.
  exists (CRXExtractor.logger_debug config message data s).2.
  split; [apply logger_debug_run | apply logger_debug_same_files].
Qed.

(** A gate that lets the staged archive through has read its listing and
    found it within the limits. *)
Lemma validateZipSecurity_returns_inv env config zipPath data (s s' : State) :
  files s !! zipPath = Some data ->
  CRXExtractor.validateZipSecurity env config zipPath s = (Returns tt, s') ->
  files s' = files s
  /\ exists u n,
       unzip_l env data = Some (u, n)
       /\ CRXExtractor.checkZipInfo config
            {| fileCount := n; uncompressedSize := u;
               compressedSize := number_of_nat (length data) |}
          = Returns tt.
Proof.
  intros Hfile H. unfold CRXExtractor.validateZipSecurity in H.
  apply bind_returns_inv in H as (info & s1 & Hinfo & H).
  unfold CRXExtractor.getZipInfo in Hinfo.
  apply try_catch_returns_inv in Hinfo as [Hinfo|(e & s0 & _ & Hinfo)].
  2: { apply bind_returns_inv in Hinfo as (? & ? & _ & Hinfo). discriminate. }
  unfold bind, perform, modify, get in Hinfo. cbn [files add_effect] in Hinfo.
  rewrite Hfile in Hinfo.
  destruct (unzip_l env data) as [[u n]|] eqn:Hlist; [|discriminate].
  injection Hinfo as <- <-.
  apply bind_returns_inv in H as ([] & s2 & Hdebug & H).
  destruct (logger_debug_state config "ZIP info retrieved" true
              (add_effect (Shell_unzip_l zipPath) s)) as (s2' & Hdebug' & Hf2).
  rewrite Hdebug' in Hdebug. injection Hdebug as ->.
  apply bind_returns_inv in H as ([] & s3 & Hcheck & H).
  unfold lift in Hcheck. injection Hcheck as Hcheck <-.
  destruct (logger_info_state config "ZIP security validation passed" s2) as (s4 & Hinfo & Hf4).
  rewrite Hinfo in H. injection H as <-.
  split; [by rewrite Hf4, Hf2|]. exists u, n. by split.
Qed.

Lemma sh_unzip_returns_inv env zipPath dir data exitCode (s s' : State) :
  files s !! zipPath = Some data ->
  CRXExtractor.sh_unzip env zipPath dir s = (Returns exitCode, s') ->
  (unzip env data).1 = Sh_exit exitCode.
Proof.
  intros Hfile. unfold CRXExtractor.sh_unzip, bind, perform, modify, get, throw, ret.
  cbn [files add_effect]. rewrite Hfile.
  destruct (unzip env data) as [[code|] entries]; [|discriminate].
  by intros [= -> _].
Qed.

Lemma cleanup_never_throws env config dir (s : State) :
  exists s',
    try_catch (CRXExtractor.sh_rm_rf env dir)
      (fun _ => CRXExtractor.logger_warn config "Failed to clean up temp directory") s
    = (Returns tt, s')
    /\ extends_effects s s'.
Proof.
  exists (try_catch (CRXExtractor.sh_rm_rf env dir)
            (fun _ => CRXExtractor.logger_warn config "Failed to clean up temp directory") s).2.
  split.
  - unfold try_catch, CRXExtractor.sh_rm_rf, bind, perform, modify, throw.
    destruct (rm_rf_ok env dir); [reflexivity|].
    unfold CRXExtractor.logger_warn, Logger.warn.
    destruct (Logger.shouldLog (logLevel config) WARN); reflexivity.
  - revert s.
    change (respects extends_effects
              (try_catch (CRXExtractor.sh_rm_rf env dir)
                 (fun _ => CRXExtractor.logger_warn config
                             "Failed to clean up temp directory"))).
    respects_steps.
Qed.

(** How a call of [extractZip] can end. *)
Lemma extractZip_inv env config pathValidator zipData outputDir (s s' : State) r :
  CRXExtractor.extractZip env config pathValidator zipData outputDir s = (r, s') ->
  match r with
  | Returns _ =>
      write_ok env (PathUtils.join [CRXExtractor.tempDir_of env outputDir; js "archive.zip"])
      = true
      /\ (unzip env zipData).1 = Sh_exit 0
      /\ exists u n,
           unzip_l env zipData = Some (u, n)
           /\ CRXExtractor.checkZipInfo config
                {| fileCount := n; uncompressedSize := u;
                   compressedSize := number_of_nat (length zipData) |}
              = Returns tt
  | Throws e =>
      (e = ExtractionError
             (Extraction_failed_ZIP_saved_to (CRXExtractor.fallbackPath_of outputDir))
       /\ write_ok env (CRXExtractor.fallbackPath_of outputDir) = true
       /\ In (Bun_write (CRXExtractor.fallbackPath_of outputDir) zipData) (effects s'))
      \/ (e = OtherError false Runtime_failure
          /\ write_ok env (CRXExtractor.fallbackPath_of outputDir) = false)
  end.
Proof.
  unfold CRXExtractor.extractZip.
  set (tempDir := CRXExtractor.tempDir_of env outputDir).
  set (zipPath := PathUtils.join [tempDir; js "archive.zip"]).
  set (fallbackPath := CRXExtractor.fallbackPath_of outputDir).
  unfold try_finally.
  match goal with
  | |- context [try_catch ?b ?h s] => set (body := b); set (handler := h)
  end.
  destruct (try_catch body handler s) as [r0 s1] eqn:Eb.
  destruct (cleanup_never_throws env config tempDir s1) as (s2 & Ec & Hext).
  rewrite Ec. intros [= <- <-].
  destruct r0 as [[]|e].
  - apply try_catch_returns_inv in Eb as [Hb|(e & s0 & _ & Hh)].
    2: { subst handler. cbv beta in Hh.
         apply bind_returns_inv in Hh as (? & ? & _ & Hh).
         apply bind_returns_inv in Hh as (? & ? & _ & Hh). discriminate. }
    subst body.
    apply bind_returns_inv in Hb as ([] & s3 & _ & Hb).
    apply bind_returns_inv in Hb as ([] & s4 & Hw & Hb).
    apply Bun_write_file_returns_inv in Hw as [Hok ->].
    apply bind_returns_inv in Hb as ([] & s5 & Hdebug & Hb).
    match type of Hdebug with
    | CRXExtractor.logger_debug ?c ?m ?d ?st = _ =>
        destruct (logger_debug_state c m d st) as (s5' & Hdebug' & Hf5)
    end.
    rewrite Hdebug' in Hdebug. injection Hdebug as ->.
    assert (Hstaged : files s5 !! zipPath = Some zipData).
    { rewrite Hf5. cbn [files set_files]. apply lookup_insert_eq. }
    apply bind_returns_inv in Hb as ([] & s6 & Hgate & Hb).
    apply (validateZipSecurity_returns_inv _ _ _ _ _ _ Hstaged) in Hgate
      as (Hf6 & u & n & Hlist & Hcheck).
    apply bind_returns_inv in Hb as (exitCode & s7 & Hunzip & Hb).
    rewrite <- Hf6 in Hstaged.
    apply (sh_unzip_returns_inv _ _ _ _ _ _ _ Hstaged) in Hunzip.
    destruct (Z.eqb_spec exitCode 0) as [->|_]; [|discriminate].
    split; [exact Hok|]. split; [exact Hunzip|]. exists u, n. by split.
  - unfold try_catch in Eb. destruct (body s) as [[[]|e0] s0]; [discriminate|].
    subst handler. cbv beta in Eb.
    rewrite (bind_run_returns _ _ _ _ tt (logger_error_returns config _ s0)) in Eb.
    unfold bind at 1 in Eb.
    unfold CRXExtractor.Bun_write_file at 1 in Eb.
    unfold bind, perform, modify, throw in Eb.
    fold fallbackPath in Eb.
    destruct (write_ok env fallbackPath).
    + injection Eb as <- <-. left. split; [reflexivity|]. split; [reflexivity|].
      destruct Hext as [added ->]. apply in_or_app. left.
      cbn [effects set_files add_effect]. apply in_or_app. right. by left.
    + injection Eb as <- _. right. by split.
Qed.

(** X11: how [extractZip] can end.  It returns only when the archive was
    staged, its listing passed the three checks of the security gate and
    [unzip] ended with exit code 0.  Every error it throws is the extraction
    error that names the fallback file, thrown after the payload was written
    there, or the failure of that write; an error of the gate, of [unzip] or
    of staging never leaves it as it was. *)
Theorem extractZip_outcomes :
  forall (env : Env) (config : ExtractorConfig) (pathValidator : PathValidator.t)
         (zipData : bytes) (outputDir : jsstring) (s : State),
    exists r s',
      CRXExtractor.extractZip env config pathValidator zipData outputDir s = (r, s')
      /\ match r with
         | Returns _ =>
             (unzip env zipData).1 = Sh_exit 0
             /\ exists u n,
                  unzip_l env zipData = Some (u, n)
                  /\ CRXExtractor.checkZipInfo config
                       {| fileCount := n; uncompressedSize := u;
                          compressedSize := number_of_nat (length zipData) |}
                     = Returns tt
         | Throws e =>
             instanceof_SecurityError e = false
             /\ ((e = ExtractionError
                        (Extraction_failed_ZIP_saved_to (CRXExtractor.fallbackPath_of outputDir))
                  /\ In (Bun_write (CRXExtractor.fallbackPath_of outputDir) zipData)
                       (effects s'))
                 \/ (e = OtherError false Runtime_failure
                     /\ write_ok env (CRXExtractor.fallbackPath_of outputDir) = false))
         end.
Proof.
  intros env config pathValidator zipData outputDir s.
  destruct (CRXExtractor.extractZip env config pathValidator zipData outputDir s)
    as [r s'] eqn:E.
  exists r, s'. split; [reflexivity|].
  apply extractZip_inv in E. destruct r as [[]|e].
  - destruct E as (_ & Hexit & Hgate). by split.
  - destruct E as [(-> & _ & Hin)|(-> & Hw)].
    + split; [reflexivity|]. left. by split.
    + split; [reflexivity|]. right. by split.
Qed.

(** ** Runs that add only effects of one kind *)

#[local] Instance adds_only_preorder (P : effect -> bool) : PreOrder (adds_only P).
Proof.
  split.
  - intros s. exists []. split; [by rewrite app_nil_r | constructor].
  - intros a b c (k1 & E1 & Q1) (k2 & E2 & Q2). exists (k1 ++ k2).
    split; [by rewrite E2, E1, app_assoc | by apply Forall_app].
Qed.

Lemma perform_adds_only (P : effect -> bool) (e : effect) :
  P e = true -> respects (adds_only P) (perform e).
Proof. intros He s. exists [e]. split; [reflexivity | by constructor]. Qed.

Lemma modify_adds_only (P : effect -> bool) (f : State -> State) :
  (forall s, effects (f s) = effects s) -> respects (adds_only P) (modify f).
Proof.
  intros Hf s. exists []. split; [cbn; by rewrite Hf, app_nil_r | constructor].
Qed.

Section LoggerAddsOnly.
Variable P : effect -> bool.
Hypothesis console_allowed : forall level text, P (Console level text) = true.

Lemma Logger_debug_adds_only level message data :
  respects (adds_only P) (Logger.debug level message data).
Proof.
  unfold Logger.debug. respects_steps; apply perform_adds_only, console_allowed.
Qed.

Lemma Logger_info_adds_only level message : respects (adds_only P) (Logger.info level message).
Proof.
  unfold Logger.info. respects_steps; apply perform_adds_only, console_allowed.
Qed.

Lemma Logger_warn_adds_only level message : respects (adds_only P) (Logger.warn level message).
Proof.
  unfold Logger.warn. respects_steps; apply perform_adds_only, console_allowed.
Qed.

Lemma Logger_error_adds_only level message :
  respects (adds_only P) (Logger.error level message).
Proof.
  unfold Logger.error. respects_steps; apply perform_adds_only, console_allowed.
Qed.
End LoggerAddsOnly.

#[local] Hint Extern 1 (unpacks_nothing _ = true) => reflexivity : respects.
#[local] Hint Extern 1 (offline _ = true) => reflexivity : respects.
#[local] Hint Extern 1 (effects _ = effects _) => reflexivity : respects.
#[local] Hint Resolve perform_adds_only modify_adds_only Logger_debug_adds_only
  Logger_info_adds_only Logger_warn_adds_only Logger_error_adds_only : respects.

(** A run, step by step, with what the earlier steps returned. *)
Lemma run_bind (R : relation State) `{!PreOrder R} {A B} (m : M A) (k : A -> M B)
    (s : State) :
  R s (m s).2 ->
  (forall a s1, m s = (Returns a, s1) -> R s1 (k a s1).2) ->
  R s (bind m k s).2.
Proof.
  intros Hm Hk. unfold bind. destruct (m s) as [[a|e] s1] eqn:E; cbn [snd] in *.
  - transitivity s1; [exact Hm | by apply Hk].
  - exact Hm.
Qed.

Lemma run_try_catch (R : relation State) `{!PreOrder R} {A} (body : M A)
    (handler : exn -> M A) (s : State) :
  R s (body s).2 -> (forall e, respects R (handler e)) -> R s (try_catch body handler s).2.
Proof.
  intros Hb Hh. unfold try_catch. destruct (body s) as [[a|e] s1]; cbn [snd] in *.
  - exact Hb.
  - transitivity s1; [exact Hb | apply Hh].
Qed.

(** X12: the payload is unpacked only after the security gate let it
    through.  When the listing of the payload does not pass the three checks
    (or cannot be read), a call of [extractZip] runs neither the unpacking
    [unzip] nor the [mv] into the output directory, however it ends. *)
Theorem payload_unpacked_only_after_gate :
  forall (env : Env) (config : ExtractorConfig) (pathValidator : PathValidator.t)
         (zipData : bytes) (outputDir : jsstring) (s : State),
    (forall u n,
        unzip_l env zipData = Some (u, n) ->
        CRXExtractor.checkZipInfo config
          {| fileCount := n; uncompressedSize := u;
             compressedSize := number_of_nat (length zipData) |}
        <> Returns tt) ->
    adds_only unpacks_nothing s
      (CRXExtractor.extractZip env config pathValidator zipData outputDir s).2.
Proof.
  intros env config pathValidator zipData outputDir s Hgate.
  unfold CRXExtractor.extractZip.
  set (tempDir := CRXExtractor.tempDir_of env outputDir).
  set (zipPath := PathUtils.join [tempDir; js "archive.zip"]).
  rewrite try_finally_state.
  match goal with
  | |- adds_only _ _ (?cleanup (try_catch ?body ?handler s).2).2 =>
      transitivity (try_catch body handler s).2;
      [ apply run_try_catch; [apply _ | | intros e]
      | assert (Hc : respects (adds_only unpacks_nothing) cleanup); [|apply Hc] ]
  end.
  - apply run_bind; [apply _ | | intros [] s1 _].
    { assert (H : respects (adds_only unpacks_nothing)
                    (CRXExtractor.ensureDirectory env config pathValidator tempDir)).
      { unfold CRXExtractor.ensureDirectory, CRXExtractor.validatePath,
          CRXExtractor.sh_mkdir_p, CRXExtractor.logger_debug.
        respects_steps. }
      apply H. }
    apply run_bind; [apply _ | | intros [] s2 Hw].
    { assert (H : respects (adds_only unpacks_nothing)
                    (CRXExtractor.Bun_write_file env zipPath zipData)).
      { unfold CRXExtractor.Bun_write_file. respects_steps. }
      apply H. }
    apply Bun_write_file_returns_inv in Hw as [_ ->].
    apply run_bind; [apply _ | | intros [] s3 Hdebug].
    { apply Logger_debug_adds_only. reflexivity. }
    match type of Hdebug with
    | CRXExtractor.logger_debug ?c ?m ?d ?st = _ =>
        destruct (logger_debug_state c m d st) as (s3' & Hdebug' & Hf3)
    end.
    rewrite Hdebug' in Hdebug. injection Hdebug as ->.
    assert (Hstaged : files s3 !! zipPath = Some zipData).
    { rewrite Hf3. cbn [files set_files]. apply lookup_insert_eq. }
    apply run_bind; [apply _ | | intros [] s4 Hpass].
    { assert (H : respects (adds_only unpacks_nothing)
                    (CRXExtractor.validateZipSecurity env config zipPath)).
      { unfold CRXExtractor.validateZipSecurity, CRXExtractor.getZipInfo,
          CRXExtractor.logger_debug, CRXExtractor.logger_info, CRXExtractor.logger_error.
        respects_steps. }
      apply H. }
    exfalso.
    apply (validateZipSecurity_returns_inv _ _ _ _ _ _ Hstaged) in Hpass
      as (_ & u & n & Hlist & Hcheck).
    exact (Hgate u n Hlist Hcheck).
  - unfold CRXExtractor.Bun_write_file, CRXExtractor.logger_error. respects_steps.
  - unfold CRXExtractor.sh_rm_rf, CRXExtractor.logger_warn. respects_steps.
Qed.

Lemma payload_unpacked_only_after_gate_witness :
  CRXExtractor.checkZipInfo DEFAULT_CONFIG
    {| fileCount := 1; uncompressedSize := 1000;
       compressedSize := number_of_nat (length (Samples.bytes_of [0x50; 0x4b; 7]%N)) |}
  = Throws (SecurityError Suspicious_compression_ratio)
  /\ adds_only unpacks_nothing Samples.world
       (CRXExtractor.extractZip Samples.bomb_env DEFAULT_CONFIG
          (PathValidator.new [[DOT]] {| process_cwd := js "/w" |})
          (Samples.bytes_of [0x50; 0x4b; 7]%N) (js "/w/_extensions/ext") Samples.world).2.
Proof.
  split; [vm_compute; reflexivity|].
  apply payload_unpacked_only_after_gate.
  intros u n [= <- <-]. vm_compute. discriminate.
Defined.

(** ** The extension id in the input *)

Lemma take_window (w post : jsstring) (n : nat) : length w = n -> take n (w ++ post) = w.
Proof. intros <-. apply take_app_length. Qed.

(** X13: [findExtensionId] searches with [match_extension_id], which finds
    the leftmost run of 32 lowercase letters in the input.  A found id is a
    piece of the input of that form, and no piece of that form starts further
    left; nothing is found only when the input has no such piece. *)
Theorem match_extension_id_leftmost :
  forall s : jsstring,
    match match_extension_id s with
    | Some found =>
        length found = 32
        /\ forallb is_lower found = true
        /\ exists before after,
             s = before ++ found ++ after
             /\ forall before' piece after',
                  s = before' ++ piece ++ after' ->
                  length piece = 32 -> forallb is_lower piece = true ->
                  length before <= length before'
    | None =>
        forall before' piece after',
          s = before' ++ piece ++ after' ->
          length piece = 32 -> forallb is_lower piece = true -> False
    end.
Proof.
  induction s as [|c s IH].
  - cbn [match_extension_id]. intros before' piece after' E Hlen _.
    symmetry in E. apply app_eq_nil in E as [_ E]. apply app_eq_nil in E as [-> _].
    discriminate.
  - cbn [match_extension_id].
    destruct (Nat.eqb (length (take 32 (c :: s))) 32 && forallb is_lower (take 32 (c :: s)))
      eqn:Ehere.
    + apply andb_true_iff in Ehere as [Hlen Hlow]. apply Nat.eqb_eq in Hlen.
      split; [exact Hlen|]. split; [exact Hlow|].
      exists [], (drop 32 (c :: s)). split; [cbn [app]; by rewrite take_drop|].
      intros; cbn [length]; lia.
    + assert (Hnot : forall piece after',
                 c :: s = piece ++ after' -> length piece = 32 ->
                 forallb is_lower piece = true -> False).
      { intros piece after' E Hlen Hlow. rewrite E, (take_window _ _ _ Hlen) in Ehere.
        rewrite Hlen, Hlow in Ehere. discriminate. }
      destruct (match_extension_id s) as [found|].
      * destruct IH as (Hlen & Hlow & before & after & E & Hleft).
        split; [exact Hlen|]. split; [exact Hlow|].
        exists (c :: before), after. split; [by rewrite E|].
        intros [|c' before'] piece after' E' Hlen' Hlow'.
        { exfalso. exact (Hnot piece after' E' Hlen' Hlow'). }
        injection E' as _ E'. cbn [length].
        apply le_n_S. exact (Hleft before' piece after' E' Hlen' Hlow').
      * intros [|c' before'] piece after' E' Hlen' Hlow'.
        { exact (Hnot piece after' E' Hlen' Hlow'). }
        injection E' as _ E'. exact (IH before' piece after' E' Hlen' Hlow').
Qed.

(** ** Downloads *)

Lemma Logger_info_state level message (s : State) :
  exists s', Logger.info level message s = (Returns tt, s')
             /\ buffer s' = buffer s /\ extensionInfo s' = extensionInfo s
             /\ files s' = files s.
Proof.
  unfold Logger.info. destruct (Logger.shouldLog level INFO); eexists; repeat split.
Qed.

(** The magic number is the four characters [Cr24]. *)
Lemma magic_bytes (buf : bytes) :
  CRXExtractor.readUInt32LEAt buf 0 = Returns CRX_MAGIC ->
  byte_at buf 0 = 0x43%Z /\ byte_at buf 1 = 0x72%Z
  /\ byte_at buf 2 = 0x32%Z /\ byte_at buf 3 = 0x34%Z.
Proof.
  intros H.
  pose proof (readUInt32LEAt_returns_inv _ _ _ H) as [Hlen _].
  rewrite (readUInt32LEAt_little_endian buf 0 Hlen) in H. injection H as H.
  change (0 + 1)%Z with 1%Z in H. change (0 + 2)%Z with 2%Z in H.
  change (0 + 3)%Z with 3%Z in H.
  pose proof (byte_at_range buf 0). pose proof (byte_at_range buf 1).
  pose proof (byte_at_range buf 2). pose proof (byte_at_range buf 3).
  unfold CRX_MAGIC in H. pow2_numerals. lia.
Qed.

(** X14: what [downloadFromWebStore] returns.  The id has the form of an
    extension id, the response to the request for that id was successful, was
    not declared as HTML and delivered the returned bytes; these are at least
    8 bytes that start with the characters [Cr24].  The extension info names
    the id, and neither the disk nor the extractor's buffer has changed. *)
Theorem downloaded_buffer_is_crx :
  forall (env : Env) (config : ExtractorConfig) (extensionId : jsstring)
         (s s' : State) (downloaded : bytes),
    CRXExtractor.downloadFromWebStore env config extensionId s = (Returns downloaded, s') ->
    (length extensionId = 32 /\ forallb is_lower extensionId = true)
    /\ (exists contentType,
          fetch env (CRXExtractor.downloadUrl extensionId)
          = Fetch_response true contentType (Body_bytes downloaded)
          /\ forall declared,
               contentType = Some declared -> includes (js "text/html") declared = false)
    /\ 8 <= length downloaded
    /\ (byte_at downloaded 0 = 0x43%Z /\ byte_at downloaded 1 = 0x72%Z
        /\ byte_at downloaded 2 = 0x32%Z /\ byte_at downloaded 3 = 0x34%Z)
    /\ extensionInfo s' = {| id := Some extensionId; name := Some extensionId |}
    /\ files s' = files s
    /\ buffer s' = buffer s.
Proof.
  intros env config extensionId s s' downloaded H.
  unfold CRXExtractor.downloadFromWebStore in H.
  destruct (Nat.eqb (length extensionId) 32 && forallb is_lower extensionId) eqn:Eid;
    cbn [negb] in H; [|discriminate].
  apply andb_true_iff in Eid as [Hlen Hlow]. apply Nat.eqb_eq in Hlen.
  apply bind_returns_inv in H as ([] & s1 & H1 & H). unfold modify in H1. injection H1 as <-.
  apply bind_returns_inv in H as ([] & s2 & H2 & H).
  match type of H2 with
  | CRXExtractor.logger_info ?c ?m ?st = _ =>
      destruct (Logger_info_state (logLevel c) m st) as (s2' & E2 & Hb2 & Hi2 & Hf2)
  end.
  unfold CRXExtractor.logger_info in H2. rewrite E2 in H2. injection H2 as ->.
  apply bind_returns_inv in H as ([] & s3 & H3 & H).
  destruct (logger_debug_returns (logLevel config) "Download URL constructed" true s2)
    as (s3' & E3 & Hb3 & _ & Hi3 & Hf3).
  unfold CRXExtractor.logger_debug in H3. rewrite E3 in H3. injection H3 as ->.
  apply try_catch_returns_inv in H as [H|(e & s4 & _ & H)];
    [|destruct (is_AbortError e); discriminate].
  apply bind_returns_inv in H as ([] & s4 & H4 & H).
  unfold perform, modify in H4. injection H4 as <-.
  destruct (fetch env (CRXExtractor.downloadUrl extensionId)) as [abort|ok contentType body]
    eqn:Efetch; [discriminate|].
  destruct ok; cbn [negb] in H; [|discriminate].
  destruct (match contentType with
            | Some ct => includes (js "text/html") ct
            | None => false
            end) eqn:Ehtml; [discriminate|].
  destruct body as [b|abort]; [|discriminate].
  apply bind_returns_inv in H as ([] & s5 & H5 & H).
  match type of H5 with
  | CRXExtractor.logger_info ?c ?m ?st = _ =>
      destruct (Logger_info_state (logLevel c) m st) as (s5' & E5 & Hb5 & Hi5 & Hf5)
  end.
  unfold CRXExtractor.logger_info in H5. rewrite E5 in H5. injection H5 as ->.
  destruct (Nat.ltb_spec (length b) 8) as [|Hsize]; [discriminate|].
  apply bind_returns_inv in H as (magic & s6 & H6 & H).
  unfold lift in H6. injection H6 as Hmagic <-.
  destruct (Z.eqb_spec magic CRX_MAGIC) as [->|]; cbn [negb] in H; [|discriminate].
  injection H as <- <-.
  split; [by split|]. split.
  { exists contentType. split; [reflexivity|]. intros declared ->. exact Ehtml. }
  split; [exact Hsize|]. split; [by apply magic_bytes|].
  split; [rewrite Hi5; cbn [extensionInfo add_effect]; rewrite Hi3, Hi2; reflexivity|].
  split.
  - rewrite Hf5. cbn [files add_effect]. rewrite Hf3, Hf2. reflexivity.
  - rewrite Hb5. cbn [buffer add_effect]. rewrite Hb3, Hb2. reflexivity.
Qed.

Lemma downloaded_buffer_is_crx_witness :
  8 <= length Samples.crx_v3
  /\ byte_at Samples.crx_v3 0 = 0x43%Z
  /\ fetch Samples.online_env (CRXExtractor.downloadUrl Samples.some_id)
     = Fetch_response true (Some (js "application/x-chrome-extension"))
         (Body_bytes Samples.crx_v3).
Proof.
  assert (Hrun : CRXExtractor.downloadFromWebStore Samples.online_env DEFAULT_CONFIG
                   Samples.some_id Samples.world
                 = (Returns Samples.crx_v3,
                    (CRXExtractor.downloadFromWebStore Samples.online_env DEFAULT_CONFIG
                       Samples.some_id Samples.world).2))
    by (vm_compute; reflexivity).
  destruct (downloaded_buffer_is_crx _ _ _ _ _ _ Hrun) as (_ & _ & Hsize & (Hfirst & _) & _).
  split; [exact Hsize|]. split; [exact Hfirst | reflexivity].
Defined.

(** ** The errors that leave [extract] *)

Lemma readUInt32LEAt_throws_inv (buf : bytes) (o : Z) (e : exn) :
  CRXExtractor.readUInt32LEAt buf o = Throws e ->
  e = ValidationError Buffer_underrun_while_reading_UInt32LE.
Proof.
  unfold CRXExtractor.readUInt32LEAt. destruct (_ <? _)%Z; congruence.
Qed.

Lemma lift_readUInt32LEAt_reported (buf : bytes) (o : Z) :
  throws_only (fun e => reported e = true) (lift (CRXExtractor.readUInt32LEAt buf o)).
Proof.
  apply throws_only_lift. intros e He. apply readUInt32LEAt_throws_inv in He as ->.
  reflexivity.
Qed.

Lemma validatePath_reported env pathValidator path :
  throws_only (fun e => reported e = true) (CRXExtractor.validatePath env pathValidator path).
Proof.
  unfold CRXExtractor.validatePath. throws_steps.
  apply throws_only_lift. intros e He. apply validatePath_failure in He as ->. reflexivity.
Qed.

#[local] Hint Resolve lift_readUInt32LEAt_reported validatePath_reported : throws.

Lemma findExtensionId_reported input config :
  throws_only (fun e => reported e = true) (CRXExtractor.findExtensionId input config).
Proof. unfold CRXExtractor.findExtensionId. throws_steps. Qed.

Lemma downloadFromWebStore_reported env config extensionId :
  throws_only (fun e => reported e = true)
    (CRXExtractor.downloadFromWebStore env config extensionId).
Proof.
  unfold CRXExtractor.downloadFromWebStore. throws_steps.
  apply (throws_only_try_catch _ (fun e => reported e = true \/ is_AbortError e = true)).
  - throws_steps.
    all: try (apply throws_only_throw; match goal with a : bool |- _ => destruct a end;
              auto).
    apply throws_only_lift. intros e He. apply readUInt32LEAt_throws_inv in He as ->.
    by left.
  - intros e [He|He]; cbv beta; rewrite ?He; throws_steps.
Qed.

Lemma loadLocalFile_reported env input config :
  throws_only (fun e => reported e = true) (CRXExtractor.loadLocalFile env input config).
Proof.
  unfold CRXExtractor.loadLocalFile.
  apply (throws_only_try_catch _ (fun e => reported e = true)).
  - throws_steps.
  - intros e He. cbv beta in He. throws_steps.
Qed.

#[local] Hint Resolve findExtensionId_reported downloadFromWebStore_reported
  loadLocalFile_reported : throws.

Lemma loadInput_reported env input config :
  throws_only (fun e => reported e = true) (CRXExtractor.loadInput env input config).
Proof. unfold CRXExtractor.loadInput. throws_steps. Qed.

Lemma readUInt32LE_reported :
  throws_only (fun e => reported e = true) CRXExtractor.readUInt32LE.
Proof. unfold CRXExtractor.readUInt32LE. throws_steps. Qed.

#[local] Hint Resolve loadInput_reported readUInt32LE_reported : throws.

Lemma parseHeader_reported config :
  throws_only (fun e => reported e = true) (CRXExtractor.parseHeader config).
Proof. unfold CRXExtractor.parseHeader. throws_steps. Qed.

Lemma ensureDirectory_reported env config pathValidator path :
  throws_only (fun e => reported e = true)
    (CRXExtractor.ensureDirectory env config pathValidator path).
Proof.
  unfold CRXExtractor.ensureDirectory.
  apply (throws_only_try_catch _ (fun e => reported e = true)).
  - unfold CRXExtractor.sh_mkdir_p. throws_steps.
  - intros e He. cbv beta in He. throws_steps.
Qed.

Lemma sh_rm_rf_and_mkdir_p_reported env path :
  throws_only (fun e => reported e = true) (CRXExtractor.sh_rm_rf_and_mkdir_p env path).
Proof. unfold CRXExtractor.sh_rm_rf_and_mkdir_p. throws_steps. Qed.

Lemma Bun_write_file_reported env path data :
  throws_only (fun e => reported e = true) (CRXExtractor.Bun_write_file env path data).
Proof. unfold CRXExtractor.Bun_write_file. throws_steps. Qed.

Lemma extractZip_reported env config pathValidator zipData outputDir :
  throws_only (fun e => reported e = true)
    (CRXExtractor.extractZip env config pathValidator zipData outputDir).
Proof.
  intros s e s' H. apply extractZip_inv in H as [(-> & _)|(-> & _)]; reflexivity.
Qed.

Lemma readManifest_reported env config outputDir :
  throws_only (fun e => reported e = true) (CRXExtractor.readManifest env config outputDir).
Proof.
  unfold CRXExtractor.readManifest. throws_steps.
  apply (throws_only_try_catch _ (fun _ => True)).
  - apply throws_only_anything.
  - intros e _. throws_steps.
Qed.

#[local] Hint Resolve parseHeader_reported ensureDirectory_reported
  sh_rm_rf_and_mkdir_p_reported Bun_write_file_reported extractZip_reported
  readManifest_reported : throws.

Lemma extract_reported env input config pathValidator outputDir :
  throws_only (fun e => reported e = true)
    (CRXExtractor.extract env input config pathValidator outputDir).
Proof.
  unfold CRXExtractor.extract. throws_steps.
  apply (throws_only_try_catch _ (fun e => reported e = true)).
  - throws_steps.
  - intros e He. cbv beta in He. throws_steps.
Qed.

(** X15: the errors that leave [extract].  None is an abort signal: a
    download that timed out is reported as a download error.  The only
    security error is the rejection of a path by the path validator; an
    archive that the ZIP gate rejects never reaches the caller as a security
    error. *)
Theorem extract_errors :
  forall (env : Env) (input : jsstring) (config : ExtractorConfig)
         (pathValidator : PathValidator.t) (outputDir : option jsstring)
         (s s' : State) (e : exn),
    CRXExtractor.extract env input config pathValidator outputDir s = (Throws e, s') ->
    is_AbortError e = false
    /\ (instanceof_SecurityError e = true ->
        exists path, e = SecurityError (Path_resolves_outside_allowed_directories path))
    /\ e <> SecurityError Suspicious_compression_ratio
    /\ e <> SecurityError Too_many_files_in_archive
    /\ e <> SecurityError Extracted_size_too_large.
Proof.
  intros env input config pathValidator outputDir s s' e H.
  apply extract_reported in H. cbv beta in H.
  destruct e as [m|m|m|m|abort m]; cbn in H |- *.
  1-3: repeat split; discriminate.
  - split; [reflexivity|]. split.
    + intros _. destruct m; try discriminate H. eauto.
    + repeat split; intros [= ->]; discriminate H.
  - apply negb_true_iff in H. repeat split; discriminate || assumption.
Qed.

Lemma extract_errors_witness :
  exists s',
    CRXExtractor.extract Samples.bomb_env (js "ext.crx") DEFAULT_CONFIG
      (PathValidator.new [[DOT]] {| process_cwd := js "/w" |}) None Samples.world
    = (Throws (ExtractionError (Extraction_failed_ZIP_saved_to Samples.fallback_file)), s')
    /\ is_AbortError (ExtractionError (Extraction_failed_ZIP_saved_to Samples.fallback_file))
       = false.
Proof.
  eexists. split; [vm_compute; reflexivity|].
  eapply (extract_errors Samples.bomb_env (js "ext.crx") DEFAULT_CONFIG
            (PathValidator.new [[DOT]] {| process_cwd := js "/w" |}) None Samples.world).
  vm_compute. reflexivity.
Defined.

(** ** What a whole run adds *)

Section Pipeline.
Variable P : effect -> bool.
Variable env : Env.
Variable input : jsstring.
Variable config : ExtractorConfig.
Variable pathValidator : PathValidator.t.

(** The lines of the logger and the loading of the input are allowed, and so
    is every command, write and plain console line. *)
Hypothesis debug_allowed :
  forall message data, respects (adds_only P) (Logger.debug (logLevel config) message data).
Hypothesis info_allowed :
  forall message, respects (adds_only P) (Logger.info (logLevel config) message).
Hypothesis warn_allowed :
  forall message, respects (adds_only P) (Logger.warn (logLevel config) message).
Hypothesis error_allowed :
  forall message, respects (adds_only P) (Logger.error (logLevel config) message).
Hypothesis loadInput_allowed :
  respects (adds_only P) (CRXExtractor.loadInput env input config).
Hypothesis others_allowed :
  forall e, match e with Console _ _ | Fetch _ => True | _ => P e = true end.

Lemma extract_adds_only (outputDir : option jsstring) :
  respects (adds_only P) (CRXExtractor.extract env input config pathValidator outputDir).
Proof.
  unfold CRXExtractor.extract, CRXExtractor.parseHeader, CRXExtractor.readUInt32LE,
    CRXExtractor.extractZip, CRXExtractor.ensureDirectory, CRXExtractor.validatePath,
    CRXExtractor.validateZipSecurity, CRXExtractor.getZipInfo, CRXExtractor.readManifest,
    CRXExtractor.sh_mkdir_p, CRXExtractor.sh_rm_rf_and_mkdir_p, CRXExtractor.sh_rm_rf,
    CRXExtractor.sh_mv, CRXExtractor.sh_unzip, CRXExtractor.Bun_write_file,
    CRXExtractor.logger_debug, CRXExtractor.logger_info, CRXExtractor.logger_warn,
    CRXExtractor.logger_error.
  repeat lazymatch goal with
    | |- respects _ (Logger.debug _ _ _) => apply debug_allowed
    | |- respects _ (Logger.info _ _) => apply info_allowed
    | |- respects _ (Logger.warn _ _) => apply warn_allowed
    | |- respects _ (Logger.error _ _) => apply error_allowed
    | |- respects _ (CRXExtractor.loadInput _ _ _) => apply loadInput_allowed
    | |- respects _ (perform ?e) => apply perform_adds_only; exact (others_allowed e)
    | |- _ => respects_step
    end.
Qed.
End Pipeline.

Lemma loadInput_local env input config (s : State) :
  match_extension_id input = None ->
  CRXExtractor.loadInput env input config s
  = CRXExtractor.loadLocalFile env input config
      (CRXExtractor.logger_debug config "Extension ID search" true s).2.
Proof.
  intros Hnone. unfold CRXExtractor.loadInput, CRXExtractor.findExtensionId.
  rewrite Hnone. unfold bind at 1. unfold bind at 1.
  rewrite (logger_debug_run config "Extension ID search" true s). reflexivity.
Qed.

(** X16: an input without an extension id is handled without the network:
    when the input contains no run of 32 lowercase letters, no run of
    [extract] sends a request, however it ends. *)
Theorem local_input_stays_offline :
  forall (env : Env) (input : jsstring) (config : ExtractorConfig)
         (pathValidator : PathValidator.t) (outputDir : option jsstring) (s : State),
    match_extension_id input = None ->
    adds_only offline s
      (CRXExtractor.extract env input config pathValidator outputDir s).2.
Proof.
  intros env input config pathValidator outputDir s Hnone. revert s.
  apply extract_adds_only.
  - intros. by apply Logger_debug_adds_only.
  - intros. by apply Logger_info_adds_only.
  - intros. by apply Logger_warn_adds_only.
  - intros. by apply Logger_error_adds_only.
  - intros s. rewrite (loadInput_local env input config s Hnone).
    transitivity (CRXExtractor.logger_debug config "Extension ID search" true s).2.
    + by apply Logger_debug_adds_only.
    + assert (H : respects (adds_only offline)
                    (CRXExtractor.loadLocalFile env input config)).
      { unfold CRXExtractor.loadLocalFile, CRXExtractor.logger_debug,
          CRXExtractor.logger_info.
        respects_steps. }
      apply H.
  - intros []; exact I || reflexivity.
Qed.

Lemma local_input_stays_offline_witness :
  match_extension_id (js "ext.crx") = None
  /\ adds_only offline Samples.world
       (CRXExtractor.extract Samples.bomb_env (js "ext.crx") DEFAULT_CONFIG
          (PathValidator.new [[DOT]] {| process_cwd := js "/w" |}) None Samples.world).2.
Proof.
  split; [reflexivity|]. apply local_input_stays_offline. reflexivity.
Defined.

Lemma Logger_debug_at_least level message data :
  respects (adds_only (at_least level)) (Logger.debug level message data).
Proof.
  unfold Logger.debug. destruct (Logger.shouldLog level DEBUG) eqn:E; [|respects_steps].
  respects_steps; apply perform_adds_only; exact E.
Qed.

Lemma Logger_info_at_least level message :
  respects (adds_only (at_least level)) (Logger.info level message).
Proof.
  unfold Logger.info. destruct (Logger.shouldLog level INFO) eqn:E; [|respects_steps].
  apply perform_adds_only. exact E.
Qed.

Lemma Logger_warn_at_least level message :
  respects (adds_only (at_least level)) (Logger.warn level message).
Proof.
  unfold Logger.warn. destruct (Logger.shouldLog level WARN) eqn:E; [|respects_steps].
  apply perform_adds_only. exact E.
Qed.

Lemma Logger_error_at_least level message :
  respects (adds_only (at_least level)) (Logger.error level message).
Proof.
  unfold Logger.error. destruct (Logger.shouldLog level ERROR) eqn:E; [|respects_steps].
  respects_steps; apply perform_adds_only; exact E.
Qed.

(** X17: the logger keeps to the configured level through a whole run.
    Every line that [extract] prints through the logger is at the level of the
    configuration or above: with [--quiet] nothing below an error, and debug
    lines only with [--debug]. *)
Theorem extract_logs_at_configured_level :
  forall (env : Env) (input : jsstring) (config : ExtractorConfig)
         (pathValidator : PathValidator.t) (outputDir : option jsstring) (s : State),
    adds_only (at_least (logLevel config)) s
      (CRXExtractor.extract env input config pathValidator outputDir s).2.
Proof.
  intros env input config pathValidator outputDir.
  apply extract_adds_only.
  - intros. apply Logger_debug_at_least.
  - intros. apply Logger_info_at_least.
  - intros. apply Logger_warn_at_least.
  - intros. apply Logger_error_at_least.
  - unfold CRXExtractor.loadInput, CRXExtractor.findExtensionId,
      CRXExtractor.downloadFromWebStore, CRXExtractor.loadLocalFile,
      CRXExtractor.logger_debug, CRXExtractor.logger_info.
    repeat lazymatch goal with
      | |- respects _ (Logger.debug _ _ _) => apply Logger_debug_at_least
      | |- respects _ (Logger.info _ _) => apply Logger_info_at_least
      | |- respects _ (perform (Fetch _)) => apply perform_adds_only; reflexivity
      | |- _ => respects_step
      end.
  - intros []; exact I || reflexivity.
Qed.

(** ** Local files *)

(** X18: what [loadLocalFile] does with the three answers of the file
    system.  Unless the file exists, has a stat and can be read, the call
    fails with the validation error for a missing file and the extractor is
    untouched.  Otherwise the stat size decides: above [maxFileSize] the call
    fails with the validation error for an oversized file and no buffer is
    stored; else the buffer holds exactly the bytes read, and the extension is
    named by the sanitized file name with id [local].  No file changes. *)
Theorem loadLocalFile_outcomes :
  forall (env : Env) (input : jsstring) (config : ExtractorConfig) (s : State),
    exists r s',
      CRXExtractor.loadLocalFile env input config s = (r, s')
      /\ files s' = files s
      /\ match file_exists env input, file_stat_size env input, file_arrayBuffer env input with
         | true, Some size, Some content =>
             if (maxFileSize config <? size)%float
             then r = Throws (ValidationError File_too_large)
                  /\ buffer s' = buffer s /\ extensionInfo s' = extensionInfo s
             else r = Returns tt
                  /\ buffer s' = Some content
                  /\ extensionInfo s'
                     = {| id := Some (js "local");
                          name := Some (PathValidator.sanitizeFilename
                                          (CRXExtractor.local_filename input)) |}
         | _, _, _ =>
             r = Throws (ValidationError (File_not_found_or_inaccessible input)) /\ s' = s
         end.
Proof.
  intros env input config s.
  destruct (CRXExtractor.loadLocalFile env input config s) as [r s'] eqn:E.
  exists r, s'. split; [reflexivity|].
  split; [pose proof (loadLocalFile_same_files env input config s) as [H _];
          by rewrite E in H|].
  unfold CRXExtractor.loadLocalFile, try_catch in E.
  destruct (file_exists env input); [|by injection E as <- <-].
  destruct (file_stat_size env input) as [size|]; [|by injection E as <- <-].
  destruct (file_arrayBuffer env input) as [content|]; [|by injection E as <- <-].
  unfold bind at 1 in E.
  destruct (Logger_info_state (logLevel config) "Loading local file" s)
    as (s1 & E1 & Hb1 & Hi1 & _).
  unfold CRXExtractor.logger_info in E. rewrite E1 in E.
  destruct (maxFileSize config <? size)%float.
  - injection E as <- <-. by split.
  - unfold bind at 1 in E. unfold modify at 1 in E.
    unfold bind at 1 in E. unfold modify at 1 in E.
    match type of E with
    | context [CRXExtractor.logger_debug config ?m ?d ?st] =>
        destruct (logger_debug_returns (logLevel config) m d st)
          as (s2 & E2 & Hb2 & _ & Hi2 & _)
    end.
    unfold CRXExtractor.logger_debug in E. rewrite E2 in E. injection E as <- <-.
    split; [reflexivity|]. split; [exact Hb2 | exact Hi2].
Qed.

(** ** The root directory as an allowed path *)

Lemma normalized_no_double_slash (path : jsstring) :
  starts_with [SLASH; SLASH] (PathUtils.normalize path) = false.
Proof.
  destruct (normalize_shape path) as (segs & Hsegs & ->).
  destruct segs as [|seg segs].
  - by destruct (starts_with [SLASH] path).
  - apply Forall_cons in Hsegs as [Hseg _].
    destruct (join_with_head seg segs Hseg) as (c & rest & -> & Hc).
    unfold is_slash in Hc.
    destruct (starts_with [SLASH] path); cbn [app starts_with].
    + rewrite N.eqb_sym in Hc. rewrite Hc. by rewrite andb_false_r.
    + rewrite N.eqb_sym in Hc. by rewrite Hc.
Qed.

(** X20: an allowed path that normalizes to the root directory admits the
    root alone.  The validator compares with the root followed by a slash,
    which is two slashes here, and no normalized path starts with two slashes;
    so with [/] as the only allowed path every path but the root itself is
    rejected. *)
Theorem root_directory_admits_only_itself :
  forall (import_meta_dir : jsstring) (v : PathValidator.t) (path : jsstring)
         (baseDir : option jsstring) (proc : Process) (n : jsstring),
    Forall (fun allowed => PathUtils.normalize allowed = [SLASH])
           (PathValidator.resolvedAllowedPaths v) ->
    PathValidator.validatePath import_meta_dir v path baseDir proc = Returns n ->
    n = [SLASH].
Proof.
  intros imd v path baseDir proc n Hroots H.
  apply validatePath_decision in H as [Hn (root & Hin & Hwithin)].
  rewrite Forall_forall in Hroots.
  assert (Hroot : PathUtils.normalize root = [SLASH])
    by (apply Hroots; by apply list_elem_of_In).
  unfold PathValidator.within in Hwithin. rewrite Hroot in Hwithin.
  cbn [app] in Hwithin. rewrite Hn in Hwithin at 1.
  rewrite normalized_no_double_slash in Hwithin. cbn [orb] in Hwithin.
  by apply str_eqb_eq.
Qed.

Lemma root_directory_admits_only_itself_witness :
  let v := PathValidator.new [[SLASH]] {| process_cwd := js "/w" |} in
  PathValidator.validatePath [] v [SLASH] None {| process_cwd := js "/w" |} = Returns [SLASH]
  /\ PathValidator.validatePath [] v (js "/w/out") None {| process_cwd := js "/w" |}
     = Throws (SecurityError (Path_resolves_outside_allowed_directories (js "/w/out"))).
Proof.
  intros v. split; [|reflexivity].
  assert (H : PathValidator.validatePath [] v [SLASH] None {| process_cwd := js "/w" |}
              = Returns (PathUtils.normalize [SLASH])) by reflexivity.
  assert (Hroots : Forall (fun allowed => PathUtils.normalize allowed = [SLASH])
                     (PathValidator.resolvedAllowedPaths v)) by (repeat constructor).
  pose proof (root_directory_admits_only_itself [] v [SLASH] None
                {| process_cwd := js "/w" |} _ Hroots H) as E.
  rewrite E in H. exact H.
Defined.

(** ** A run that succeeds *)

#[local] Instance same_buffer_preorder : PreOrder same_buffer.
Proof.
  split.
  - intros s. reflexivity.
  - intros a b c H1 H2. unfold same_buffer in *. congruence.
Qed.

Lemma perform_same_buffer (e : effect) : respects same_buffer (perform e).
Proof. intros s. reflexivity. Qed.

Lemma modify_same_buffer (f : State -> State) :
  (forall s, buffer (f s) = buffer s) -> respects same_buffer (modify f).
Proof. intros Hf s. apply Hf. Qed.

#[local] Hint Extern 1 (buffer _ = buffer _) => reflexivity : respects.
#[local] Hint Resolve perform_same_buffer modify_same_buffer : respects.

(** The header that [parseHeader] returns is decided by the buffer. *)
Lemma parseHeader_result_of_buffer config (s1 s2 : State) (buf : bytes) :
  buffer s1 = Some buf -> buffer s2 = Some buf ->
  (CRXExtractor.parseHeader config s1).1 = (CRXExtractor.parseHeader config s2).1.
Proof.
  intros H1 H2.
  rewrite (parseHeader_run config s1 buf H1), (parseHeader_run config s2 buf H2).
  repeat match goal with
         | |- context [match ?x with _ => _ end] => destruct x
         end; reflexivity.
Qed.

Lemma parseHeader_returns_range config (s s' : State) (buf : bytes) (header : CRXHeader) :
  buffer s = Some buf ->
  CRXExtractor.parseHeader config s = (Returns header, s') ->
  (12 <= zipOffset header < Z.of_nat (length buf))%Z.
Proof.
  intros Hbuf. rewrite (parseHeader_run config s buf Hbuf).
  destruct (CRXExtractor.readUInt32LEAt buf 0) as [magic|]; [|discriminate].
  destruct (negb _); [discriminate|].
  destruct (CRXExtractor.readUInt32LEAt buf 4) as [ver|]; [|discriminate].
  destruct (Z.eqb_spec ver CRX_VERSION_2) as [->|_];
    [|destruct (Z.eqb_spec ver CRX_VERSION_3) as [->|_]; [|discriminate]].
  - destruct (CRXExtractor.readUInt32LEAt buf 8) as [pk|] eqn:E8; [|discriminate].
    destruct (CRXExtractor.readUInt32LEAt buf 12) as [sg|] eqn:E12; [|discriminate].
    apply readUInt32LEAt_returns_inv in E8 as [_ Hpk], E12 as [_ Hsg].
    destruct (Z.leb_spec (Z.of_nat (length buf)) (16 + pk + sg)); [discriminate|].
    intros [= <- _]. cbn [zipOffset]. lia.
  - destruct (CRXExtractor.readUInt32LEAt buf 8) as [hs|] eqn:E8; [|discriminate].
    apply readUInt32LEAt_returns_inv in E8 as [_ Hhs].
    destruct (Z.leb_spec (Z.of_nat (length buf)) (12 + hs)); [discriminate|].
    intros [= <- _]. cbn [zipOffset]. lia.
Qed.

(** X19: what a run of [extract] that returns has done.  The extractor
    holds the container it loaded; the header is the one [parseHeader] reads
    from that container, with the payload offset inside it; and the payload,
    the bytes from that offset on, is what was staged: its listing passed the
    three checks of the security gate and [unzip] unpacked it with exit code
    0. *)
Theorem extracted_payload_passed_the_gate :
  forall (env : Env) (input : jsstring) (config : ExtractorConfig)
         (pathValidator : PathValidator.t) (outputDir : option jsstring) (s s' : State),
    CRXExtractor.extract env input config pathValidator outputDir s = (Returns tt, s') ->
    exists (container : bytes) (header : CRXHeader),
      buffer s' = Some container
      /\ (forall st, buffer st = Some container ->
            (CRXExtractor.parseHeader config st).1 = Returns header)
      /\ (12 <= zipOffset header < Z.of_nat (length container))%Z
      /\ (exists u n,
            unzip_l env (drop (Z.to_nat (zipOffset header)) container) = Some (u, n)
            /\ CRXExtractor.checkZipInfo config
                 {| fileCount := n; uncompressedSize := u;
                    compressedSize :=
                      number_of_nat
                        (length (drop (Z.to_nat (zipOffset header)) container)) |}
               = Returns tt)
      /\ (unzip env (drop (Z.to_nat (zipOffset header)) container)).1 = Sh_exit 0.
Proof.
  intros env input config pathValidator outputDir s s' H.
  unfold CRXExtractor.extract in H.
  apply bind_returns_inv in H as ([] & s0 & _ & H).
  apply try_catch_returns_inv in H as [H|(e & sx & _ & H)].
  2: { apply bind_returns_inv in H as (? & ? & _ & H). discriminate. }
  apply bind_returns_inv in H as ([] & s1 & _ & H).
  apply bind_returns_inv in H as (loaded & s1' & Hget & H).
  unfold get in Hget. injection Hget as <- <-.
  destruct (buffer s1) as [container|] eqn:Hbuf; [|discriminate].
  assert (Hkeep : buffer s' = buffer s1).
  { match type of H with
    | ?k s1 = _ =>
        assert (HK : respects same_buffer k);
        [|pose proof (HK s1) as Hb; rewrite H in Hb; exact Hb]
    end.
    unfold CRXExtractor.parseHeader, CRXExtractor.readUInt32LE,
      CRXExtractor.extractZip, CRXExtractor.ensureDirectory, CRXExtractor.validatePath,
      CRXExtractor.validateZipSecurity, CRXExtractor.getZipInfo, CRXExtractor.readManifest,
      CRXExtractor.sh_mkdir_p, CRXExtractor.sh_rm_rf_and_mkdir_p, CRXExtractor.sh_rm_rf,
      CRXExtractor.sh_mv, CRXExtractor.sh_unzip, CRXExtractor.Bun_write_file,
      CRXExtractor.logger_debug, CRXExtractor.logger_info, CRXExtractor.logger_warn,
      CRXExtractor.logger_error, Logger.debug, Logger.info, Logger.warn, Logger.error.
    respects_steps. }
  apply bind_returns_inv in H as (header & s2 & Hparse & H).
  do 2 apply bind_returns_inv in H as ([] & ? & _ & H).
  apply bind_returns_inv in H as (info & ? & _ & H).
  apply bind_returns_inv in H as (outDir & ? & _ & H).
  do 3 apply bind_returns_inv in H as ([] & ? & _ & H).
  apply bind_returns_inv in H as (validCrxPath & ? & _ & H).
  do 4 apply bind_returns_inv in H as ([] & ? & _ & H).
  apply bind_returns_inv in H as ([] & ? & Hzip & _).
  apply extractZip_inv in Hzip as (_ & Hexit & u & n & Hlist & Hcheck).
  exists container, header.
  split; [by rewrite Hkeep|]. split.
  { intros st Hst.
    rewrite (parseHeader_result_of_buffer config st s1 container Hst Hbuf), Hparse.
    reflexivity. }
  split; [exact (parseHeader_returns_range config s1 s2 container header Hbuf Hparse)|].
  split; [exists u, n; by split | exact Hexit].
Qed.

Lemma extracted_payload_passed_the_gate_witness :
  exists (s' : State) (header : CRXHeader),
    CRXExtractor.extract
      (Samples.env_of 16 Samples.crx_v3 (Some (10%float, 1%float)) (Sh_exit 0))
      (js "ext.crx") DEFAULT_CONFIG
      (PathValidator.new [[DOT]] {| process_cwd := js "/w" |}) None Samples.world
    = (Returns tt, s')
    /\ (12 <= zipOffset header < 16)%Z.
Proof.
  eexists.
  assert (Hrun : CRXExtractor.extract
                   (Samples.env_of 16 Samples.crx_v3 (Some (10%float, 1%float)) (Sh_exit 0))
                   (js "ext.crx") DEFAULT_CONFIG
                   (PathValidator.new [[DOT]] {| process_cwd := js "/w" |}) None
                   Samples.world
                 = (Returns tt, _)) by (vm_compute; reflexivity).
  destruct (extracted_payload_passed_the_gate _ _ _ _ _ _ _ Hrun)
    as (container & header & Hbuf & _ & Hrange & _).
  exists header. split; [exact Hrun|].
  vm_compute in Hbuf. injection Hbuf as <-. exact Hrange.
Defined.
